(** * Signal-driven trade simulation: the backtesting engine and the momentum strategy

    A shallow embedding of [src/backtester/engine.py] (class [Backtester]), of
    [src/factor_lib/momentum.py] (the momentum functions and class
    [MomentumBacktester]) and of the cleaning and indicator functions of
    [src/data_processing/cleaners.py].  Fetching prices from the network and
    writing files are not represented; percentage changes, the rolling
    standard deviation and the value of a moving average are taken as given
    functions on series.

    Conventions of the embedding.
    - A Python/NumPy float is a [num]: either [NaN] or a finite rational [Fin q].
      Arithmetic is exact (no rounding) and infinities are not represented.
      A theorem about arbitrary inputs that states the value of a balance
      assumes inputs on which the floating-point sums are exact
      ([exact_sums]).
    - A pandas [DataFrame] is an index (a list of integer labels) together with an
      ordered association list of named columns.  Assignment from a label on
      ([loc_from_set]) is represented for labels that occur once: a
      theorem about [calculate_performance] on an arbitrary frame assumes an
      index without repeated label.
    - A [Backtester] object is a record of its five attributes; a method is a
      function from the object to an outcome (a value or a raised exception)
      and the object as the method leaves it.  Attribute updates made before
      an exception is raised are kept, as in Python.
    - Overridden methods are reached through a method table ([Class]), so that
      [monte_carlo_backtest] and [run_backtest] call the methods of the class
      of [self]. *)

From Stdlib Require Import String Ascii.
From Stdlib Require Import List ZArith QArith Bool Lia.
From Stdlib Require Import Permutation Sorted.
Import ListNotations.


(** ** Python values *)

Module Py.

(** A float: [NaN] or a finite value. *)
Inductive num : Type :=
| NaN
| Fin (q : Q).

(** [pd.isna] on a scalar. *)
Definition isna (x : num) : bool :=
  match x with NaN => true | Fin _ => false end.

Definition Qlt_bool (a b : Q) : bool := negb (Qle_bool b a).

(** [x > y], [x < y], [x <= y] on floats: every comparison with [NaN] is [False]. *)
Definition gt (x y : num) : bool :=
  match x, y with Fin a, Fin b => Qlt_bool b a | _, _ => false end.
Definition lt (x y : num) : bool :=
  match x, y with Fin a, Fin b => Qlt_bool a b | _, _ => false end.
Definition le (x y : num) : bool :=
  match x, y with Fin a, Fin b => Qle_bool a b | _, _ => false end.

(** [x + y] and [x - y]: [NaN] is absorbing.  The result is the exact sum
    or difference, which is the float the code computes whenever that
    float operation does not round. *)
Definition add (x y : num) : num :=
  match x, y with Fin a, Fin b => Fin (a + b) | _, _ => NaN end.
Definition sub (x y : num) : num :=
  match x, y with Fin a, Fin b => Fin (a - b) | _, _ => NaN end.

(** Equality of floats up to the value of the rational. *)
Definition feq (x y : num) : Prop :=
  match x, y with
  | NaN, NaN => True
  | Fin a, Fin b => a == b
  | _, _ => False
  end.

(** [int(x)] on a finite float: truncation toward zero. *)
Definition int_of_Q (q : Q) : Z := Z.quot (Qnum q) (Zpos (Qden q)).

(** An integer stored in a float column. *)
Definition of_Z (z : Z) : num := Fin (inject_Z z).

(** *** Strings: [str.split], [str.strip], [int(str)] *)

(** [s.split(sep)] for a one-character separator. *)
Fixpoint split (sep : ascii) (s : string) : list string :=
  match s with
  | EmptyString => [EmptyString]
  | String c s' =>
      if Ascii.eqb c sep then EmptyString :: split sep s'
      else match split sep s' with
           | [] => [String c EmptyString]
           | w :: ws => String c w :: ws
           end
  end.

Definition is_space (c : ascii) : bool :=
  let n := nat_of_ascii c in
  (Nat.eqb n 32 || (Nat.leb 9 n && Nat.leb n 13) || (Nat.leb 28 n && Nat.leb n 31))%bool.

Fixpoint lstrip (s : string) : string :=
  match s with
  | String c s' => if is_space c then lstrip s' else s
  | EmptyString => EmptyString
  end.

Fixpoint rstrip (s : string) : string :=
  match s with
  | EmptyString => EmptyString
  | String c s' =>
      match rstrip s' with
      | EmptyString => if is_space c then EmptyString else String c EmptyString
      | r => String c r
      end
  end.

Definition digit (c : ascii) : option Z :=
  let n := nat_of_ascii c in
  if (Nat.leb 48 n && Nat.leb n 57)%bool then Some (Z.of_nat (n - 48)) else None.

(** Decimal digits, most significant first, accumulated left to right. *)
Fixpoint digits (s : string) (acc : Z) : option Z :=
  match s with
  | EmptyString => Some acc
  | String c s' =>
      match digit c with
      | Some d => digits s' (10 * acc + d)
      | None => None
      end
  end.

Definition unsigned (s : string) : option Z :=
  match s with
  | EmptyString => None
  | _ => digits s 0
  end.

(** [int(s)]: surrounding white space, an optional sign, then at least one
    ASCII decimal digit; [None] stands for the [ValueError] Python raises on
    anything else.  (Digit-group underscores cannot occur in a piece returned
    by [split "_"]; non-ASCII digits are not represented.) *)
Definition int_of_string (s : string) : option Z :=
  match rstrip (lstrip s) with
  | String "+"%char r => unsigned r
  | String "-"%char r => option_map Z.opp (unsigned r)
  | r => unsigned r
  end.

(** *** [str(n)] for an integer, as an f-string prints it *)

Definition digit_char (d : Z) : ascii := ascii_of_nat (48 + Z.to_nat d).

(** The decimal digits of [n >= 0], put in front of [acc]; [fuel] bounds the
    number of digits. *)
Fixpoint decimal (fuel : nat) (n : Z) (acc : string) : string :=
  match fuel with
  | O => acc
  | S fuel' =>
      let acc' := String (digit_char (n mod 10)) acc in
      if (n <? 10)%Z then acc' else decimal fuel' (n / 10) acc'
  end.

Definition str_of_int (n : Z) : string :=
  if (n <? 0)%Z
  then String "-"%char (decimal (S (Z.to_nat (- n))) (- n) EmptyString)
  else decimal (S (Z.to_nat n)) n EmptyString.

End Py.

(** ** pandas: series and data frames *)

Module Pandas.
Import Py.

(** The values of a column, in row order. *)
Definition Series : Type := list num.

(** An index of labels and the named columns, in column order.  In a
    well-formed frame every column has one value per label. *)
Record DataFrame : Type := mkDataFrame {
  index : list Z;
  columns : list (string * Series)
}.

Definition nrows (df : DataFrame) : nat := length (index df).

Definition column_names (df : DataFrame) : list string := map fst (columns df).

Definition well_formed (df : DataFrame) : Prop :=
  Forall (fun c => length (snd c) = nrows df) (columns df).

Fixpoint lookup (c : string) (cols : list (string * Series)) : option Series :=
  match cols with
  | [] => None
  | (c', v) :: rest => if String.eqb c' c then Some v else lookup c rest
  end.

(** [df[c]]; [None] stands for [KeyError]. *)
Definition get_col (c : string) (df : DataFrame) : option Series :=
  lookup c (columns df).

Fixpoint assign (c : string) (v : Series) (cols : list (string * Series))
  : list (string * Series) :=
  match cols with
  | [] => [(c, v)]
  | (c', v') :: rest =>
      if String.eqb c' c then (c, v) :: rest else (c', v') :: assign c v rest
  end.

(** [df[c] = v]: an existing column is replaced in place, a new one is
    appended after the others. *)
Definition set_col (c : string) (v : Series) (df : DataFrame) : DataFrame :=
  {| index := index df; columns := assign c v (columns df) |}.

(** [df[c] = x] for a scalar [x]. *)
Definition set_scalar (c : string) (x : num) (df : DataFrame) : DataFrame :=
  set_col c (repeat x (nrows df)) df.

(** Element-wise comparison of two aligned series, giving a boolean mask. *)
Definition compare (op : num -> num -> bool) (s l : Series) : list bool :=
  map (fun p => op (fst p) (snd p)) (combine s l).

(** [s[mask] = x]. *)
Fixpoint where_set (mask : list bool) (x : num) (s : Series) : Series :=
  match mask, s with
  | m :: mask', y :: s' => (if m then x else y) :: where_set mask' x s'
  | _, _ => s
  end.

(** [df.loc[mask, c] = x]. *)
Definition loc_mask_set (mask : list bool) (c : string) (x : num) (df : DataFrame)
  : DataFrame :=
  match get_col c df with
  | Some s => set_col c (where_set mask x s) df
  | None => set_col c (where_set mask x (repeat NaN (nrows df))) df
  end.

(** A row as [iterrows] yields it: the value of every column at one position. *)
Definition Row : Type := list (string * num).

Definition row_at (i : nat) (df : DataFrame) : Row :=
  map (fun c => (fst c, nth i (snd c) NaN)) (columns df).

(** [row[c]]; [None] stands for [KeyError]. *)
Fixpoint row_get (c : string) (r : Row) : option num :=
  match r with
  | [] => None
  | (c', v) :: rest => if String.eqb c' c then Some v else row_get c rest
  end.

(** [df.iterrows()]: the pairs (label, row) in index order. *)
Definition iterrows (df : DataFrame) : list (Z * Row) :=
  map (fun p => (snd p, row_at (fst p) df)) (combine (seq 0 (nrows df)) (index df)).

(** Position of the first row labelled [k]. *)
Fixpoint position_of (k : Z) (idx : list Z) : option nat :=
  match idx with
  | [] => None
  | k' :: rest => if Z.eqb k' k then Some O else option_map S (position_of k rest)
  end.

Definition fill_from (pos : nat) (x : num) (s : Series) : Series :=
  firstn pos s ++ repeat x (length s - pos).

(** [df.loc[k:, c] = x] on a frame whose labels are unique: every row from
    the one labelled [k] to the last.  [None] stands for the [KeyError]
    raised when no row carries the label. *)
Definition loc_from_set (k : Z) (c : string) (x : num) (df : DataFrame)
  : option DataFrame :=
  match position_of k (index df) with
  | None => None
  | Some pos =>
      match get_col c df with
      | Some s => Some (set_col c (fill_from pos x s) df)
      | None => Some (set_col c (fill_from pos x (repeat NaN (nrows df))) df)
      end
  end.

(** [s.fillna(x)]. *)
Definition fillna (x : num) (s : Series) : Series :=
  map (fun y => if isna y then x else y) s.

(** [s.astype(int)]: truncation toward zero; [None] stands for the error
    raised on a missing value.  The library stores a signed 64-bit integer;
    what it stores for a value outside that range depends on the platform
    and is not represented. *)
Fixpoint astype_int (s : Series) : option Series :=
  match s with
  | [] => Some []
  | NaN :: _ => None
  | Fin q :: s' => option_map (cons (of_Z (int_of_Q q))) (astype_int s')
  end.

(** *** [Series.median] *)

Fixpoint insert_sorted (x : Q) (l : list Q) : list Q :=
  match l with
  | [] => [x]
  | y :: l' => if Qle_bool x y then x :: l else y :: insert_sorted x l'
  end.

Definition sort (l : list Q) : list Q := fold_right insert_sorted [] l.

Fixpoint dropna (s : Series) : list Q :=
  match s with
  | [] => []
  | NaN :: s' => dropna s'
  | Fin q :: s' => q :: dropna s'
  end.

(** Median of the values that are present: the middle one, or the mean of
    the two middle ones; [NaN] when none is present. *)
Definition median (s : Series) : num :=
  let v := sort (dropna s) in
  let n := length v in
  match n with
  | O => NaN
  | _ =>
      if Nat.even n
      then Fin ((nth (n / 2 - 1) v 0 + nth (n / 2) v 0) / 2)
      else Fin (nth (n / 2) v 0)
  end.

(** *** [DataFrame.sample(frac=1)] and [reset_index(drop=True)] *)

(** The rows at the drawn positions, in the drawn order.  A draw of
    [sample(frac=1)] is a permutation of [0 .. nrows-1]; the draw is an
    explicit argument. *)
Definition sample (draw : list nat) (df : DataFrame) : DataFrame :=
  {| index := map (fun i => nth i (index df) 0%Z) draw;
     columns := map (fun c => (fst c, map (fun i => nth i (snd c) NaN) draw))
                    (columns df) |}.

Definition reset_index (df : DataFrame) : DataFrame :=
  {| index := map Z.of_nat (seq 0 (nrows df)); columns := columns df |}.

(** *** [Series.rank(ascending=False)] *)

(** How many of the values that are present satisfy [p]. *)
Definition count_if (p : Q -> bool) (s : Series) : nat :=
  length (filter p (dropna s)).

(** Ranks in descending order with the default tie rule: a missing value
    keeps no rank; a present value [x] with [g] present values above it and
    [e] present values equal to it (itself included) occupies, with its
    ties, the places [g+1 .. g+e] and gets their average, [g + (e+1)/2]. *)
Definition rank_descending (s : Series) : Series :=
  map (fun v =>
         match v with
         | NaN => NaN
         | Fin x =>
             Fin (inject_Z (Z.of_nat (count_if (fun y => Qlt_bool x y) s))
                  + (inject_Z (Z.of_nat (count_if (fun y => Qeq_bool y x) s)) + 1) / 2)
         end) s.

(** *** [DataFrame.empty], [ffill], [bfill], [drop_duplicates] *)

(** [df.empty]: no row or no column. *)
Definition empty (df : DataFrame) : bool :=
  (Nat.eqb (nrows df) 0 || match columns df with [] => true | _ => false end)%bool.

(** Every column through [f], the index kept. *)
Definition map_columns (f : Series -> Series) (df : DataFrame) : DataFrame :=
  {| index := index df; columns := map (fun c => (fst c, f (snd c))) (columns df) |}.

(** Forward fill with [last] the latest present value seen so far. *)
Fixpoint ffill_from (last : num) (s : Series) : Series :=
  match s with
  | [] => []
  | NaN :: s' => last :: ffill_from last s'
  | Fin q :: s' => Fin q :: ffill_from (Fin q) s'
  end.

(** [s.ffill()]: a missing value takes the latest present value before it;
    missing values before the first present one stay. *)
Definition ffill (s : Series) : Series := ffill_from NaN s.

(** [s.bfill()]: the same from the end. *)
Definition bfill (s : Series) : Series := rev (ffill (rev s)).

(** Equality of two values as [duplicated] sees it: missing values are
    equal to each other. *)
Definition num_eqb (x y : num) : bool :=
  match x, y with
  | NaN, NaN => true
  | Fin a, Fin b => Qeq_bool a b
  | _, _ => false
  end.

(** The values of row [i], column by column. *)
Definition row_values (i : nat) (df : DataFrame) : list num :=
  map (fun c => nth i (snd c) NaN) (columns df).

Fixpoint row_eqb (r1 r2 : list num) : bool :=
  match r1, r2 with
  | [], [] => true
  | x :: r1', y :: r2' => (num_eqb x y && row_eqb r1' r2')%bool
  | _, _ => false
  end.

(** The positions among [todo] of the rows that equal no row kept before
    them; [kept] holds the positions kept so far. *)
Fixpoint first_occurrences (df : DataFrame) (todo kept : list nat) : list nat :=
  match todo with
  | [] => []
  | i :: todo' =>
      if existsb (fun j => row_eqb (row_values j df) (row_values i df)) kept
      then first_occurrences df todo' kept
      else i :: first_occurrences df todo' (kept ++ [i])
  end.

(** [df.drop_duplicates()]: of rows with equal values in every column only
    the first is kept, with its label; an empty frame is returned as it
    is.  ([sample] with explicit positions is the selection of those rows.) *)
Definition drop_duplicates (df : DataFrame) : DataFrame :=
  if empty df then df
  else sample (first_occurrences df (seq 0 (nrows df)) []) df.

(** *** [Series.rolling(window).mean()] *)

Section Rolling.

(** The float the library stores as the mean of the [w] values that end at
    position [i] of [s], when all of them are present.  It is taken as
    given: the library keeps a running, compensated sum in floating point
    as the window moves along the series, so that the stored value is a
    rounded one and depends on more than the values of the window. *)
Variable window_mean : nat -> Series -> nat -> Q.

(** The entry at position [i] for a window of [w] values: missing while the
    window is not full, when it holds a missing value, or when [w] is 0. *)
Definition rolling_mean_at (w : nat) (s : Series) (i : nat) : num :=
  if (Nat.eqb w 0 || Nat.ltb (S i) w)%bool then NaN
  else
    let win := firstn w (skipn (S i - w) s) in
    if forallb (fun v => negb (isna v)) win
    then Fin (window_mean w s i)
    else NaN.

(** [None] stands for the [ValueError] raised on a negative window. *)
Definition rolling_mean (window : Z) (s : Series) : option Series :=
  if (window <? 0)%Z then None
  else Some (map (rolling_mean_at (Z.to_nat window) s) (seq 0 (length s))).

End Rolling.

End Pandas.

(** ** [src/backtester/engine.py] *)

Module Engine.
Import Py Pandas.

Inductive Action : Type := BUY | SELL.

(** An entry of the trade ledger: [(index, action, close_price)]. *)
Definition Trade : Type := (Z * Action * num)%type.

(** The attributes of a [Backtester] object. *)
Record Backtester : Type := mkBacktester {
  data : DataFrame;
  initial_balance : num;
  balance : num;
  position : Z;
  trades : list Trade
}.

Definition with_data (d : DataFrame) (self : Backtester) : Backtester :=
  mkBacktester d (initial_balance self) (balance self) (position self) (trades self).
Definition with_balance (b : num) (self : Backtester) : Backtester :=
  mkBacktester (data self) (initial_balance self) b (position self) (trades self).
Definition with_position (p : Z) (self : Backtester) : Backtester :=
  mkBacktester (data self) (initial_balance self) (balance self) p (trades self).
Definition with_trades (ts : list Trade) (self : Backtester) : Backtester :=
  mkBacktester (data self) (initial_balance self) (balance self) (position self) ts.

(** *** Exceptions and methods *)

Inductive exn : Type :=
| KeyError (column : string)
| LabelKeyError (label : Z)
| ValueError
| IndexError
| ZeroDivisionError.

Inductive outcome (A : Type) : Type :=
| Ok (a : A)
| Raise (e : exn).
Arguments Ok {A} a.
Arguments Raise {A} e.

(** A method body: it returns or raises, and leaves the object updated. *)
Definition M (A : Type) : Type := Backtester -> outcome A * Backtester.

Definition ret {A} (a : A) : M A := fun self => (Ok a, self).
Definition raise {A} (e : exn) : M A := fun self => (Raise e, self).
Definition bind {A B} (m : M A) (k : A -> M B) : M B :=
  fun self =>
    match m self with
    | (Ok a, self') => k a self'
    | (Raise e, self') => (Raise e, self')
    end.
Definition lift {A} (o : outcome A) : M A := fun self => (o, self).
Definition attr {A} (f : Backtester -> A) : M A := fun self => (Ok (f self), self).
Definition update (f : Backtester -> Backtester) : M unit := fun self => (Ok tt, f self).

Notation "x <- m ;; k" := (bind m (fun x => k))
  (at level 61, m at next level, right associativity).
Notation "m ;; k" := (bind m (fun _ => k))
  (at level 61, right associativity).

Fixpoint for_each {A} (body : A -> M unit) (l : list A) : M unit :=
  match l with
  | [] => ret tt
  | x :: l' => body x ;; for_each body l'
  end.

(** [self.data[c]]. *)
Definition column (c : string) : M Series :=
  df <- attr data ;;
  match get_col c df with
  | Some s => ret s
  | None => raise (KeyError c)
  end.

(** [x / y], raising on a zero divisor, as Python does when the dividend is
    one of its own numbers; the balance is one as long as no price has been
    added to it or subtracted from it.  (With a NumPy scalar as dividend a
    zero divisor gives an infinity or a NaN instead, which is not
    represented.) *)
Definition divide (x y : num) : outcome num :=
  match y with
  | NaN => Ok NaN
  | Fin b =>
      if Qeq_bool b 0 then Raise ZeroDivisionError
      else match x with
           | NaN => Ok NaN
           | Fin a => Ok (Fin (a / b))
           end
  end.

(** *** [Backtester.__init__] *)

Definition init (d : DataFrame) (ib : num) : M unit :=
  fun _ => (Ok tt, mkBacktester d ib ib 0 []).

(** *** [Backtester.generate_signals] *)

Definition ma_columns (df : DataFrame) : list string :=
  filter (String.prefix "MA_") (column_names df).

(** The sort key [int(x.split('_')[1])]. *)
Definition sort_key (x : string) : outcome Z :=
  match nth_error (split "_" x) 1 with
  | None => Raise IndexError
  | Some w =>
      match int_of_string w with
      | None => Raise ValueError
      | Some z => Ok z
      end
  end.

(** The keys of all elements are computed first, in order. *)
Fixpoint keyed (l : list string) : outcome (list (Z * string)) :=
  match l with
  | [] => Ok []
  | x :: l' =>
      match sort_key x with
      | Raise e => Raise e
      | Ok k =>
          match keyed l' with
          | Raise e => Raise e
          | Ok r => Ok ((k, x) :: r)
          end
      end
  end.

Fixpoint insert_by_key (x : Z * string) (l : list (Z * string)) : list (Z * string) :=
  match l with
  | [] => [x]
  | y :: l' => if (fst x <=? fst y)%Z then x :: l else y :: insert_by_key x l'
  end.

(** Stable sort by key, as [list.sort(key=...)]. *)
Definition sort_by_key (l : list (Z * string)) : list (Z * string) :=
  fold_right insert_by_key [] l.

(** The names bound to [short_ma] and [long_ma]. *)
Definition select_ma (df : DataFrame) : outcome (string * string) :=
  let cols := ma_columns df in
  if (2 <=? length cols)%nat then
    match keyed cols with
    | Raise e => Raise e
    | Ok ks =>
        match map snd (sort_by_key ks) with
        | s :: l :: _ => Ok (s, l)
        | _ => Raise IndexError
        end
    end
  else Ok ("MA_20"%string, "MA_50"%string).

Definition generate_signals : M unit :=
  update (fun self => with_data (set_scalar "Signal" (of_Z 0) (data self)) self) ;;
  df <- attr data ;;
  ma <- lift (select_ma df) ;;
  let short_ma := fst ma in
  let long_ma := snd ma in
  s <- column short_ma ;;
  l <- column long_ma ;;
  update (fun self =>
    with_data (loc_mask_set (compare gt s l) "Signal" (of_Z 1) (data self)) self) ;;
  s' <- column short_ma ;;
  l' <- column long_ma ;;
  update (fun self =>
    with_data (loc_mask_set (compare lt s' l') "Signal" (of_Z (-1)) (data self)) self).

(** *** [Backtester.execute_trades] *)

Definition append_trade (t : Trade) (self : Backtester) : Backtester :=
  with_trades (trades self ++ [t]) self.

(** [signal = int(signal) if not pd.isna(signal) else 0]. *)
Definition to_int (signal : num) : Z :=
  match signal with
  | Fin q => int_of_Q q
  | NaN => 0
  end.

(** The [if]/[elif] chain of the loop body, for an integer [signal]. *)
Definition transition (index : Z) (signal : Z) (close_price : num) (self : Backtester)
  : Backtester :=
  if ((signal =? 1) && (position self <=? 0))%Z%bool then
    let self := append_trade (index, BUY, close_price) self in
    let self := with_position 1 self in
    with_balance (sub (balance self) close_price) self
  else if ((signal =? -1) && (position self >=? 0))%Z%bool then
    let self :=
      if (position self =? 1)%Z then
        let self := append_trade (index, SELL, close_price) self in
        with_balance (add (balance self) close_price) self
      else self in
    let self := with_position (-1) self in
    let self := with_balance (add (balance self) close_price) self in
    let self := with_balance (sub (balance self) close_price) self in
    with_position (-1) self
  else if ((signal =? 0) && negb (position self =? 0))%Z%bool then
    let self :=
      if (position self =? 1)%Z then
        let self := append_trade (index, SELL, close_price) self in
        with_balance (add (balance self) close_price) self
      else if (position self =? -1)%Z then
        let self := append_trade (index, BUY, close_price) self in
        with_balance (sub (balance self) close_price) self
      else self in
    with_position 0 self
  else self.

(** One iteration of the loop: a row whose ['Signal'] or ['Close'] cannot be
    read, or whose signal is missing, is skipped.  Column names are taken to
    be unique, so [row['Signal']] and [row['Close']] are scalars and the
    [iloc] branches are not entered. *)
Definition execute_row (self : Backtester) (ir : Z * Row) : Backtester :=
  let '(index, row) := ir in
  match row_get "Signal" row with
  | None => self
  | Some signal =>
      match row_get "Close" row with
      | None => self
      | Some close_price =>
          if isna signal then self
          else transition index (to_int signal) close_price self
      end
  end.

Definition execute_trades : M unit :=
  update (fun self => fold_left execute_row (iterrows (data self)) self).

(** *** [Backtester.calculate_performance] *)

Definition replay_trade (t : Trade) : M unit :=
  let '(date, action, price) := t in
  update (fun self =>
    match action with
    | BUY => with_balance (sub (balance self) price) self
    | SELL => with_balance (add (balance self) price) self
    end) ;;
  b <- attr balance ;;
  df <- attr data ;;
  match loc_from_set date "Portfolio Value" b df with
  | Some df' => update (with_data df')
  | None => raise (LabelKeyError date)
  end.

Definition calculate_performance : M (num * Series) :=
  update (fun self =>
    with_data (set_scalar "Portfolio Value" (initial_balance self) (data self)) self) ;;
  ts <- attr trades ;;
  for_each replay_trade ts ;;
  b <- attr balance ;;
  ib <- attr initial_balance ;;
  total_return <- lift (divide (sub b ib) ib) ;;
  pv <- column "Portfolio Value" ;;
  ret (total_return, pv).

(** *** Method table: the methods [self.__init__], [self.generate_signals]
    and [self.execute_trades] resolve to, by the class of [self]. *)

Record Class : Type := mkClass {
  cls_init : DataFrame -> num -> M unit;
  cls_generate_signals : M unit;
  cls_execute_trades : M unit
}.

Definition BacktesterClass : Class := mkClass init generate_signals execute_trades.

(** The object [C(data, initial_balance)] evaluates to, or the exception its
    constructor raises.  The attributes of the object before [__init__] runs
    are immaterial: [Backtester.__init__] assigns all five. *)
Definition blank : Backtester := mkBacktester (mkDataFrame [] []) NaN NaN 0 [].

Definition construct (C : Class) (d : DataFrame) (ib : num) : outcome unit * Backtester :=
  cls_init C d ib blank.

(** *** [Backtester.run_backtest] *)

Definition run_backtest (C : Class) : M (num * Series) :=
  cls_generate_signals C ;;
  cls_execute_trades C ;;
  calculate_performance.

(** One pass of the loop of [monte_carlo_backtest] and the body of
    [forward_test]: re-initialise on the given data, then the full pipeline. *)
Definition trial (C : Class) (d : DataFrame) : M num :=
  ib <- attr initial_balance ;;
  cls_init C d ib ;;
  cls_generate_signals C ;;
  cls_execute_trades C ;;
  r <- calculate_performance ;;
  ret (fst r).

(** *** [Backtester.monte_carlo_backtest]

    [rng k] is the draw of [sample(frac=1)] in pass [k]; [todo] passes remain. *)
Fixpoint monte_carlo_loop (C : Class) (rng : nat -> list nat) (k todo : nat)
  (returns : list num) : M (list num) :=
  match todo with
  | O => ret returns
  | S todo' =>
      df <- attr data ;;
      let shuffled_data := reset_index (sample (rng k) df) in
      total_return <- trial C shuffled_data ;;
      monte_carlo_loop C rng (S k) todo' (returns ++ [total_return])
  end.

Definition monte_carlo_backtest (C : Class) (rng : nat -> list nat) (n_simulations : nat)
  : M (list num) :=
  monte_carlo_loop C rng 0 n_simulations [].

(** *** [Backtester.forward_test] *)


End Engine.

(** ** [src/factor_lib/momentum.py] *)

Module Momentum.
Import Py Pandas Engine.

(** [df[c] <= x], [df[c] > x], ... against a scalar. *)
Definition compare_scalar (op : num -> num -> bool) (s : Series) (x : num) : list bool :=
  map (fun y => op y x) s.

(** [generate_momentum_signal(df, momentum_col, threshold)]; the column
    holds the momentum ranks. *)
Definition generate_momentum_signal (df : DataFrame) (momentum_col : string)
  (threshold : option num) : outcome Series :=
  let signals := repeat (of_Z 0) (nrows df) in
  match threshold with
  | Some th =>
      match get_col momentum_col df with
      | None => Raise (KeyError momentum_col)
      | Some ranks =>
          let signals := where_set (compare_scalar le ranks th) (of_Z 1) signals in
          Ok (where_set (compare_scalar gt ranks th) (of_Z (-1)) signals)
      end
  | None =>
      match get_col momentum_col df with
      | None => Raise (KeyError momentum_col)
      | Some ranks =>
          let median_rank := median ranks in
          let signals := where_set (compare_scalar lt ranks median_rank) (of_Z 1) signals in
          Ok (where_set (compare_scalar gt ranks median_rank) (of_Z (-1)) signals)
      end
  end.

(** *** [MomentumBacktester.generate_signals] (override) *)

Definition generate_signals : M unit :=
  df <- attr data ;;
  if negb (existsb (String.eqb "Signal") (column_names df)) then raise ValueError
  else
    s <- column "Signal" ;;
    match astype_int (fillna (of_Z 0) s) with
    | Some s' => update (fun self => with_data (set_col "Signal" s' (data self)) self)
    | None => raise ValueError
    end.

(** *** [MomentumBacktester.execute_trades] (override): the base method,
    followed by printing. *)

Definition execute_trades : M unit := Engine.execute_trades.

(** *** [MomentumBacktester.__init__] *)

Definition init (d : DataFrame) (ib : num) : M unit :=
  Engine.init d ib ;;
  generate_signals ;;
  execute_trades.

Definition MomentumBacktesterClass : Class := mkClass init generate_signals execute_trades.

(** *** [rank_stocks_by_momentum] *)

Definition rank_stocks_by_momentum (df : DataFrame) (momentum_col : string)
  : outcome Series :=
  match get_col momentum_col df with
  | None => Raise (KeyError momentum_col)
  | Some s => Ok (rank_descending s)
  end.

(** *** [calculate_momentum] and [apply_momentum_strategy]

    [Series.pct_change(periods)] is taken as given: what it returns on zero
    prices cannot be written in [num], and the definitions below do not
    depend on it. *)

Section Strategy.

Variable pct_change : Z -> Series -> Series.

Definition calculate_momentum (df : DataFrame) (window : Z) : outcome Series :=
  match get_col "Close" df with
  | None => Raise (KeyError "Close")
  | Some close => Ok (pct_change window close)
  end.

(** The frame is copied first, so the caller's frame is not changed; the
    three columns are assigned in turn on the copy. *)
Definition apply_momentum_strategy (df : DataFrame) (window : Z)
  (threshold : option num) : outcome DataFrame :=
  match calculate_momentum df window with
  | Raise e => Raise e
  | Ok momentum =>
      let df := set_col "Momentum" momentum df in
      match rank_stocks_by_momentum df "Momentum" with
      | Raise e => Raise e
      | Ok ranks =>
          let df := set_col "Momentum_Rank" ranks df in
          match generate_momentum_signal df "Momentum_Rank" threshold with
          | Raise e => Raise e
          | Ok signals => Ok (set_col "Signal" signals df)
          end
      end
  end.

End Strategy.

End Momentum.

(** ** [src/data_processing/cleaners.py] *)

Module Cleaners.
Import Py Pandas Engine.

(** [clean_data]: duplicates dropped, then every column filled forward and
    backward.  A label is the integer value of its timestamp, which
    [pd.to_datetime] keeps, so the index is returned as it is. *)
Definition clean_data (df : DataFrame) : DataFrame :=
  let df := drop_duplicates df in
  map_columns bfill (map_columns ffill df).

(** The column name [f'MA_{n}']. *)
Definition ma_name (n : Z) : string := ("MA_" ++ str_of_int n)%string.

(** [add_technical_indicators] and [preprocess_data].

    [pct_change] and the rolling standard deviation are taken as given:
    the first can produce infinities and the second square roots, neither
    of which [num] holds; the backtester reads neither column.  The value
    of a moving average is taken as given as well ([window_mean]): which
    entries of the column are missing is part of the model, the rounded
    value the library stores in the others is not. *)

Section Indicators.

Variable window_mean : nat -> Series -> nat -> Q.
Variable pct_change : Z -> Series -> Series.
Variable rolling_std : Z -> Series -> Series.

Definition add_technical_indicators (df : DataFrame) (long short : Z)
  : outcome DataFrame :=
  match get_col "Close" df with
  | None => Raise (KeyError "Close")
  | Some close =>
      match rolling_mean window_mean long close with
      | None => Raise ValueError
      | Some ma_long =>
          let df := set_col (ma_name long) ma_long df in
          match get_col "Close" df with
          | None => Raise (KeyError "Close")
          | Some close =>
              match rolling_mean window_mean short close with
              | None => Raise ValueError
              | Some ma_short =>
                  let df := set_col (ma_name short) ma_short df in
                  match get_col "Close" df with
                  | None => Raise (KeyError "Close")
                  | Some close =>
                      let df := set_col "Daily_Return" (pct_change 1 close) df in
                      match get_col "Daily_Return" df with
                      | None => Raise (KeyError "Daily_Return")
                      | Some daily_return =>
                          Ok (set_col "Volatility" (rolling_std short daily_return) df)
                      end
                  end
              end
          end
      end
  end.

(** [preprocess_data], with the frame [download_raw_data] returned as the
    argument [raw_data]; writing the result to disk is not represented. *)
Definition preprocess_data (raw_data : DataFrame) (long short : Z) : outcome DataFrame :=
  if empty raw_data then Ok (mkDataFrame [] [])
  else add_technical_indicators (clean_data raw_data) long short.

End Indicators.

End Cleaners.

Import Py Pandas Engine.

(** ** Specification-level notions *)

(** The three positions: SHORT, FLAT, LONG. *)
Definition valid_position (p : Z) : Prop := (p = -1 \/ p = 0 \/ p = 1)%Z.

(** The object a direct call [Backtester(data, initial_balance)] builds. *)
Definition new (d : DataFrame) (ib : num) : Backtester := mkBacktester d ib ib 0 [].

(** A one-period row holding a signal and a close price. *)
Definition period (signal close_price : num) : Row :=
  [("Signal"%string, signal); ("Close"%string, close_price)].

(** The period label of a ledger entry. *)
Definition label (t : Trade) : Z := fst (fst t).

(** The balance after the entries of a ledger are applied to [b] in order:
    a BUY takes its price out, a SELL puts it in. *)
Definition replay_balance (ts : list Trade) (b : num) : num :=
  fold_left (fun b t =>
               match t with
               | (_, BUY, price) => sub b price
               | (_, SELL, price) => add b price
               end) ts b.

(** Every close price that can be read from the rows is present. *)
Definition closes_present (rows : list (Z * Row)) : Prop :=
  Forall (fun ir => forall c, row_get "Close" (snd ir) = Some c -> isna c = false) rows.

(** Attributes a method leaves alone when it only touches data and balance. *)
Definition same_ledger (self self' : Backtester) : Prop :=
  initial_balance self' = initial_balance self
  /\ position self' = position self
  /\ trades self' = trades self.

(** The crossover rule in the words of the specification: +1 where short is
    above long, -1 where it is below, 0 otherwise, an undefined input
    included. *)
Definition crossover_spec (short long : num) : num :=
  match short, long with
  | Fin a, Fin b =>
      match a ?= b with
      | Gt => of_Z 1
      | Lt => of_Z (-1)
      | Eq => of_Z 0
      end
  | _, _ => of_Z 0
  end.


(** A row the simulator skips: its signal cannot be read or is missing. *)
Definition missing_signal (ir : Z * Row) : Prop :=
  match row_get "Signal" (snd ir) with
  | Some signal => isna signal = true
  | None => True
  end.

(** The ranking rule with an explicit threshold, in the words of the
    specification: +1 when rank <= threshold, -1 when rank > threshold; an
    undefined rank or threshold gives 0. *)
Definition threshold_spec (th rank : num) : num :=
  match rank, th with
  | Fin r, Fin t =>
      match r ?= t with
      | Gt => of_Z (-1)
      | _ => of_Z 1
      end
  | _, _ => of_Z 0
  end.

(** The ranking rule against the median rank: +1 below the median, -1 above
    it, 0 at the median or when rank or median is undefined. *)
Definition median_spec (median_rank rank : num) : num :=
  match rank, median_rank with
  | Fin r, Fin m =>
      match r ?= m with
      | Lt => of_Z 1
      | Gt => of_Z (-1)
      | Eq => of_Z 0
      end
  | _, _ => of_Z 0
  end.



(** ** Notions used for the further properties of the engine *)

(** [l1] is [l2] with some elements left out, the order kept. *)
Inductive subsequence {A : Type} : list A -> list A -> Prop :=
| subsequence_nil (l : list A) : subsequence [] l
| subsequence_skip (x : A) (l1 l2 : list A) :
    subsequence l1 l2 -> subsequence l1 (x :: l2)
| subsequence_take (x : A) (l1 l2 : list A) :
    subsequence l1 l2 -> subsequence (x :: l1) (x :: l2).

(** A row that asks for no entry into a position: it is skipped, or its
    integer signal is neither +1 nor -1. *)
Definition no_entry_signal (ir : Z * Row) : Prop :=
  match row_get "Signal" (snd ir), row_get "Close" (snd ir) with
  | Some signal, Some _ =>
      isna signal = true \/ (to_int signal <> 1%Z /\ to_int signal <> (-1)%Z)
  | _, _ => True
  end.

(** Net cash of a ledger: the SELL prices minus the BUY prices. *)
Fixpoint net_cash (ts : list Trade) : Q :=
  match ts with
  | [] => 0
  | (_, BUY, Fin p) :: ts' => net_cash ts' - p
  | (_, SELL, Fin p) :: ts' => net_cash ts' + p
  | (_, _, NaN) :: ts' => net_cash ts'
  end.

(** The price of every entry is present. *)
Definition prices_present (ts : list Trade) : Prop :=
  Forall (fun t => isna (snd t) = false) ts.

(** The portfolio-value column after the entries [ts] have been replayed
    in order on the balance [b]: each entry overwrites the column from the
    row of its label to the end with the balance it leaves. *)
Fixpoint curve (idx : list Z) (ts : list Trade) (b : num) (pv : Series) : Series :=
  match ts with
  | [] => pv
  | t :: ts' =>
      match position_of (label t) idx with
      | Some p =>
          curve idx ts' (replay_balance [t] b) (fill_from p (replay_balance [t] b) pv)
      | None => pv
      end
  end.

(** Sum of a list of rationals. *)
Definition Qsum (l : list Q) : Q := fold_right Qplus 0 l.

(** The sum of the present values, and the exact mean of the [w] values
    that end at position [i]: the value of the library's moving average on
    a window whose sum and quotient are computed without rounding. *)
Definition total (s : Series) : Q :=
  fold_right (fun v acc => match v with Fin q => q + acc | NaN => acc end) 0 s.

Definition exact_mean (w : nat) (s : Series) (i : nat) : Q :=
  total (firstn w (skipn (S i - w) s)) / inject_Z (Z.of_nat w).

(** Inputs on which the sums of the simulator are computed without
    rounding.  An integer of magnitude at most 2^53 is a float, and the sum
    or difference of two such integers is computed exactly when it stays
    within that magnitude (and does not wrap as a 64-bit integer either).
    [exact_sums b rows]: the balance [b] and the close price of every row
    are integers, and [|b|] plus twice the magnitudes of all the prices is
    at most 2^53, which bounds every balance that a pass over the rows, and
    a replay of its ledger after it, go through. *)
Definition exact_sums (b : Q) (rows : list (Z * Row)) : Prop :=
  exists (zb : Z) (zs : list Z),
    b == inject_Z zb
    /\ Forall2
         (fun ir z => forall c, row_get "Close" (snd ir) = Some c -> feq c (of_Z z))
         rows zs
    /\ (Z.abs zb + 2 * fold_right Z.add 0 (map Z.abs zs) <= 2 ^ 53)%Z.

(** The range of a signed 64-bit integer. *)
Definition int64_range (z : Z) : Prop := (- 2 ^ 63 <= z < 2 ^ 63)%Z.

(** A decimal digit character. *)
Definition is_digit (c : ascii) : bool :=
  match digit c with Some _ => true | None => false end.

(** Every character of [s] satisfies [p]. *)
Fixpoint all_chars (p : ascii -> bool) (s : string) : bool :=
  match s with
  | EmptyString => true
  | String c s' => (p c && all_chars p s')%bool
  end.

(** * The trade simulator *)

Section Transition.

Variables (index : Z) (close_price : num).

Lemma transition_position (signal : Z) (self : Backtester) :
  position (transition index signal close_price self) = position self
  \/ valid_position (position (transition index signal close_price self)).
Proof.
  unfold transition, valid_position.
  destruct ((signal =? 1) && (position self <=? 0))%Z%bool; [right; cbn; lia|].
  destruct ((signal =? -1) && (position self >=? 0))%Z%bool; [right; cbn; lia|].
  destruct ((signal =? 0) && negb (position self =? 0))%Z%bool; [right; cbn; lia|].
  now left.
Qed.

Lemma transition_valid (signal : Z) (self : Backtester) :
  valid_position (position self) ->
  valid_position (position (transition index signal close_price self)).
Proof.
  intros Hv. destruct (transition_position signal self) as [-> | H]; assumption.
Qed.

(** A signal outside {-1, 0, 1} matches no branch. *)
Lemma transition_out_of_domain (signal : Z) (self : Backtester) :
  signal <> (-1)%Z -> signal <> 0%Z -> signal <> 1%Z ->
  transition index signal close_price self = self.
Proof.
  intros Hm H0 H1. unfold transition.
  destruct (Z.eqb_spec signal 1); [contradiction|].
  destruct (Z.eqb_spec signal (-1)); [contradiction|].
  destruct (Z.eqb_spec signal 0); [contradiction|].
  reflexivity.
Qed.

(** Signal 0 on a FLAT position does nothing either. *)
Lemma transition_zero_flat (self : Backtester) :
  position self = 0%Z -> transition index 0 close_price self = self.
Proof.
  intros Hp. unfold transition. rewrite Hp. reflexivity.
Qed.

End Transition.

Lemma execute_row_valid (self : Backtester) (ir : Z * Row) :
  valid_position (position self) -> valid_position (position (execute_row self ir)).
Proof.
  intros Hv. destruct ir as [index row]. unfold execute_row.
  destruct (row_get "Signal" row) as [signal|]; [|assumption].
  destruct (row_get "Close" row) as [close_price|]; [|assumption].
  destruct (isna signal); [assumption|].
  now apply transition_valid.
Qed.

Lemma execute_rows_valid (rows : list (Z * Row)) :
  forall self, valid_position (position self) ->
  valid_position (position (fold_left execute_row rows self)).
Proof.
  induction rows as [|ir rows IH]; intros self Hv; cbn; [assumption|].
  apply IH. now apply execute_row_valid.
Qed.

Lemma execute_row_period (index : Z) (signal close_price : num) (self : Backtester) :
  execute_row self (index, period signal close_price)
  = if isna signal then self else transition index (to_int signal) close_price self.
Proof. reflexivity. Qed.

(** C6.  The position is 0 when the object is initialised, and it is one of
    -1, 0, 1 after every step of trade execution: after any sequence of rows
    whatever (each prefix of the frame's rows is one), with any signal values,
    and so also when [execute_trades] returns. *)
Theorem position_stays_in_domain (d : DataFrame) (ib : num) (old : Backtester) :
  let self := snd (init d ib old) in
  position self = 0%Z
  /\ (forall rows : list (Z * Row),
        valid_position (position (fold_left execute_row rows self)))
  /\ (forall n : nat,
        valid_position
          (position (fold_left execute_row (firstn n (iterrows (data self))) self)))
  /\ valid_position (position (snd (execute_trades self))).
Proof.
  cbn zeta.
  assert (H0 : valid_position (position (snd (init d ib old)))) by (right; left; reflexivity).
  split; [reflexivity|].
  split; [intros rows; now apply execute_rows_valid|].
  split; [intros n; now apply execute_rows_valid|].
  unfold execute_trades, update. cbn [snd]. now apply execute_rows_valid.
Qed.

(** ** Out-of-domain signals *)

(** C5, as stated, fails on a LONG position: a period with signal 2 leaves
    the object as it is, whereas the same period with signal 0 closes the
    position with a SELL. *)
Lemma out_of_domain_differs_from_zero :
  let self := mkBacktester (mkDataFrame [] []) (Fin 10000) (Fin 9900) 1
                           [(0%Z, BUY, Fin 100)] in
  let after_two := execute_row self (1%Z, period (Fin 2) (Fin 110)) in
  let after_zero := execute_row self (1%Z, period (Fin 0) (Fin 110)) in
  to_int (Fin 2) = 2%Z
  /\ after_two = self
  /\ position after_zero = 0%Z
  /\ trades after_zero = [(0%Z, BUY, Fin 100); (1%Z, SELL, Fin 110)]
  /\ balance after_zero = Fin (9900 + 110)
  /\ after_two <> after_zero.
Proof.
  cbn zeta. repeat split. intros H.
  apply (f_equal position) in H. discriminate H.
Qed.

(** What signal 0 does: it leaves the position at 0, closing a LONG
    position with a SELL and a SHORT position with a BUY. *)
Lemma transition_zero_closes (index : Z) (close_price : num) (self : Backtester) :
  position (transition index 0 close_price self) = 0%Z
  /\ (position self = 1%Z ->
      trades (transition index 0 close_price self)
      = trades self ++ [(index, SELL, close_price)])
  /\ (position self = (-1)%Z ->
      trades (transition index 0 close_price self)
      = trades self ++ [(index, BUY, close_price)]).
Proof.
  unfold transition. cbn [Z.eqb andb].
  destruct (Z.eqb_spec (position self) 0) as [E|E]; cbn [negb].
  - split; [exact E|]. split; intros H; rewrite H in E; discriminate E.
  - split; [reflexivity|]. split; intros H; rewrite H; reflexivity.
Qed.

(** C5 (amended).  A period whose signal, after integer coercion, is outside
    {-1, 0, 1} is a no-op: position, balance and ledger (the whole object)
    are left as they were.  This is what signal 0 produces exactly when the
    position is FLAT: signal 0 always leaves the position at 0, and it
    records a SELL at the close price on a LONG position and a BUY on a
    SHORT one. *)
Theorem out_of_domain_signal_is_noop
  (self : Backtester) (index : Z) (row : Row) (signal close_price : num) :
  row_get "Signal" row = Some signal ->
  row_get "Close" row = Some close_price ->
  ~ In (to_int signal) [-1; 0; 1]%Z ->
  execute_row self (index, row) = self
  /\ (execute_row self (index, row)
      = execute_row self (index, period (of_Z 0) close_price)
      <-> position self = 0%Z)
  /\ position (execute_row self (index, period (of_Z 0) close_price)) = 0%Z
  /\ (position self = 1%Z ->
      trades (execute_row self (index, period (of_Z 0) close_price))
      = trades self ++ [(index, SELL, close_price)])
  /\ (position self = (-1)%Z ->
      trades (execute_row self (index, period (of_Z 0) close_price))
      = trades self ++ [(index, BUY, close_price)]).
Proof.
  intros Hs Hc Hout.
  assert (Hnoop : execute_row self (index, row) = self).
  { unfold execute_row. rewrite Hs, Hc.
    destruct (isna signal); [reflexivity|].
    apply transition_out_of_domain; intros E; apply Hout; rewrite E; cbn; tauto. }
  assert (Hzero : execute_row self (index, period (of_Z 0) close_price)
                  = transition index 0 close_price self).
  { rewrite execute_row_period. reflexivity. }
  destruct (transition_zero_closes index close_price self) as (Z0 & ZL & ZS).
  split; [exact Hnoop|]. rewrite Hnoop, Hzero.
  split; [|split; [exact Z0|split; [exact ZL|exact ZS]]].
  split.
  - intros E. rewrite E at 1. exact Z0.
  - intros Hp. symmetry. now apply transition_zero_flat.
Qed.

Lemma out_of_domain_signal_is_noop_witness :
  let self := mkBacktester (mkDataFrame [] []) (Fin 10000) (Fin 9900) 1
                           [(0%Z, BUY, Fin 100)] in
  execute_row self (1%Z, period (Fin 2) (Fin 110)) = self.
Proof.
  cbn zeta.
  apply (out_of_domain_signal_is_noop
           (mkBacktester (mkDataFrame [] []) (Fin 10000) (Fin 9900) 1 [(0%Z, BUY, Fin 100)])
           1%Z (period (Fin 2) (Fin 110)) (Fin 2) (Fin 110)).
  - reflexivity.
  - reflexivity.
  - cbn. intros [H|[H|[H|[]]]]; discriminate H.
Defined.

(** ** The SELL-signal branch *)

Lemma transition_sell_from_flat (index : Z) (p b : Q) (self : Backtester) :
  position self = 0%Z -> balance self = Fin b ->
  let self' := transition index (-1) (Fin p) self in
  position self' = (-1)%Z
  /\ trades self' = trades self
  /\ balance self' = Fin (b + p - p)
  /\ feq (balance self') (Fin b).
Proof.
  intros Hp Hb. cbn zeta. unfold transition. rewrite Hp. cbn. rewrite Hb. cbn.
  repeat split. ring.
Qed.

Lemma transition_sell_from_long (index : Z) (p b : Q) (self : Backtester) :
  position self = 1%Z -> balance self = Fin b ->
  let self' := transition index (-1) (Fin p) self in
  position self' = (-1)%Z
  /\ trades self' = trades self ++ [(index, SELL, Fin p)]
  /\ balance self' = Fin (b + p + p - p)
  /\ feq (balance self') (Fin (b + p)).
Proof.
  intros Hp Hb. cbn zeta. unfold transition. rewrite Hp. cbn. rewrite Hb. cbn.
  repeat split. ring.
Qed.

(** C2, on the code.  A period with signal -1 and close price 100 processed
    on a FLAT position with balance 10000: the position becomes SHORT and no
    trade is recorded, but the balance is credited and debited in turn, so
    it is still 10000 and not 10100.  From a LONG position one SELL at 100
    is recorded and the balance gains exactly one close price. *)
Theorem sell_signal_from_flat_leaves_balance :
  let d := mkDataFrame [7%Z] [("Signal"%string, [Fin (-1)]); ("Close"%string, [Fin 100])] in
  let flat := snd (execute_trades (mkBacktester d (Fin 10000) (Fin 10000) 0 [])) in
  let long := snd (execute_trades (mkBacktester d (Fin 10000) (Fin 10000) 1 [])) in
  (position flat = (-1)%Z /\ trades flat = []
   /\ feq (balance flat) (Fin 10000) /\ ~ feq (balance flat) (Fin (10000 + 100)))
  /\ (position long = (-1)%Z /\ trades long = [(7%Z, SELL, Fin 100)]
      /\ feq (balance long) (Fin (10000 + 100))).
Proof.
  cbn zeta. repeat split; try reflexivity.
  intros H. vm_compute in H. discriminate H.
Qed.

(** * Data frames *)

Lemma lookup_assign_same (c : string) (v : Series) (cols : list (string * Series)) :
  lookup c (assign c v cols) = Some v.
Proof.
  induction cols as [|[c' v'] rest IH]; cbn.
  - now rewrite String.eqb_refl.
  - destruct (String.eqb c' c) eqn:E; cbn.
    + now rewrite String.eqb_refl.
    + now rewrite E.
Qed.

Lemma lookup_assign_other (c c0 : string) (v : Series) (cols : list (string * Series)) :
  c <> c0 -> lookup c0 (assign c v cols) = lookup c0 cols.
Proof.
  intros Hne. induction cols as [|[c' v'] rest IH]; cbn.
  - destruct (String.eqb_spec c c0); [contradiction|reflexivity].
  - destruct (String.eqb_spec c' c) as [->|Hc]; cbn.
    + destruct (String.eqb_spec c c0); [contradiction|reflexivity].
    + now rewrite IH.
Qed.

Lemma assign_assign (c : string) (v w : Series) (cols : list (string * Series)) :
  assign c w (assign c v cols) = assign c w cols.
Proof.
  induction cols as [|[c' v'] rest IH]; cbn.
  - now rewrite String.eqb_refl.
  - destruct (String.eqb c' c) eqn:E; cbn.
    + now rewrite String.eqb_refl.
    + now rewrite E, IH.
Qed.

Lemma lookup_In (c : string) (cols : list (string * Series)) :
  In c (map fst cols) -> exists v, lookup c cols = Some v.
Proof.
  induction cols as [|[c' v'] rest IH]; cbn; [tauto|].
  intros [->|Hin].
  - rewrite String.eqb_refl. now exists v'.
  - destruct (String.eqb c' c); [now exists v'|auto].
Qed.

Lemma lookup_Some_In (c : string) (v : Series) (cols : list (string * Series)) :
  lookup c cols = Some v -> In (c, v) cols.
Proof.
  induction cols as [|[c' v'] rest IH]; cbn; [discriminate|].
  destruct (String.eqb_spec c' c) as [->|Hc].
  - intros [= ->]. now left.
  - intros H. right. auto.
Qed.

(** Assigning a column whose name does not pass a filter leaves the
    filtered column names as they were. *)
Lemma filter_names_assign (keep : string -> bool) (c : string) (v : Series)
  (cols : list (string * Series)) :
  keep c = false ->
  filter keep (map fst (assign c v cols)) = filter keep (map fst cols).
Proof.
  intros Hk. induction cols as [|[c' v'] rest IH]; cbn.
  - now rewrite Hk.
  - destruct (String.eqb_spec c' c) as [->|Hc]; cbn.
    + reflexivity.
    + now rewrite IH.
Qed.

Lemma get_set_col_same (c : string) (v : Series) (df : DataFrame) :
  get_col c (set_col c v df) = Some v.
Proof. apply lookup_assign_same. Qed.

Lemma get_set_col_other (c c0 : string) (v : Series) (df : DataFrame) :
  c <> c0 -> get_col c0 (set_col c v df) = get_col c0 df.
Proof. apply lookup_assign_other. Qed.

Lemma well_formed_col (df : DataFrame) (c : string) (v : Series) :
  well_formed df -> get_col c df = Some v -> length v = nrows df.
Proof.
  intros Hwf Hc. apply lookup_Some_In in Hc.
  unfold well_formed in Hwf. rewrite Forall_forall in Hwf.
  exact (Hwf (c, v) Hc).
Qed.

Lemma set_col_set_col (c : string) (v w : Series) (df : DataFrame) :
  set_col c w (set_col c v df) = set_col c w df.
Proof. unfold set_col. cbn. now rewrite assign_assign. Qed.

Lemma ma_columns_set_col (c : string) (v : Series) (df : DataFrame) :
  String.prefix "MA_" c = false -> ma_columns (set_col c v df) = ma_columns df.
Proof. intros H. unfold ma_columns, column_names. cbn. now apply filter_names_assign. Qed.


Lemma select_ma_ext (df df' : DataFrame) :
  ma_columns df = ma_columns df' -> select_ma df = select_ma df'.
Proof. intros H. unfold select_ma. now rewrite H. Qed.

Lemma position_of_In (k : Z) (idx : list Z) :
  In k idx -> exists pos, position_of k idx = Some pos.
Proof.
  induction idx as [|k' rest IH]; cbn; [tauto|].
  intros [->|Hin].
  - rewrite Z.eqb_refl. now exists O.
  - destruct (Z.eqb k' k); [now exists O|].
    destruct (IH Hin) as [pos ->]. now exists (S pos).
Qed.

Lemma iterrows_labels (df : DataFrame) (ir : Z * Row) :
  In ir (iterrows df) -> In (fst ir) (index df).
Proof.
  unfold iterrows. rewrite in_map_iff. intros [[i k] [<- Hin]]. cbn.
  eapply in_combine_r; eassumption.
Qed.


(** * Trade execution: what a pass over the rows does to the object *)

Lemma feq_refl (x : num) : feq x x.
Proof. destruct x; cbn; [exact I|reflexivity]. Qed.

Lemma feq_trans (x y z : num) : feq x y -> feq y z -> feq x z.
Proof. destruct x, y, z; cbn; try tauto. intros H1 H2. now rewrite H1. Qed.

Lemma feq_add (x x' y : num) : feq x x' -> feq (add x y) (add x' y).
Proof. destruct x, x', y; cbn; try tauto. intros H. now rewrite H. Qed.

Lemma feq_sub (x x' y : num) : feq x x' -> feq (sub x y) (sub x' y).
Proof. destruct x, x', y; cbn; try tauto. intros H. now rewrite H. Qed.

Lemma add_sub_cancel (b c : num) : isna c = false -> feq (sub (add b c) c) b.
Proof. destruct b, c; cbn; try discriminate; try tauto. intros _. ring. Qed.

Lemma replay_balance_app (ts us : list Trade) (b : num) :
  replay_balance (ts ++ us) b = replay_balance us (replay_balance ts b).
Proof. apply fold_left_app. Qed.

Lemma replay_balance_feq (ts : list Trade) :
  forall b b', feq b b' -> feq (replay_balance ts b) (replay_balance ts b').
Proof.
  induction ts as [|[[k a] p] ts IH]; intros b b' H; cbn; [assumption|].
  apply IH. destruct a; [now apply feq_sub | now apply feq_add].
Qed.

(** The entries a transition appends and the position it leaves depend on
    the position it starts from, not on the rest of the object; the entries
    carry the label of the period; data and initial balance are untouched. *)
Lemma transition_effect (index signal : Z) (close_price : num) (s1 s2 : Backtester) :
  position s1 = position s2 ->
  position (transition index signal close_price s1)
  = position (transition index signal close_price s2)
  /\ data (transition index signal close_price s1) = data s1
  /\ initial_balance (transition index signal close_price s1) = initial_balance s1
  /\ exists T,
       trades (transition index signal close_price s1) = trades s1 ++ T
       /\ trades (transition index signal close_price s2) = trades s2 ++ T
       /\ Forall (fun t => label t = index) T
       /\ (isna close_price = false ->
           feq (balance (transition index signal close_price s1))
               (replay_balance T (balance s1))).
Proof.
  intros Hp. unfold transition. rewrite <- Hp.
  destruct ((signal =? 1) && (position s1 <=? 0))%Z%bool.
  { cbn. repeat split. eexists; repeat split; [constructor; [reflexivity|constructor]|].
    intros _. apply feq_refl. }
  destruct ((signal =? -1) && (position s1 >=? 0))%Z%bool.
  { destruct (position s1 =? 1)%Z; cbn; repeat split.
    - eexists; repeat split; [constructor; [reflexivity|constructor]|].
      intros Hc. now apply add_sub_cancel.
    - exists []. rewrite !app_nil_r. repeat split; [constructor|].
      intros Hc. now apply add_sub_cancel. }
  destruct ((signal =? 0) && negb (position s1 =? 0))%Z%bool.
  { destruct (position s1 =? 1)%Z; [|destruct (position s1 =? -1)%Z]; cbn; repeat split.
    - eexists; repeat split; [constructor; [reflexivity|constructor]|].
      intros _. apply feq_refl.
    - eexists; repeat split; [constructor; [reflexivity|constructor]|].
      intros _. apply feq_refl.
    - exists []. rewrite !app_nil_r. repeat split; [constructor|].
      intros _. apply feq_refl. }
  repeat split; [exact Hp|]. exists []. rewrite !app_nil_r. repeat split; [constructor|].
  intros _. apply feq_refl.
Qed.

Lemma execute_row_effect (ir : Z * Row) (s1 s2 : Backtester) :
  position s1 = position s2 ->
  position (execute_row s1 ir) = position (execute_row s2 ir)
  /\ data (execute_row s1 ir) = data s1
  /\ initial_balance (execute_row s1 ir) = initial_balance s1
  /\ exists T,
       trades (execute_row s1 ir) = trades s1 ++ T
       /\ trades (execute_row s2 ir) = trades s2 ++ T
       /\ Forall (fun t => label t = fst ir) T
       /\ (closes_present [ir] ->
           feq (balance (execute_row s1 ir)) (replay_balance T (balance s1))).
Proof.
  intros Hp. destruct ir as [index row]. unfold execute_row.
  assert (Skip : position s1 = position s2 /\ data s1 = data s1
                 /\ initial_balance s1 = initial_balance s1
                 /\ exists T, trades s1 = trades s1 ++ T /\ trades s2 = trades s2 ++ T
                     /\ Forall (fun t => label t = fst (index, row)) T
                     /\ (closes_present [(index, row)] ->
                         feq (balance s1) (replay_balance T (balance s1)))).
  { repeat split; [assumption|]. exists []. rewrite !app_nil_r.
    repeat split; [constructor|]. intros _. apply feq_refl. }
  destruct (row_get "Signal" row) as [signal|] eqn:Hs; [|exact Skip].
  destruct (row_get "Close" row) as [close_price|] eqn:Hc; [|exact Skip].
  destruct (isna signal); [exact Skip|].
  destruct (transition_effect index (to_int signal) close_price s1 s2 Hp)
    as (P & D & I & T & T1 & T2 & L & B).
  repeat split; try assumption.
  exists T. repeat split; try assumption.
  intros Hcl. apply B. inversion Hcl as [|? ? Hhd _]. now apply Hhd.
Qed.

Lemma execute_rows_effect (rows : list (Z * Row)) :
  forall s1 s2 : Backtester,
  position s1 = position s2 ->
  position (fold_left execute_row rows s1) = position (fold_left execute_row rows s2)
  /\ data (fold_left execute_row rows s1) = data s1
  /\ initial_balance (fold_left execute_row rows s1) = initial_balance s1
  /\ exists T,
       trades (fold_left execute_row rows s1) = trades s1 ++ T
       /\ trades (fold_left execute_row rows s2) = trades s2 ++ T
       /\ Forall (fun t => In (label t) (map fst rows)) T
       /\ (closes_present rows ->
           feq (balance (fold_left execute_row rows s1)) (replay_balance T (balance s1))).
Proof.
  induction rows as [|ir rows IH]; intros s1 s2 Hp; cbn [fold_left].
  - repeat split; [assumption|]. exists []. rewrite !app_nil_r.
    repeat split; [constructor|]. intros _. apply feq_refl.
  - destruct (execute_row_effect ir s1 s2 Hp) as (P & D & I & T & T1 & T2 & L & B).
    destruct (IH _ _ P) as (P' & D' & I' & T' & T1' & T2' & L' & B').
    repeat split; try congruence.
    exists (T ++ T'). rewrite T1', T2', T1, T2, <- !app_assoc.
    repeat split.
    + apply Forall_app. split.
      * eapply Forall_impl; [|exact L]. cbn. intros t ->. now left.
      * eapply Forall_impl; [|exact L']. cbn. intros t H. now right.
    + intros Hcl. inversion Hcl as [|? ? Hhd Htl]; subst.
      rewrite replay_balance_app.
      eapply feq_trans; [apply B'; assumption|].
      apply replay_balance_feq, B. constructor; [assumption|constructor].
Qed.

(** * Performance evaluation *)

Lemma bind_ok {A B} (m : M A) (k : A -> M B) (self self' : Backtester) (a : A) :
  m self = (Ok a, self') -> bind m k self = k a self'.
Proof. intros H. unfold bind. now rewrite H. Qed.

Lemma same_ledger_refl (self : Backtester) : same_ledger self self.
Proof. repeat split. Qed.

Lemma same_ledger_trans (s1 s2 s3 : Backtester) :
  same_ledger s1 s2 -> same_ledger s2 s3 -> same_ledger s1 s3.
Proof. unfold same_ledger. intros (A & B & C) (D & E & F). repeat split; congruence. Qed.

Lemma replay_trade_eval (t : Trade) (self : Backtester) :
  replay_trade t self
  = let b := replay_balance [t] (balance self) in
    match loc_from_set (label t) "Portfolio Value" b (data self) with
    | Some df' => (Ok tt, with_data df' (with_balance b self))
    | None => (Raise (LabelKeyError (label t)), with_balance b self)
    end.
Proof.
  destruct t as [[date action] price].
  unfold replay_trade, bind, update, attr, raise, label. cbn.
  destruct action; cbn;
    match goal with |- context [loc_from_set ?k ?c ?b ?d] =>
      destruct (loc_from_set k c b d) end; reflexivity.
Qed.

Lemma loc_from_set_facts (k : Z) (c : string) (x : num) (df df' : DataFrame) :
  loc_from_set k c x df = Some df' ->
  index df' = index df
  /\ (String.prefix "MA_" c = false -> ma_columns df' = ma_columns df)
  /\ (exists v, get_col c df' = Some v)
  /\ (forall c0, c <> c0 -> get_col c0 df' = get_col c0 df).
Proof.
  unfold loc_from_set. destruct (position_of k (index df)); [|discriminate].
  destruct (get_col c df); intros [= <-]; repeat split;
    try (intros; now apply ma_columns_set_col);
    try (eexists; apply get_set_col_same);
    try (intros; now apply get_set_col_other).
Qed.

(** Replaying a ledger never touches the ledger, the position or the initial
    balance, whether it completes or raises. *)
Lemma replay_same_ledger (ts : list Trade) :
  forall self, same_ledger self (snd (for_each replay_trade ts self)).
Proof.
  induction ts as [|t ts IH]; intros self; cbn [for_each].
  - apply same_ledger_refl.
  - unfold bind. rewrite replay_trade_eval. cbn zeta.
    destruct (loc_from_set _ _ _ _); cbn [snd].
    + eapply same_ledger_trans; [|apply IH]. repeat split.
    + repeat split.
Qed.

(** Replaying a ledger whose labels are labels of the frame completes, and
    applies every entry to the balance the object already has. *)
Lemma replay_completes (ts : list Trade) :
  forall self,
  Forall (fun t => In (label t) (index (data self))) ts ->
  exists self',
    for_each replay_trade ts self = (Ok tt, self')
    /\ balance self' = replay_balance ts (balance self)
    /\ index (data self') = index (data self)
    /\ ma_columns (data self') = ma_columns (data self)
    /\ ((exists v, get_col "Portfolio Value" (data self) = Some v) ->
        exists v, get_col "Portfolio Value" (data self') = Some v)
    /\ (ts = [] -> self' = self).
Proof.
  induction ts as [|t ts IH]; intros self Hl; cbn [for_each].
  - exists self. repeat split; auto.
  - inversion Hl as [|? ? Hhd Htl]; subst.
    unfold bind. rewrite replay_trade_eval. cbn zeta.
    destruct (position_of_In _ _ Hhd) as [pos Hpos].
    destruct (loc_from_set (label t) "Portfolio Value"
                (replay_balance [t] (balance self)) (data self)) as [df'|] eqn:E.
    2:{ unfold loc_from_set in E. rewrite Hpos in E.
        destruct (get_col _ _); discriminate E. }
    destruct (loc_from_set_facts _ _ _ _ _ E) as (Fi & Fm & Fv & Fo).
    destruct (IH (with_data df' (with_balance (replay_balance [t] (balance self)) self)))
      as (self' & R & B & I & Ma & Pv & _).
    { cbn. rewrite Fi. exact Htl. }
    exists self'. cbn in B, I, Ma, Pv. repeat split.
    + exact R.
    + rewrite B. reflexivity.
    + congruence.
    + rewrite Ma. now apply Fm.
    + intros _. now apply Pv.
    + discriminate.
Qed.

Lemma divide_nonzero (x : num) (b : Q) :
  ~ b == 0 ->
  divide x (Fin b) = Ok (match x with NaN => NaN | Fin a => Fin (a / b) end).
Proof.
  intros Hb. unfold divide.
  destruct (Qeq_bool b 0) eqn:E.
  - apply Qeq_bool_iff in E. contradiction.
  - destruct x; reflexivity.
Qed.

(** [calculate_performance] never changes ledger, position or initial
    balance. *)
Lemma calculate_performance_same_ledger (self : Backtester) :
  same_ledger self (snd (calculate_performance self)).
Proof.
  unfold calculate_performance.
  unfold bind at 1. cbn [update].
  unfold bind at 1. cbn [attr].
  set (s0 := with_data _ self).
  assert (H0 : same_ledger self s0) by repeat split.
  unfold bind at 1.
  pose proof (replay_same_ledger (trades s0) s0) as H1.
  destruct (for_each replay_trade (trades s0) s0) as [[[]|e] s1]; cbn [snd] in *;
    [|exact (same_ledger_trans _ _ _ H0 H1)].
  assert (H2 : same_ledger self s1) by exact (same_ledger_trans _ _ _ H0 H1).
  unfold column, bind, attr, lift, ret, raise.
  destruct (divide _ _); cbn [snd]; [|assumption].
  destruct (get_col _ _); assumption.
Qed.

(** With a non-zero initial balance and a ledger whose labels are labels of
    the frame, [calculate_performance] returns: the total return is taken on
    the balance after the ledger has been applied to it once more. *)
Lemma calculate_performance_returns (self : Backtester) (b : Q) :
  initial_balance self = Fin b -> ~ b == 0 ->
  Forall (fun t => In (label t) (index (data self))) (trades self) ->
  exists pv self',
    calculate_performance self
    = (Ok (match sub (balance self') (Fin b) with
           | NaN => NaN
           | Fin a => Fin (a / b)
           end, pv), self')
    /\ same_ledger self self'
    /\ balance self' = replay_balance (trades self) (balance self)
    /\ index (data self') = index (data self)
    /\ ma_columns (data self') = ma_columns (data self)
    /\ get_col "Portfolio Value" (data self') = Some pv
    /\ (trades self = [] -> pv = repeat (Fin b) (nrows (data self))).
Proof.
  intros Hib Hb Hl.
  unfold calculate_performance.
  unfold bind at 1. cbn [update].
  unfold bind at 1. cbn [attr].
  set (s0 := with_data _ self).
  destruct (replay_completes (trades s0) s0) as (s1 & R & B & I & Ma & Pv & E).
  { exact Hl. }
  destruct Pv as [pv Hpv].
  { eexists. apply get_set_col_same. }
  rewrite (bind_ok _ _ _ _ _ R).
  unfold bind at 1. cbn [attr].
  unfold bind at 1. cbn [attr].
  pose proof (replay_same_ledger (trades s0) s0) as SL. rewrite R in SL. cbn [snd] in SL.
  destruct SL as (SLi & SLp & SLt).
  assert (Hib1 : initial_balance s1 = Fin b) by (rewrite SLi; exact Hib).
  rewrite Hib1.
  unfold bind at 1. unfold lift. rewrite (divide_nonzero _ _ Hb).
  unfold column, bind, attr, ret. rewrite Hpv.
  exists pv, s1. repeat split; try assumption.
  - rewrite Ma. subst s0. cbn. apply ma_columns_set_col. reflexivity.
  - intros Ht. cbn in E. specialize (E Ht). subst s1.
    subst s0. unfold with_data, set_scalar in Hpv. cbn [data] in Hpv.
    rewrite get_set_col_same, Hib in Hpv.
    now injection Hpv as <-.
Qed.

(** ** A single round trip: one +1 signal, later one 0 signal *)

Lemma execute_row_missing (self : Backtester) (ir : Z * Row) :
  missing_signal ir -> execute_row self ir = self.
Proof.
  destruct ir as [index row]. unfold missing_signal, execute_row. cbn [snd].
  destruct (row_get "Signal" row) as [signal|]; [|reflexivity].
  intros ->. destruct (row_get "Close" row); reflexivity.
Qed.

Lemma execute_rows_missing (rows : list (Z * Row)) :
  Forall missing_signal rows ->
  forall self, fold_left execute_row rows self = self.
Proof.
  induction 1 as [|ir rows Hm _ IH]; intros self; cbn [fold_left]; [reflexivity|].
  now rewrite execute_row_missing, IH.
Qed.

Lemma execute_row_signal (self : Backtester) (index : Z) (row : Row)
  (signal close_price : num) :
  row_get "Signal" row = Some signal -> isna signal = false ->
  row_get "Close" row = Some close_price ->
  execute_row self (index, row) = transition index (to_int signal) close_price self.
Proof. intros Hs Hn Hc. unfold execute_row. now rewrite Hs, Hc, Hn. Qed.

(** What the code does on the series of C1, for every such series: the
    ledger is the BUY followed by the SELL, and the total return reported by
    [calculate_performance] is twice (p2 - p1) / b, because the ledger is
    applied to a balance that trade execution has already updated. *)
Lemma round_trip_return_is_doubled
  (d : DataFrame) (b p1 p2 : Q) (pre mid post : list (Z * Row))
  (i1 i2 : Z) (r1 r2 : Row) (s1 s2 : num) :
  iterrows d = pre ++ (i1, r1) :: mid ++ (i2, r2) :: post ->
  Forall missing_signal pre -> Forall missing_signal mid -> Forall missing_signal post ->
  row_get "Signal" r1 = Some s1 -> isna s1 = false -> to_int s1 = 1%Z ->
  row_get "Close" r1 = Some (Fin p1) ->
  row_get "Signal" r2 = Some s2 -> isna s2 = false -> to_int s2 = 0%Z ->
  row_get "Close" r2 = Some (Fin p2) ->
  ~ b == 0 ->
  let self := snd (execute_trades (new d (Fin b))) in
  trades self = [(i1, BUY, Fin p1); (i2, SELL, Fin p2)]
  /\ exists r pv self',
       calculate_performance self = (Ok (Fin r, pv), self')
       /\ r == 2 * (p2 - p1) / b.
Proof.
  intros Hrows Hpre Hmid Hpost Hs1 Hn1 Hi1 Hc1 Hs2 Hn2 Hi2 Hc2 Hb. cbn zeta.
  assert (Hex : snd (execute_trades (new d (Fin b)))
                = mkBacktester d (Fin b) (Fin (b - p1 + p2)) 0
                               [(i1, BUY, Fin p1); (i2, SELL, Fin p2)]).
  { unfold execute_trades, update. cbn [snd new data]. rewrite Hrows.
    rewrite fold_left_app, (execute_rows_missing _ Hpre). cbn [fold_left].
    rewrite (execute_row_signal _ _ _ _ _ Hs1 Hn1 Hc1), Hi1.
    rewrite fold_left_app, (execute_rows_missing _ Hmid). cbn [fold_left].
    rewrite (execute_row_signal _ _ _ _ _ Hs2 Hn2 Hc2), Hi2.
    rewrite (execute_rows_missing _ Hpost). reflexivity. }
  rewrite Hex. split; [reflexivity|].
  assert (Hin : forall i r, In (i, r) (iterrows d) -> In i (index d)).
  { intros i r H. apply (iterrows_labels d (i, r) H). }
  destruct (calculate_performance_returns
              (mkBacktester d (Fin b) (Fin (b - p1 + p2)) 0
                            [(i1, BUY, Fin p1); (i2, SELL, Fin p2)]) b)
    as (pv & self' & Hcp & _ & Hbal & _).
  - reflexivity.
  - exact Hb.
  - cbn [trades data]. repeat constructor; unfold label; cbn [fst].
    + apply (Hin i1 r1). rewrite Hrows. apply in_or_app. right. now left.
    + apply (Hin i2 r2). rewrite Hrows. apply in_or_app. right. right.
      apply in_or_app. right. now left.
  - rewrite Hbal in Hcp. cbn in Hcp.
    eexists _, pv, self'. split; [exact Hcp|].
    field. exact Hb.
Qed.

(** C1, on the code.  Signals [+1, 0] at close prices 100 and 110, initial
    balance 10000: the ledger is [BUY at 100, SELL at 110], but the total
    return is 20/10000, twice the (110 - 100)/10000 of the claim. *)
Theorem round_trip_total_return :
  let d := mkDataFrame [0; 1]%Z
             [("Close"%string, [Fin 100; Fin 110]); ("Signal"%string, [Fin 1; Fin 0])] in
  let executed := snd (execute_trades (new d (Fin 10000))) in
  let result := fst (calculate_performance executed) in
  trades executed = [(0%Z, BUY, Fin 100); (1%Z, SELL, Fin 110)]
  /\ feq (balance executed) (Fin (10000 - 100 + 110))
  /\ (exists r pv, result = Ok (Fin r, pv)
        /\ r == 2 * (110 - 100) / 10000
        /\ ~ r == (110 - 100) / 10000).
Proof.
  cbn zeta. split; [reflexivity|]. split; [reflexivity|].
  eexists _, _. split; [reflexivity|].
  split; [reflexivity|]. intros H. discriminate H.
Qed.


(** C3, on the code.  After a BUY at 100 from an initial balance of 10000
    the balance is 9900; [calculate_performance] returns, keeps the ledger,
    and leaves a balance of 9800: it applies the ledger to the balance
    again. *)
Theorem calculate_performance_changes_balance :
  let d := mkDataFrame [0%Z] [("Close"%string, [Fin 100]); ("Signal"%string, [Fin 1])] in
  let executed := snd (execute_trades (new d (Fin 10000))) in
  let after := snd (calculate_performance executed) in
  trades executed = [(0%Z, BUY, Fin 100)]
  /\ feq (balance executed) (Fin 9900)
  /\ (exists r, fst (calculate_performance executed) = Ok r)
  /\ trades after = trades executed
  /\ feq (balance after) (Fin 9800)
  /\ ~ feq (balance after) (balance executed).
Proof.
  cbn zeta. repeat split; try reflexivity.
  - eexists. reflexivity.
  - intros H. vm_compute in H. discriminate H.
Qed.

(** * Signal generation: the crossover policy *)

Lemma keyed_names (l : list string) :
  forall ks, keyed l = Ok ks -> map snd ks = l.
Proof.
  induction l as [|x l IH]; cbn; intros ks H.
  - now injection H as <-.
  - destruct (sort_key x) as [k|]; [|discriminate].
    destruct (keyed l) as [r|]; [|discriminate].
    injection H as <-. cbn. now rewrite (IH r eq_refl).
Qed.


Lemma insert_by_key_In (x y : Z * string) (l : list (Z * string)) :
  In y (insert_by_key x l) -> y = x \/ In y l.
Proof.
  induction l as [|z l IH]; cbn.
  - intros [->|[]]. now left.
  - destruct (fst x <=? fst z)%Z; cbn.
    + intros [->|[->|H]]; auto.
    + intros [->|H]; auto. destruct (IH H); auto.
Qed.


Lemma sort_by_key_In (y : Z * string) (l : list (Z * string)) :
  In y (sort_by_key l) -> In y l.
Proof.
  induction l as [|x l IH]; [cbn; tauto|].
  change (sort_by_key (x :: l)) with (insert_by_key x (sort_by_key l)).
  intros H. destruct (insert_by_key_In _ _ _ H) as [->|H']; cbn; auto.
Qed.


(** Whatever [select_ma] returns starts with [MA_]. *)
Lemma select_ma_prefix (df : DataFrame) (short_ma long_ma : string) :
  select_ma df = Ok (short_ma, long_ma) ->
  String.prefix "MA_" short_ma = true /\ String.prefix "MA_" long_ma = true.
Proof.
  unfold select_ma.
  destruct (2 <=? length (ma_columns df))%nat.
  - destruct (keyed (ma_columns df)) as [ks|] eqn:Hks; [|discriminate].
    pose proof (keyed_names _ _ Hks) as Hn.
    assert (Hin : forall y, In y (map snd (sort_by_key ks)) ->
                            String.prefix "MA_" y = true).
    { intros y Hy. apply in_map_iff in Hy as [[k y'] [<- Hy]].
      apply sort_by_key_In in Hy.
      assert (H : In y' (ma_columns df)).
      { rewrite <- Hn. apply in_map_iff. now exists (k, y'). }
      unfold ma_columns in H. apply filter_In in H. apply H. }
    destruct (map snd (sort_by_key ks)) as [|s [|l rest]]; try discriminate.
    intros [= <- <-]. split; apply Hin; cbn; auto.
  - intros [= <- <-]. split; reflexivity.
Qed.

Lemma prefix_MA_not_Signal (c : string) :
  String.prefix "MA_" c = true -> "Signal"%string <> c.
Proof. intros H <-. discriminate H. Qed.


(** The two masked assignments, point by point, are the rule of the
    specification. *)
Lemma crossover_point (x y : num) :
  (if lt x y then of_Z (-1) else if gt x y then of_Z 1 else of_Z 0)
  = crossover_spec x y.
Proof.
  destruct x as [|a], y as [|b]; cbn; try reflexivity.
  unfold Qlt_bool.
  destruct (a ?= b) eqn:E.
  - apply Qeq_alt in E.
    assert (H1 : Qle_bool b a = true) by (apply Qle_bool_iff; rewrite E; apply Qle_refl).
    assert (H2 : Qle_bool a b = true) by (apply Qle_bool_iff; rewrite E; apply Qle_refl).
    now rewrite H1, H2.
  - apply Qlt_alt in E.
    destruct (Qle_bool b a) eqn:H1; [|reflexivity].
    apply Qle_bool_iff in H1. exfalso. exact (Qlt_not_le _ _ E H1).
  - apply Qgt_alt in E.
    assert (H1 : Qle_bool b a = true) by (apply Qle_bool_iff; now apply Qlt_le_weak).
    rewrite H1. cbn.
    destruct (Qle_bool a b) eqn:H2; [|reflexivity].
    apply Qle_bool_iff in H2. exfalso. exact (Qlt_not_le _ _ E H2).
Qed.

Lemma gt_lt_exclusive (x y : num) : gt x y = true -> lt x y = false.
Proof.
  destruct x as [|a], y as [|b]; cbn; try discriminate. unfold Qlt_bool.
  intros H. apply negb_true_iff in H.
  destruct (Qle_bool b a) eqn:H1; [reflexivity|].
  exfalso.
  assert (Ha : ~ a <= b) by (intros C; apply Qle_bool_iff in C; congruence).
  assert (Hb : ~ b <= a) by (intros C; apply Qle_bool_iff in C; congruence).
  apply Ha. apply Qlt_le_weak. now apply Qnot_le_lt.
Qed.

Lemma crossover_column (s : Series) :
  forall (l : Series) (n : nat),
  length s = n -> length l = n ->
  where_set (compare lt s l) (of_Z (-1))
            (where_set (compare gt s l) (of_Z 1) (repeat (of_Z 0) n))
  = map (fun p => crossover_spec (fst p) (snd p)) (combine s l).
Proof.
  induction s as [|x s IH]; intros [|y l] [|n] Hs Hl; try discriminate; try reflexivity.
  cbn [compare combine map where_set repeat fst snd].
  injection Hs as Hs. injection Hl as Hl.
  change (map (fun p => lt (fst p) (snd p)) (combine s l)) with (compare lt s l).
  change (map (fun p => gt (fst p) (snd p)) (combine s l)) with (compare gt s l).
  rewrite (IH l n Hs Hl). f_equal.
  rewrite <- crossover_point.
  destruct (gt x y) eqn:G; [now rewrite (gt_lt_exclusive _ _ G)|].
  destruct (lt x y); reflexivity.
Qed.

(** The rule of the specification, case by case. *)
Lemma crossover_spec_cases (x y : num) :
  (forall a b, x = Fin a -> y = Fin b -> b < a -> crossover_spec x y = of_Z 1)
  /\ (forall a b, x = Fin a -> y = Fin b -> a < b -> crossover_spec x y = of_Z (-1))
  /\ (forall a b, x = Fin a -> y = Fin b -> a == b -> crossover_spec x y = of_Z 0)
  /\ (x = NaN \/ y = NaN -> crossover_spec x y = of_Z 0).
Proof.
  repeat split.
  - intros a b -> -> H. unfold crossover_spec.
    assert (E : (a ?= b) = Gt) by (now apply Qgt_alt). now rewrite E.
  - intros a b -> -> H. unfold crossover_spec.
    assert (E : (a ?= b) = Lt) by (now apply Qlt_alt). now rewrite E.
  - intros a b -> -> H. unfold crossover_spec.
    assert (E : (a ?= b) = Eq) by (now apply Qeq_alt). now rewrite E.
  - intros [->| ->]; [reflexivity|]. destruct x; reflexivity.
Qed.

(** [generate_signals] on a frame where [select_ma] finds the two columns. *)
Lemma generate_signals_spec (self : Backtester) (short_ma long_ma : string) (s l : Series) :
  select_ma (data self) = Ok (short_ma, long_ma) ->
  get_col short_ma (data self) = Some s ->
  get_col long_ma (data self) = Some l ->
  generate_signals self
  = (Ok tt,
     with_data
       (set_col "Signal"
          (where_set (compare lt s l) (of_Z (-1))
             (where_set (compare gt s l) (of_Z 1)
                (repeat (of_Z 0) (nrows (data self)))))
          (data self))
       self).
Proof.
  intros Hsel Hs Hl.
  destruct (select_ma_prefix _ _ _ Hsel) as [Ps Pl].
  pose proof (prefix_MA_not_Signal _ Ps) as Ns.
  pose proof (prefix_MA_not_Signal _ Pl) as Nl.
  unfold generate_signals, column, bind, update, attr, lift, ret, raise.
  cbn [data with_data].
  unfold set_scalar.
  rewrite (select_ma_ext (set_col "Signal" _ (data self)) (data self))
    by (apply ma_columns_set_col; reflexivity).
  rewrite Hsel. cbn [fst snd].
  rewrite (get_set_col_other _ _ _ _ Ns), Hs.
  cbv beta iota. cbn [data with_data].
  rewrite (get_set_col_other _ _ _ _ Nl), Hl.
  cbv beta iota. cbn [data with_data]. unfold loc_mask_set at 1 2.
  rewrite get_set_col_same, set_col_set_col, (get_set_col_other _ _ _ _ Ns), Hs.
  cbv beta iota. cbn [data with_data].
  rewrite (get_set_col_other _ _ _ _ Nl), Hl.
  cbv beta iota. cbn [data with_data]. unfold loc_mask_set.
  rewrite get_set_col_same, set_col_set_col.
  reflexivity.
Qed.



(** * Signal generation: the momentum-ranking policy *)

Lemma Qle_bool_compare (a b : Q) :
  Qle_bool a b = match a ?= b with Gt => false | _ => true end.
Proof.
  destruct (a ?= b) eqn:E.
  - apply Qeq_alt in E. apply Qle_bool_iff. rewrite E. apply Qle_refl.
  - apply Qlt_alt in E. apply Qle_bool_iff. now apply Qlt_le_weak.
  - apply Qgt_alt in E. destruct (Qle_bool a b) eqn:H; [|reflexivity].
    apply Qle_bool_iff in H. exfalso. exact (Qlt_not_le _ _ E H).
Qed.

Lemma Qcompare_swap (a b : Q) : (b ?= a) = CompOpp (a ?= b).
Proof. symmetry. apply Qcompare_antisym. Qed.

(** Two masked assignments over a series of zeros, point by point. *)
Lemma where_set_twice (p1 p2 : num -> bool) (x0 x1 x2 : num) (ranks : Series) :
  forall n, length ranks = n ->
  where_set (map p2 ranks) x2 (where_set (map p1 ranks) x1 (repeat x0 n))
  = map (fun r => if p2 r then x2 else if p1 r then x1 else x0) ranks.
Proof.
  induction ranks as [|r ranks IH]; intros [|n] Hn; try discriminate; [reflexivity|].
  cbn. injection Hn as Hn. now rewrite (IH n Hn).
Qed.

Lemma threshold_point (th r : num) :
  (if gt r th then of_Z (-1) else if le r th then of_Z 1 else of_Z 0)
  = threshold_spec th r.
Proof.
  destruct r as [|r], th as [|t]; try reflexivity.
  unfold gt, le, Qlt_bool, threshold_spec.
  rewrite Qle_bool_compare. destruct (r ?= t); reflexivity.
Qed.

Lemma median_point (m r : num) :
  (if gt r m then of_Z (-1) else if lt r m then of_Z 1 else of_Z 0)
  = median_spec m r.
Proof.
  destruct r as [|r], m as [|m]; try reflexivity.
  unfold gt, lt, Qlt_bool, median_spec.
  rewrite !Qle_bool_compare, (Qcompare_swap r m).
  destruct (r ?= m); reflexivity.
Qed.

Lemma threshold_spec_cases (r t : Q) :
  (r <= t -> threshold_spec (Fin t) (Fin r) = of_Z 1)
  /\ (t < r -> threshold_spec (Fin t) (Fin r) = of_Z (-1)).
Proof.
  unfold threshold_spec. split; intros H.
  - destruct (r ?= t) eqn:E; try reflexivity.
    apply Qgt_alt in E. exfalso. exact (Qlt_not_le _ _ E H).
  - assert (E : (r ?= t) = Gt) by (now apply Qgt_alt). now rewrite E.
Qed.

Lemma median_spec_cases (r m : Q) :
  (r < m -> median_spec (Fin m) (Fin r) = of_Z 1)
  /\ (m < r -> median_spec (Fin m) (Fin r) = of_Z (-1))
  /\ (r == m -> median_spec (Fin m) (Fin r) = of_Z 0).
Proof.
  unfold median_spec. repeat split; intros H.
  - assert (E : (r ?= m) = Lt) by (now apply Qlt_alt). now rewrite E.
  - assert (E : (r ?= m) = Gt) by (now apply Qgt_alt). now rewrite E.
  - assert (E : (r ?= m) = Eq) by (now apply Qeq_alt). now rewrite E.
Qed.

(** C8.  With the rank column present in a well-formed frame,
    [generate_momentum_signal] returns one signal per period.  With an
    explicit threshold a period of defined rank gets +1 when rank <=
    threshold and -1 when rank > threshold; in median mode it gets +1 when
    rank < median rank, -1 when rank > median rank and 0 at the median. *)
Theorem momentum_rank_signals (df : DataFrame) (momentum_col : string) (ranks : Series) :
  get_col momentum_col df = Some ranks ->
  well_formed df ->
  (forall th : num,
     Momentum.generate_momentum_signal df momentum_col (Some th)
     = Ok (map (threshold_spec th) ranks)
     /\ forall (i : nat) (r t : Q),
          nth_error ranks i = Some (Fin r) -> th = Fin t ->
          (r <= t -> nth_error (map (threshold_spec th) ranks) i = Some (of_Z 1))
          /\ (t < r -> nth_error (map (threshold_spec th) ranks) i = Some (of_Z (-1))))
  /\ (Momentum.generate_momentum_signal df momentum_col None
      = Ok (map (median_spec (median ranks)) ranks)
      /\ forall (i : nat) (r m : Q),
           nth_error ranks i = Some (Fin r) -> median ranks = Fin m ->
           (r < m -> nth_error (map (median_spec (median ranks)) ranks) i = Some (of_Z 1))
           /\ (m < r ->
               nth_error (map (median_spec (median ranks)) ranks) i = Some (of_Z (-1)))
           /\ (r == m ->
               nth_error (map (median_spec (median ranks)) ranks) i = Some (of_Z 0))).
Proof.
  intros Hc Hwf. pose proof (well_formed_col _ _ _ Hwf Hc) as Hlen. split.
  - intros th. split.
    + unfold Momentum.generate_momentum_signal, Momentum.compare_scalar. rewrite Hc.
      rewrite (where_set_twice _ _ _ _ _ ranks (nrows df) Hlen).
      f_equal. apply map_ext. intros r. apply threshold_point.
    + intros i r t Hi ->. rewrite nth_error_map, Hi. cbn [option_map].
      destruct (threshold_spec_cases r t) as [H1 H2].
      split; intros H; f_equal; auto.
  - split.
    + unfold Momentum.generate_momentum_signal, Momentum.compare_scalar. rewrite Hc.
      rewrite (where_set_twice _ _ _ _ _ ranks (nrows df) Hlen).
      f_equal. apply map_ext. intros r. apply median_point.
    + intros i r m Hi ->. rewrite nth_error_map, Hi. cbn [option_map].
      destruct (median_spec_cases r m) as (H1 & H2 & H3).
      repeat split; intros H; f_equal; auto.
Qed.

Lemma momentum_rank_signals_witness :
  let df := mkDataFrame [0; 1; 2; 3]%Z
              [("Momentum_Rank"%string, [Fin 1; Fin 2; Fin 3; Fin 4])] in
  Momentum.generate_momentum_signal df "Momentum_Rank" (Some (Fin 2))
  = Ok [Fin 1; Fin 1; Fin (-1); Fin (-1)]
  /\ Momentum.generate_momentum_signal df "Momentum_Rank" None
     = Ok [Fin 1; Fin 1; Fin (-1); Fin (-1)].
Proof.
  cbn zeta.
  destruct (momentum_rank_signals
              (mkDataFrame [0; 1; 2; 3]%Z
                 [("Momentum_Rank"%string, [Fin 1; Fin 2; Fin 3; Fin 4])])
              "Momentum_Rank" [Fin 1; Fin 2; Fin 3; Fin 4] eq_refl
              ltac:(repeat constructor))
    as [Hth [Hmed _]].
  split.
  - exact (proj1 (Hth (Fin 2))).
  - exact Hmed.
Defined.

(** * The momentum backtester's signal column *)

Lemma astype_int_fillna (s : Series) :
  exists s', astype_int (fillna (of_Z 0) s) = Some s' /\ length s' = length s.
Proof.
  induction s as [|x s [s' [IH L]]].
  - now exists [].
  - change (fillna (of_Z 0) (x :: s))
      with ((if isna x then of_Z 0 else x) :: fillna (of_Z 0) s).
    destruct x as [|q]; cbn [isna].
    + change (astype_int (of_Z 0 :: fillna (of_Z 0) s))
        with (option_map (cons (of_Z (int_of_Q (inject_Z 0))))
                         (astype_int (fillna (of_Z 0) s))).
      rewrite IH. eexists. split; [reflexivity|]. cbn [length]. now rewrite L.
    + cbn [astype_int]. rewrite IH. eexists. split; [reflexivity|].
      cbn [length]. now rewrite L.
Qed.

Lemma lookup_existsb (c : string) (cols : list (string * Series)) (v : Series) :
  lookup c cols = Some v -> existsb (String.eqb c) (map fst cols) = true.
Proof.
  induction cols as [|[c' v'] rest IH]; cbn; [discriminate|].
  rewrite (String.eqb_sym c c').
  destruct (String.eqb c' c); [reflexivity|]. exact IH.
Qed.

(** [MomentumBacktester.generate_signals] on data that has a signal column:
    the column is filled and cast, nothing else changes. *)
Lemma momentum_generate_signals_spec (self : Backtester) (s : Series) :
  get_col "Signal" (data self) = Some s ->
  exists s',
    astype_int (fillna (of_Z 0) s) = Some s'
    /\ length s' = length s
    /\ Momentum.generate_signals self
       = (Ok tt, with_data (set_col "Signal" s' (data self)) self).
Proof.
  intros Hs. destruct (astype_int_fillna s) as [s' [Ha Hl]].
  exists s'. split; [exact Ha|]. split; [exact Hl|].
  unfold Momentum.generate_signals, column, bind, attr, update, raise, ret.
  unfold column_names. unfold get_col in Hs.
  rewrite (lookup_existsb _ _ _ Hs). cbn [negb].
  unfold get_col. rewrite Hs, Ha. reflexivity.
Qed.

(** Without a signal column the explicit check raises [ValueError]. *)
Lemma momentum_generate_signals_raises (self : Backtester) :
  get_col "Signal" (data self) = None ->
  Momentum.generate_signals self = (Raise ValueError, self).
Proof.
  intros Hs.
  unfold Momentum.generate_signals, bind, attr, raise.
  destruct (existsb (String.eqb "Signal") (column_names (data self))) eqn:E;
    [|reflexivity].
  exfalso. unfold column_names in E. apply existsb_exists in E as [c [Hin Hc]].
  apply String.eqb_eq in Hc. subst c.
  destruct (lookup_In _ _ Hin) as [v Hv]. unfold get_col in Hs. congruence.
Qed.

(** * Empty input *)





(** * The full pipeline *)









(** * Monte Carlo mode *)

(** [__init__] overwrites every attribute: the object it leaves does not
    depend on the object it was called on. *)
Lemma init_resets (d : DataFrame) (ib : num) (old : Backtester) :
  init d ib old = (Ok tt, new d ib).
Proof. reflexivity. Qed.

Lemma construct_backtester (d : DataFrame) (ib : num) :
  construct BacktesterClass d ib = (Ok tt, new d ib).
Proof. reflexivity. Qed.

(** With no pass to make, the loop returns the empty list on any object of
    any class. *)
Lemma monte_carlo_zero (C : Class) (rng : nat -> list nat) (self : Backtester) :
  monte_carlo_backtest C rng 0 self = (Ok [], self).
Proof. reflexivity. Qed.






(** * The momentum backtester: construction followed by [run_backtest] *)

Lemma with_data_same (self : Backtester) : with_data (data self) self = self.
Proof. now destruct self. Qed.

Lemma int_of_Q_inject_Z (z : Z) : int_of_Q (inject_Z z) = z.
Proof. unfold int_of_Q. cbn. apply Z.quot_1_r. Qed.

(** Filling and casting a column that is already filled and cast changes
    nothing. *)
Lemma astype_int_idempotent (s : Series) :
  forall s', astype_int (fillna (of_Z 0) s) = Some s' ->
             astype_int (fillna (of_Z 0) s') = Some s'.
Proof.
  assert (Hcast : forall z t t', astype_int (fillna (of_Z 0) t) = Some t' ->
            astype_int (fillna (of_Z 0) (of_Z z :: t)) = Some (of_Z z :: t')).
  { intros z t t' Ht.
    change (astype_int (fillna (of_Z 0) (of_Z z :: t)))
      with (option_map (cons (of_Z (int_of_Q (inject_Z z))))
                       (astype_int (fillna (of_Z 0) t))).
    now rewrite Ht, int_of_Q_inject_Z. }
  induction s as [|x s IH]; intros s' H.
  - injection H as <-. reflexivity.
  - change (fillna (of_Z 0) (x :: s))
      with ((if isna x then of_Z 0 else x) :: fillna (of_Z 0) s) in H.
    destruct x as [|q]; cbn [isna] in H.
    + change (astype_int (of_Z 0 :: fillna (of_Z 0) s))
        with (option_map (cons (of_Z (int_of_Q (inject_Z 0))))
                         (astype_int (fillna (of_Z 0) s))) in H.
      destruct (astype_int (fillna (of_Z 0) s)) as [t|]; [|discriminate].
      injection H as <-. apply Hcast. now apply IH.
    + cbn [astype_int] in H.
      destruct (astype_int (fillna (of_Z 0) s)) as [t|]; [|discriminate].
      injection H as <-. apply Hcast. now apply IH.
Qed.

(** The balance [calculate_performance] leaves, whether or not the division
    at its end raises. *)
Lemma calculate_performance_balance (self : Backtester) :
  Forall (fun t => In (label t) (index (data self))) (trades self) ->
  balance (snd (calculate_performance self))
  = replay_balance (trades self) (balance self).
Proof.
  intros Hl.
  unfold calculate_performance.
  unfold bind at 1. cbn [update].
  unfold bind at 1. cbn [attr].
  set (s0 := with_data _ self).
  destruct (replay_completes (trades s0) s0 Hl) as (s1 & R & B & _).
  rewrite (bind_ok _ _ _ _ _ R).
  unfold column, bind, attr, lift, ret, raise.
  destruct (divide _ _); cbn [snd]; [|exact B].
  destruct (get_col _ _); exact B.
Qed.

Section MomentumRun.

Variables (d : DataFrame) (ib : num) (s : Series).
Hypothesis has_signal : get_col "Signal" d = Some s.

(** The object the constructor leaves is one execution pass over the rows
    of its data, started from a fresh object; the data is the input with
    its signal column filled and cast. *)
Lemma momentum_construct :
  exists s' built,
    astype_int (fillna (of_Z 0) s) = Some s'
    /\ construct Momentum.MomentumBacktesterClass d ib = (Ok tt, built)
    /\ data built = set_col "Signal" s' d
    /\ initial_balance built = ib
    /\ built = fold_left execute_row (iterrows (data built)) (new (data built) ib).
Proof.
  destruct (momentum_generate_signals_spec (new d ib) s has_signal) as (s' & Ha & _ & G).
  set (d1 := set_col "Signal" s' d).
  assert (D : data (fold_left execute_row (iterrows d1) (new d1 ib)) = d1).
  { apply (execute_rows_effect (iterrows d1) (new d1 ib) (new d1 ib) eq_refl). }
  assert (I : initial_balance (fold_left execute_row (iterrows d1) (new d1 ib)) = ib).
  { apply (execute_rows_effect (iterrows d1) (new d1 ib) (new d1 ib) eq_refl). }
  exists s', (fold_left execute_row (iterrows d1) (new d1 ib)).
  split; [exact Ha|]. split; [|split; [exact D|split; [exact I|now rewrite D]]].
  unfold construct. cbn [cls_init Momentum.MomentumBacktesterClass].
  unfold Momentum.init. unfold bind at 1. rewrite init_resets.
  rewrite (bind_ok _ _ _ _ _ G). reflexivity.
Qed.

(** The execution pass of [run_backtest] on a built object runs over the
    same rows, from the object as the constructor left it. *)
Lemma momentum_run_on_built (built : Backtester) (s' : Series) :
  astype_int (fillna (of_Z 0) s) = Some s' ->
  data built = set_col "Signal" s' d ->
  run_backtest Momentum.MomentumBacktesterClass built
  = calculate_performance (fold_left execute_row (iterrows (data built)) built).
Proof.
  intros Ha D.
  assert (Hs' : get_col "Signal" (data built) = Some s').
  { rewrite D. apply get_set_col_same. }
  destruct (momentum_generate_signals_spec built s' Hs') as (s'' & Ha' & _ & G).
  rewrite (astype_int_idempotent s s' Ha) in Ha'. injection Ha' as <-.
  assert (Hsame : with_data (set_col "Signal" s' (data built)) built = built).
  { rewrite D, set_col_set_col, <- D. apply with_data_same. }
  rewrite Hsame in G.
  unfold run_backtest.
  cbn [cls_generate_signals cls_execute_trades Momentum.MomentumBacktesterClass].
  rewrite (bind_ok _ _ _ _ _ G).
  unfold Momentum.execute_trades, execute_trades, bind, update. reflexivity.
Qed.

End MomentumRun.

Lemma rows_labels_in_index (df : DataFrame) (T : list Trade) :
  Forall (fun t => In (label t) (map fst (iterrows df))) T ->
  Forall (fun t => In (label t) (index df)) T.
Proof.
  intros H. eapply Forall_impl; [|exact H]. cbn beta. intros t Ht.
  apply in_map_iff in Ht as [ir [<- Hir]]. now apply iterrows_labels.
Qed.

(** C10, as stated, fails on a single +1 signal: the constructor executes
    one BUY, the second pass of [run_backtest] finds the position already
    LONG and executes nothing, and ledger and balance end up exactly as
    after a single execution. *)
Lemma second_pass_can_be_idle :
  let d := mkDataFrame [0%Z] [("Close"%string, [Fin 100]); ("Signal"%string, [Fin 1])] in
  let built := snd (construct Momentum.MomentumBacktesterClass d (Fin 10000)) in
  let twice := snd (run_backtest Momentum.MomentumBacktesterClass built) in
  let once := snd (run_backtest Momentum.MomentumBacktesterClass (new d (Fin 10000))) in
  trades built = [(0%Z, BUY, Fin 100)]
  /\ trades twice = trades once
  /\ balance twice = balance once
  /\ twice = once.
Proof. cbn zeta. repeat split. Qed.

(** C10 (amended).  The constructor of a [MomentumBacktester] already runs
    signal generation and one execution pass, and [run_backtest] on the
    built object runs the execution pass again from the position and
    balance the first pass left.  The resulting ledger is the ledger of a
    single execution followed by the entries of the second pass, so it
    differs from the single-execution ledger exactly when the second pass
    records an entry; it does whenever the first pass ended FLAT after
    recording an entry, the second pass then recording the same entries
    again.  When the second pass records nothing (and the close prices are
    present), ledger and balance are those of a single execution. *)
Theorem momentum_second_pass (d : DataFrame) (ib : num) (s : Series) :
  get_col "Signal" d = Some s ->
  exists built extra,
    construct Momentum.MomentumBacktesterClass d ib = (Ok tt, built)
    /\ built = fold_left execute_row (iterrows (data built)) (new (data built) ib)
    /\ trades (snd (run_backtest Momentum.MomentumBacktesterClass (new d ib)))
       = trades built
    /\ extra = trades (fold_left execute_row (iterrows (data built))
                                  (with_trades [] built))
    /\ trades (snd (run_backtest Momentum.MomentumBacktesterClass built))
       = trades built ++ extra
    /\ (trades (snd (run_backtest Momentum.MomentumBacktesterClass built))
        <> trades built <-> extra <> [])
    /\ (position built = 0%Z -> extra = trades built)
    /\ (position built = 0%Z -> trades built <> [] ->
        trades (snd (run_backtest Momentum.MomentumBacktesterClass built))
        <> trades built)
    /\ (closes_present (iterrows (data built)) -> extra = [] ->
        feq (balance (snd (run_backtest Momentum.MomentumBacktesterClass built)))
            (balance (snd (run_backtest Momentum.MomentumBacktesterClass (new d ib))))).
Proof.
  intros Hs.
  destruct (momentum_construct d ib s Hs) as (s' & built & Ha & Hc & D & I & Hb).
  set (rows := iterrows (data built)) in *.
  (* the single execution through run_backtest ends in the built object *)
  assert (Honce : run_backtest Momentum.MomentumBacktesterClass (new d ib)
                  = calculate_performance built).
  { destruct (momentum_generate_signals_spec (new d ib) s Hs) as (s1 & Ha1 & _ & G).
    rewrite Ha in Ha1. injection Ha1 as <-.
    unfold run_backtest.
    cbn [cls_generate_signals cls_execute_trades Momentum.MomentumBacktesterClass].
    rewrite (bind_ok _ _ _ _ _ G).
    unfold Momentum.execute_trades, execute_trades, bind, update.
    cbn [data with_data new]. f_equal. rewrite Hb. subst rows. rewrite D.
    reflexivity. }
  pose proof (momentum_run_on_built d s built s' Ha D) as Htwice. fold rows in Htwice.
  (* the second pass, against a copy of the built object with an empty ledger *)
  destruct (execute_rows_effect rows built (with_trades [] built) eq_refl)
    as (_ & D2 & _ & X & HX & HX0 & LX & BX).
  cbn [trades with_trades app] in HX0.
  (* the first pass, against the built object: both start FLAT *)
  assert (Hflat : position built = 0%Z -> X = trades built).
  { intros Hp.
    destruct (execute_rows_effect rows (new (data built) ib) built (eq_sym Hp))
      as (_ & _ & _ & T & HT & HT' & _).
    rewrite <- Hb in HT. cbn [trades new app] in HT.
    rewrite HX in HT'. apply app_inv_head in HT'. congruence. }
  assert (Hdiff : trades built ++ X <> trades built <-> X <> []).
  { split; intros H E; apply H.
    - rewrite E. apply app_nil_r.
    - apply (app_inv_head (trades built)). now rewrite app_nil_r. }
  assert (L1 : Forall (fun t => In (label t) (index (data built))) (trades built)).
  { destruct (execute_rows_effect rows (new (data built) ib) (new (data built) ib) eq_refl)
      as (_ & _ & _ & T & HT & _ & LT & _).
    rewrite <- Hb in HT. cbn [trades new app] in HT. rewrite HT.
    now apply rows_labels_in_index. }
  exists built, X.
  split; [exact Hc|]. split; [exact Hb|].
  split; [rewrite Honce; apply calculate_performance_same_ledger|].
  split; [symmetry; exact HX0|].
  assert (Ht : trades (snd (run_backtest Momentum.MomentumBacktesterClass built))
               = trades built ++ X).
  { rewrite Htwice, <- HX. apply calculate_performance_same_ledger. }
  split; [exact Ht|]. split; [rewrite Ht; exact Hdiff|].
  split; [exact Hflat|]. split.
  - intros Hp Hne. rewrite Ht. apply Hdiff. rewrite (Hflat Hp). exact Hne.
  - intros Hcl HX'. rewrite Htwice, Honce.
    rewrite !calculate_performance_balance.
    + rewrite HX, HX', app_nil_r.
      apply replay_balance_feq. rewrite HX' in BX. exact (BX Hcl).
    + exact L1.
    + rewrite HX, D2. apply Forall_app. split; [exact L1|].
      now apply rows_labels_in_index.
Qed.

Lemma momentum_second_pass_witness :
  let d := mkDataFrame [0; 1]%Z
             [("Close"%string, [Fin 100; Fin 110]); ("Signal"%string, [Fin 1; NaN])] in
  exists built,
    construct Momentum.MomentumBacktesterClass d (Fin 10000) = (Ok tt, built)
    /\ trades (snd (run_backtest Momentum.MomentumBacktesterClass built))
       <> trades built.
Proof.
  cbn zeta.
  destruct (momentum_second_pass
              (mkDataFrame [0; 1]%Z
                 [("Close"%string, [Fin 100; Fin 110]); ("Signal"%string, [Fin 1; NaN])])
              (Fin 10000) [Fin 1; NaN] eq_refl)
    as (built & extra & Hc & Hb & _ & _ & _ & _ & _ & Hflat & _).
  exists built. split; [exact Hc|].
  injection Hc as <-.
  apply Hflat; [reflexivity|discriminate].
Defined.

(** * Further properties of trade execution *)

Section MoreTransition.

Variables (index : Z) (close_price : num).

(** After an in-domain signal the position is that signal. *)
Lemma transition_position_is_signal (signal : Z) (self : Backtester) :
  valid_position (position self) -> In signal [-1; 0; 1]%Z ->
  position (transition index signal close_price self) = signal.
Proof.
  intros Hv Hs. unfold transition.
  destruct Hv as [Hp|[Hp|Hp]]; rewrite !Hp;
    destruct Hs as [<-|[<-|[<-|[]]]]; cbn; auto.
Qed.

(** A transition records at most one entry, at the period's label and
    close price. *)
Lemma transition_entries (signal : Z) (self : Backtester) :
  exists T,
    trades (transition index signal close_price self) = trades self ++ T
    /\ (T = [] \/ exists a, T = [(index, a, close_price)]).
Proof.
  unfold transition.
  destruct ((signal =? 1) && (position self <=? 0))%Z%bool.
  { eexists. split; [reflexivity|]. right. now exists BUY. }
  destruct ((signal =? -1) && (position self >=? 0))%Z%bool.
  { destruct (position self =? 1)%Z; cbn.
    - eexists. split; [reflexivity|]. right. now exists SELL.
    - exists []. rewrite app_nil_r. split; [reflexivity|now left]. }
  destruct ((signal =? 0) && negb (position self =? 0))%Z%bool.
  { destruct (position self =? 1)%Z; [|destruct (position self =? -1)%Z]; cbn.
    - eexists. split; [reflexivity|]. right. now exists SELL.
    - eexists. split; [reflexivity|]. right. now exists BUY.
    - exists []. rewrite app_nil_r. split; [reflexivity|now left]. }
  exists []. rewrite app_nil_r. split; [reflexivity|now left].
Qed.

(** On a FLAT position only +1 and -1 do anything. *)
Lemma transition_flat_idle (signal : Z) (self : Backtester) :
  position self = 0%Z -> signal <> 1%Z -> signal <> (-1)%Z ->
  transition index signal close_price self = self.
Proof.
  intros Hp H1 Hm. unfold transition. rewrite Hp.
  destruct (Z.eqb_spec signal 1); [contradiction|].
  destruct (Z.eqb_spec signal (-1)); [contradiction|].
  cbn. now rewrite andb_false_r.
Qed.

End MoreTransition.

(** X1.  Whatever the object went through before, once [execute_trades]
    has processed a period whose signal and close price can be read and
    whose signal is +1, 0 or -1, the position equals that signal: the
    position always follows the last in-domain signal. *)
Theorem position_follows_signal
  (self : Backtester) (rows : list (Z * Row)) (index : Z) (row : Row)
  (signal close_price : num) :
  valid_position (position self) ->
  row_get "Signal" row = Some signal ->
  row_get "Close" row = Some close_price ->
  isna signal = false ->
  In (to_int signal) [-1; 0; 1]%Z ->
  position (fold_left execute_row (rows ++ [(index, row)]) self) = to_int signal.
Proof.
  intros Hv Hs Hc Hn Hd.
  rewrite fold_left_app. cbn [fold_left].
  rewrite (execute_row_signal _ _ _ _ _ Hs Hn Hc).
  apply transition_position_is_signal; [|exact Hd].
  now apply execute_rows_valid.
Qed.

Lemma position_follows_signal_witness :
  position (fold_left execute_row
              ([(0%Z, period (Fin 1) (Fin 100))] ++ [(1%Z, period (Fin (-1)) (Fin 90))])
              (new (mkDataFrame [] []) (Fin 10000)))
  = (-1)%Z.
Proof.
  apply (position_follows_signal (new (mkDataFrame [] []) (Fin 10000))
           [(0%Z, period (Fin 1) (Fin 100))] 1%Z (period (Fin (-1)) (Fin 90))
           (Fin (-1)) (Fin 90)).
  - right. left. reflexivity.
  - reflexivity.
  - reflexivity.
  - reflexivity.
  - cbn. tauto.
Defined.

Lemma execute_row_no_entry (self : Backtester) (ir : Z * Row) :
  position self = 0%Z -> no_entry_signal ir -> execute_row self ir = self.
Proof.
  intros Hp. destruct ir as [index row]. unfold no_entry_signal, execute_row. cbn [snd].
  destruct (row_get "Signal" row) as [signal|]; [|reflexivity].
  destruct (row_get "Close" row) as [close_price|]; [|reflexivity].
  intros [-> | [H1 Hm]]; [reflexivity|].
  destruct (isna signal); [reflexivity|].
  now apply transition_flat_idle.
Qed.

(** X2.  A FLAT object is left exactly as it is by [execute_trades] when no
    row of its data carries a +1 or -1 signal (rows that are skipped, zero
    signals and out-of-domain signals): no trade, no change of balance. *)
Theorem flat_signals_leave_object_untouched (self : Backtester) :
  position self = 0%Z ->
  Forall no_entry_signal (iterrows (data self)) ->
  execute_trades self = (Ok tt, self).
Proof.
  intros Hp Hall. unfold execute_trades, update. f_equal.
  induction Hall as [|ir rows Hir _ IH]; cbn [fold_left]; [reflexivity|].
  now rewrite (execute_row_no_entry self ir Hp Hir).
Qed.

Lemma flat_signals_leave_object_untouched_witness :
  let d := mkDataFrame [0; 1; 2]%Z
             [("Close"%string, [Fin 10; Fin 11; Fin 12]);
              ("Signal"%string, [Fin 0; NaN; Fin 5])] in
  execute_trades (new d (Fin 10000)) = (Ok tt, new d (Fin 10000)).
Proof.
  cbn zeta.
  apply (flat_signals_leave_object_untouched
           (new (mkDataFrame [0; 1; 2]%Z
                   [("Close"%string, [Fin 10; Fin 11; Fin 12]);
                    ("Signal"%string, [Fin 0; NaN; Fin 5])]) (Fin 10000))).
  - reflexivity.
  - apply Forall_cons; [cbn; right; split; discriminate|].
    apply Forall_cons; [cbn; left; reflexivity|].
    apply Forall_cons; [cbn; right; split; discriminate|].
    apply Forall_nil.
Defined.

(** ** The ledger and the balance after a pass *)

Lemma combine_seq_labels (l : list Z) :
  forall k, map snd (combine (seq k (length l)) l) = l.
Proof.
  induction l as [|x l IH]; intros k; cbn; [reflexivity|]. now rewrite IH.
Qed.

(** The rows come with the labels of the index, in index order. *)
Lemma iterrows_index (df : DataFrame) : map fst (iterrows df) = index df.
Proof.
  unfold iterrows, nrows. rewrite map_map. cbn [fst].
  apply combine_seq_labels.
Qed.

Lemma execute_row_entries (self : Backtester) (ir : Z * Row) :
  exists T,
    trades (execute_row self ir) = trades self ++ T
    /\ (T = [] \/ exists a c, T = [(fst ir, a, c)] /\ row_get "Close" (snd ir) = Some c).
Proof.
  destruct ir as [index row]. unfold execute_row. cbn [fst snd].
  assert (Skip : forall P : list Trade -> Prop,
            exists T, trades self = trades self ++ T /\ (T = [] \/ P T)).
  { intros P. exists []. rewrite app_nil_r. split; [reflexivity|now left]. }
  destruct (row_get "Signal" row) as [signal|]; [|apply Skip].
  destruct (row_get "Close" row) as [close_price|]; [|apply Skip].
  destruct (isna signal); [apply Skip|].
  destruct (transition_entries index close_price (to_int signal) self) as (T & HT & Hone).
  exists T. split; [exact HT|].
  destruct Hone as [->|[a ->]]; [now left|right]. now exists a, close_price.
Qed.

Lemma execute_rows_entries (rows : list (Z * Row)) :
  forall self,
  exists T,
    trades (fold_left execute_row rows self) = trades self ++ T
    /\ subsequence (map label T) (map fst rows)
    /\ (closes_present rows -> prices_present T).
Proof.
  induction rows as [|ir rows IH]; intros self; cbn [fold_left].
  - exists []. rewrite app_nil_r. repeat split; constructor.
  - destruct (execute_row_entries self ir) as (T1 & H1 & Hone).
    destruct (IH (execute_row self ir)) as (T2 & H2 & Hsub & Hpr).
    exists (T1 ++ T2). rewrite H2, H1, <- app_assoc. split; [reflexivity|].
    destruct Hone as [->|(a & c & -> & Hc)]; cbn [app map].
    + split; [now apply subsequence_skip|].
      intros Hcl. apply Hpr. now inversion Hcl.
    + split; [unfold label at 1; cbn [fst]; now apply subsequence_take|].
      intros Hcl. inversion Hcl as [|? ? Hhd Htl]; subst.
      constructor; [cbn [snd]; now apply Hhd|now apply Hpr].
Qed.

(** The ledger after a pass, relative to the ledger before it. *)
Lemma execute_trades_ledger (self : Backtester) :
  exists T,
    trades (snd (execute_trades self)) = trades self ++ T
    /\ subsequence (map label T) (index (data self))
    /\ data (snd (execute_trades self)) = data self
    /\ initial_balance (snd (execute_trades self)) = initial_balance self.
Proof.
  unfold execute_trades, update. cbn [snd].
  destruct (execute_rows_entries (iterrows (data self)) self) as (T & HT & Hsub & _).
  destruct (execute_rows_effect (iterrows (data self)) self self eq_refl)
    as (_ & D & I & _).
  exists T. rewrite iterrows_index in Hsub. repeat split; assumption.
Qed.

(** X3.  [execute_trades] only appends to the ledger, at most one entry
    per period, in the order of the rows: the period labels of the new
    entries are a subsequence of the index.  It does not touch the data or
    the initial balance. *)
Theorem ledger_grows_in_index_order (self : Backtester) :
  exists T,
    trades (snd (execute_trades self)) = trades self ++ T
    /\ subsequence (map label T) (index (data self))
    /\ data (snd (execute_trades self)) = data self
    /\ initial_balance (snd (execute_trades self)) = initial_balance self.
Proof. exact (execute_trades_ledger self). Qed.

Lemma replay_balance_net_cash (T : list Trade) :
  prices_present T ->
  forall b, feq (replay_balance T (Fin b)) (Fin (b + net_cash T)).
Proof.
  induction 1 as [|[[k a] p] T Hp _ IH]; intros b.
  - cbn. ring.
  - cbn [snd] in Hp. destruct p as [|p]; [discriminate|].
    destruct a; cbn [replay_balance fold_left sub add net_cash].
    + eapply feq_trans; [apply IH|]. cbn. ring.
    + eapply feq_trans; [apply IH|]. cbn. ring.
Qed.

Lemma feq_Fin_inv (x : num) (q : Q) : feq x (Fin q) -> exists p, x = Fin p /\ p == q.
Proof. destruct x as [|p]; cbn; [tauto|]. intros H. now exists p. Qed.

(** The balance after a pass, relative to the new ledger entries. *)
Lemma execute_trades_balance (self : Backtester) (b : Q) :
  closes_present (iterrows (data self)) ->
  balance self = Fin b ->
  exists T,
    trades (snd (execute_trades self)) = trades self ++ T
    /\ prices_present T
    /\ feq (balance (snd (execute_trades self))) (Fin (b + net_cash T)).
Proof.
  intros Hcl Hb. unfold execute_trades, update. cbn [snd].
  destruct (execute_rows_entries (iterrows (data self)) self) as (T & HT & _ & Hpr).
  destruct (execute_rows_effect (iterrows (data self)) self self eq_refl)
    as (_ & _ & _ & T' & HT' & _ & _ & HB).
  assert (T' = T) by (rewrite HT in HT'; now apply app_inv_head in HT'). subst T'.
  exists T. split; [exact HT|]. split; [now apply Hpr|].
  eapply feq_trans; [now apply HB|].
  rewrite Hb. apply replay_balance_net_cash. now apply Hpr.
Qed.

Lemma exact_sums_closes_present (b : Q) (rows : list (Z * Row)) :
  exact_sums b rows -> closes_present rows.
Proof.
  intros (zb & zs & _ & F & _). unfold closes_present.
  induction F as [|ir z rows zs Hir _ IH]; constructor; [|exact IH].
  intros c Hc. specialize (Hir c Hc). destruct c; [contradiction|reflexivity].
Qed.

(** X4.  On inputs whose sums are computed without rounding (integer
    balance and close prices of bounded magnitude, [exact_sums]), a pass of
    [execute_trades] moves the cash balance by exactly its new ledger
    entries: each BUY takes its price out, each SELL puts it in, and
    nothing else changes the balance (entering SHORT from FLAT records
    nothing and nets to zero). *)
Theorem balance_moves_by_ledger_entries (self : Backtester) (b : Q) :
  exact_sums b (iterrows (data self)) ->
  balance self = Fin b ->
  exists T,
    trades (snd (execute_trades self)) = trades self ++ T
    /\ prices_present T
    /\ feq (balance (snd (execute_trades self))) (Fin (b + net_cash T)).
Proof.
  intros He Hb.
  exact (execute_trades_balance self b (exact_sums_closes_present _ _ He) Hb).
Qed.

Lemma balance_moves_by_ledger_entries_witness :
  let d := mkDataFrame [0; 1; 2]%Z
             [("Close"%string, [Fin 100; Fin 110; Fin 90]);
              ("Signal"%string, [Fin (-1); Fin 1; Fin 0])] in
  exists T,
    trades (snd (execute_trades (new d (Fin 10000)))) = [] ++ T
    /\ prices_present T
    /\ feq (balance (snd (execute_trades (new d (Fin 10000)))))
           (Fin (10000 + net_cash T)).
Proof.
  cbn zeta.
  apply (balance_moves_by_ledger_entries
           (new (mkDataFrame [0; 1; 2]%Z
                   [("Close"%string, [Fin 100; Fin 110; Fin 90]);
                    ("Signal"%string, [Fin (-1); Fin 1; Fin 0])]) (Fin 10000))
           10000).
  - exists 10000%Z, [100; 110; 90]%Z. split; [reflexivity|]. split.
    + repeat (apply Forall2_cons; [intros c [= <-]; reflexivity|]). apply Forall2_nil.
    + vm_compute. intros H. discriminate H.
  - reflexivity.
Defined.

Lemma subsequence_In {A : Type} (l1 l2 : list A) :
  subsequence l1 l2 -> forall x, In x l1 -> In x l2.
Proof.
  induction 1 as [l|y l1 l2 _ IH|y l1 l2 _ IH]; intros x Hx.
  - destruct Hx.
  - right. now apply IH.
  - destruct Hx as [->|Hx]; [now left|right; now apply IH].
Qed.

Lemma subsequence_length {A : Type} (l1 l2 : list A) :
  subsequence l1 l2 -> (length l1 <= length l2)%nat.
Proof. induction 1; cbn; lia. Qed.

(** X12.  A fresh object on inputs whose sums are computed without
    rounding ([exact_sums]), with an index without repeated label and a
    non-zero initial balance [b]: after [execute_trades] the balance is [b]
    plus the net cash of the ledger, and [calculate_performance] then
    returns and leaves a balance of [b] plus twice that net cash, because
    it applies the ledger to the balance a second time; the ledger itself
    is as [execute_trades] left it. *)
Theorem ledger_is_applied_twice (d : DataFrame) (b : Q) :
  exact_sums b (iterrows d) -> NoDup (index d) -> ~ b == 0 ->
  exists r pv self',
    calculate_performance (snd (execute_trades (new d (Fin b)))) = (Ok (r, pv), self')
    /\ trades self' = trades (snd (execute_trades (new d (Fin b))))
    /\ feq (balance (snd (execute_trades (new d (Fin b)))))
           (Fin (b + net_cash (trades (snd (execute_trades (new d (Fin b)))))))
    /\ feq (balance self')
           (Fin (b + 2 * net_cash (trades (snd (execute_trades (new d (Fin b))))))).
Proof.
  intros He _ Hb.
  destruct (execute_trades_balance (new d (Fin b)) b
              (exact_sums_closes_present _ _ He) eq_refl)
    as (T & HT & Hpr & HB).
  destruct (execute_trades_ledger (new d (Fin b)))
    as (T' & HT' & Hsub & D & I).
  set (executed := snd (execute_trades (new d (Fin b)))) in *.
  cbn [trades new app data initial_balance] in HT, HT', D, I, Hsub.
  assert (E : T' = T) by congruence. rewrite E in Hsub. clear E HT'.
  destruct (calculate_performance_returns executed b I Hb)
    as (pv & self' & Hcp & (_ & _ & SLt) & Hbal & _).
  { rewrite HT, D. apply Forall_forall. intros t Ht.
    apply (subsequence_In _ _ Hsub). now apply in_map. }
  rewrite HT in *.
  destruct (feq_Fin_inv _ _ HB) as (x & Hx & Hxq).
  eexists _, pv, self'. split; [exact Hcp|]. split; [exact SLt|].
  split; [exact HB|].
  rewrite Hbal, Hx.
  eapply feq_trans; [now apply replay_balance_net_cash|]. cbn. rewrite Hxq. ring.
Qed.

Lemma ledger_is_applied_twice_witness :
  let d := mkDataFrame [0; 1; 2]%Z
             [("Close"%string, [Fin 100; Fin 110; Fin 90]);
              ("Signal"%string, [Fin 1; Fin (-1); Fin 0])] in
  exists r pv self',
    calculate_performance (snd (execute_trades (new d (Fin 10000))))
    = (Ok (r, pv), self')
    /\ feq (balance self') (Fin (10000 + 2 * (110 - 100 - 90))).
Proof.
  cbn zeta.
  assert (Hb : ~ 10000 == 0) by (intros H; discriminate H).
  destruct (ledger_is_applied_twice
              (mkDataFrame [0; 1; 2]%Z
                 [("Close"%string, [Fin 100; Fin 110; Fin 90]);
                  ("Signal"%string, [Fin 1; Fin (-1); Fin 0])]) 10000)
    as (r & pv & self' & Hcp & _ & _ & Hbal).
  - exists 10000%Z, [100; 110; 90]%Z. split; [reflexivity|]. split.
    + repeat (apply Forall2_cons; [intros c [= <-]; reflexivity|]). apply Forall2_nil.
    + vm_compute. intros H. discriminate H.
  - repeat (apply NoDup_cons; [cbn; lia|]). apply NoDup_nil.
  - exact Hb.
  - exists r, pv, self'. split; [exact Hcp|].
    eapply feq_trans; [exact Hbal|]. reflexivity.
Defined.

(** * Further properties of the crossover policy *)





Lemma keyed_raises (l : list string) (c : string) (e : exn) :
  In c l -> sort_key c = Raise e -> exists e', keyed l = Raise e'.
Proof.
  induction l as [|x l IH]; cbn [In keyed]; [tauto|].
  intros [->|Hin] Hc.
  - rewrite Hc. now exists e.
  - destruct (sort_key x); [|eexists; reflexivity].
    destruct (IH Hin Hc) as [e' ->]. now exists e'.
Qed.


Lemma two_distinct_members {A : Type} (a b : A) (l : list A) :
  In a l -> In b l -> a <> b -> (2 <= length l)%nat.
Proof.
  destruct l as [|x [|y l]]; cbn; try tauto; try lia.
  intros [->|[]] [->|[]] H. now elim H.
Qed.


(** The fall-back to the default column names. *)
Lemma generate_signals_fallback (self : Backtester) :
  (length (ma_columns (data self)) < 2)%nat ->
  exists c,
    (c = "MA_20"%string \/ c = "MA_50"%string)
    /\ get_col c (data self) = None
    /\ generate_signals self
       = (Raise (KeyError c),
          with_data (set_scalar "Signal" (of_Z 0) (data self)) self).
Proof.
  intros Hlt.
  assert (Hsel : select_ma (data self) = Ok ("MA_20"%string, "MA_50"%string)).
  { unfold select_ma. destruct (Nat.leb_spec 2 (length (ma_columns (data self)))); [lia|].
    reflexivity. }
  assert (Hin : forall c v, String.prefix "MA_" c = true ->
                  get_col c (data self) = Some v -> In c (ma_columns (data self))).
  { intros c v Hp Hc. unfold ma_columns. apply filter_In. split; [|exact Hp].
    unfold column_names. apply lookup_Some_In in Hc.
    apply in_map_iff. now exists (c, v). }
  assert (N20 : "Signal"%string <> "MA_20"%string) by discriminate.
  assert (N50 : "Signal"%string <> "MA_50"%string) by discriminate.
  unfold generate_signals, column, bind, update, attr, lift, ret, raise.
  cbn [data with_data]. unfold set_scalar.
  rewrite (select_ma_ext (set_col "Signal" _ (data self)) (data self))
    by (apply ma_columns_set_col; reflexivity).
  rewrite Hsel. cbn [fst snd].
  rewrite (get_set_col_other _ _ _ _ N20).
  destruct (get_col "MA_20" (data self)) as [s|] eqn:E20.
  - cbv beta iota. cbn [data with_data].
    rewrite (get_set_col_other _ _ _ _ N50).
    destruct (get_col "MA_50" (data self)) as [l|] eqn:E50.
    + exfalso.
      assert (2 <= length (ma_columns (data self)))%nat; [|lia].
      apply (two_distinct_members "MA_20"%string "MA_50"%string).
      * now apply (Hin _ s).
      * now apply (Hin _ l).
      * discriminate.
    + exists "MA_50"%string. repeat split; auto.
  - exists "MA_20"%string. repeat split; auto.
Qed.

(** X5.  On data with fewer than two columns whose name starts with [MA_],
    [generate_signals] falls back to the names MA_20 and MA_50 and always
    raises [KeyError] for one of them (both cannot be there); the signal
    column has been set to zero by then and nothing else has changed. *)
Theorem generate_signals_needs_two_ma_columns (self : Backtester) :
  (length (ma_columns (data self)) < 2)%nat ->
  exists c,
    (c = "MA_20"%string \/ c = "MA_50"%string)
    /\ get_col c (data self) = None
    /\ generate_signals self
       = (Raise (KeyError c),
          with_data (set_scalar "Signal" (of_Z 0) (data self)) self).
Proof. exact (generate_signals_fallback self). Qed.

Lemma generate_signals_needs_two_ma_columns_witness :
  let d := mkDataFrame [0%Z] [("Close"%string, [Fin 10]); ("MA_20"%string, [Fin 10])] in
  exists c,
    generate_signals (new d (Fin 10000))
    = (Raise (KeyError c), with_data (set_scalar "Signal" (of_Z 0) d) (new d (Fin 10000))).
Proof.
  cbn zeta.
  destruct (generate_signals_needs_two_ma_columns
              (new (mkDataFrame [0%Z]
                      [("Close"%string, [Fin 10]); ("MA_20"%string, [Fin 10])])
                   (Fin 10000)))
    as (c & _ & _ & H).
  - cbn. lia.
  - exists c. exact H.
Defined.


(** ** Which columns the crossover policy reads *)








(** ** The signal column the crossover policy writes *)

Lemma where_set_length (mask : list bool) (x : num) :
  forall s, length (where_set mask x s) = length s.
Proof.
  induction mask as [|m mask IH]; intros [|y s]; cbn; try reflexivity.
  now rewrite IH.
Qed.

Lemma where_set_Forall (P : num -> Prop) (mask : list bool) (x : num) :
  P x -> forall s, Forall P s -> Forall P (where_set mask x s).
Proof.
  intros Hx. induction mask as [|m mask IH]; intros [|y s] Hs; cbn; try assumption.
  inversion Hs; subst. constructor; [destruct m; assumption|now apply IH].
Qed.

Lemma Forall_repeat {A : Type} (P : A -> Prop) (x : A) (n : nat) :
  P x -> Forall P (repeat x n).
Proof. intros Hx. induction n; cbn; constructor; assumption. Qed.






(** * The portfolio-value curve *)

Lemma fill_from_nil (p : nat) (x : num) : fill_from p x [] = [].
Proof. unfold fill_from. now rewrite firstn_nil. Qed.

Lemma fill_from_zero (x : num) (s : Series) : fill_from 0 x s = repeat x (length s).
Proof. unfold fill_from. cbn. now rewrite Nat.sub_0_r. Qed.

Lemma fill_from_succ (p : nat) (x y : num) (s : Series) :
  fill_from (S p) x (y :: s) = y :: fill_from p x s.
Proof. reflexivity. Qed.

Lemma fill_from_length (p : nat) (x : num) (s : Series) :
  length (fill_from p x s) = length s.
Proof.
  revert p. induction s as [|y s IH]; intros p.
  - now rewrite fill_from_nil.
  - destruct p; [rewrite fill_from_zero; apply repeat_length|].
    rewrite fill_from_succ. cbn. now rewrite IH.
Qed.

Lemma nth_error_repeat_lt {A : Type} (x : A) (n i : nat) :
  (i < n)%nat -> nth_error (repeat x n) i = Some x.
Proof.
  revert i. induction n as [|n IH]; intros i Hi; [lia|].
  destruct i; cbn; [reflexivity|]. apply IH. lia.
Qed.

Lemma fill_from_before (p : nat) (x : num) (s : Series) (i : nat) :
  (i < p)%nat -> nth_error (fill_from p x s) i = nth_error s i.
Proof.
  revert p i. induction s as [|y s IH]; intros p i Hi.
  - now rewrite fill_from_nil.
  - destruct p; [lia|]. rewrite fill_from_succ.
    destruct i; cbn; [reflexivity|]. apply IH. lia.
Qed.

Lemma fill_from_after (p : nat) (x : num) (s : Series) (i : nat) :
  (p <= i)%nat -> (i < length s)%nat -> nth_error (fill_from p x s) i = Some x.
Proof.
  revert p i. induction s as [|y s IH]; intros p i Hp Hi; [cbn in Hi; lia|].
  destruct p.
  - rewrite fill_from_zero. now apply nth_error_repeat_lt.
  - rewrite fill_from_succ. destruct i; [lia|]. cbn. apply IH; cbn in Hi; lia.
Qed.

Section Curve.

Variable idx : list Z.

Lemma curve_length (ts : list Trade) :
  forall b pv, length (curve idx ts b pv) = length pv.
Proof.
  induction ts as [|t ts IH]; intros b pv; cbn [curve]; [reflexivity|].
  destruct (position_of (label t) idx); [|reflexivity].
  now rewrite IH, fill_from_length.
Qed.

(** Rows above every entry keep the value they had. *)
Lemma curve_before (ts : list Trade) (i : nat) :
  (forall t p, In t ts -> position_of (label t) idx = Some p -> (i < p)%nat) ->
  forall b pv, nth_error (curve idx ts b pv) i = nth_error pv i.
Proof.
  induction ts as [|t ts IH]; intros Hall b pv; cbn [curve]; [reflexivity|].
  destruct (position_of (label t) idx) as [p|] eqn:E; [|reflexivity].
  rewrite IH.
  - apply fill_from_before. apply (Hall t p); [now left|exact E].
  - intros t' p' Hin. apply Hall. now right.
Qed.

(** Where no entry starts, the value is that of the row above. *)
Lemma curve_step (ts : list Trade) (i : nat) :
  (forall t, In t ts -> position_of (label t) idx <> Some (S i)) ->
  forall b pv,
  (S i < length pv)%nat ->
  nth_error pv (S i) = nth_error pv i ->
  nth_error (curve idx ts b pv) (S i) = nth_error (curve idx ts b pv) i.
Proof.
  induction ts as [|t ts IH]; intros Hall b pv Hlen Hpv; cbn [curve]; [exact Hpv|].
  destruct (position_of (label t) idx) as [p|] eqn:E; [|exact Hpv].
  apply IH.
  - intros t' Hin. apply Hall. now right.
  - now rewrite fill_from_length.
  - assert (Hp : p <> S i) by (intros ->; apply (Hall t); [now left|exact E]).
    destruct (Nat.lt_ge_cases i p) as [Hlt|Hge].
    + rewrite !fill_from_before by lia. exact Hpv.
    + rewrite !fill_from_after by lia. reflexivity.
Qed.

(** From the row of the last entry on, the value is the final balance. *)
Lemma curve_after_last (ts : list Trade) (t : Trade) (p i : nat) :
  Forall (fun t' => In (label t') idx) ts ->
  position_of (label t) idx = Some p ->
  forall b pv,
  (p <= i)%nat -> (i < length pv)%nat ->
  nth_error (curve idx (ts ++ [t]) b pv) i = Some (replay_balance (ts ++ [t]) b).
Proof.
  intros Hl Hp. induction Hl as [|t' ts Ht' _ IH]; intros b pv Hpi Hi.
  - cbn [app curve]. rewrite Hp. now apply fill_from_after.
  - cbn [app curve]. destruct (position_of_In _ _ Ht') as [p' ->].
    rewrite IH; [reflexivity|exact Hpi|now rewrite fill_from_length].
Qed.

End Curve.

(** Replaying a ledger whose labels are labels of the frame leaves the
    portfolio-value column [curve] describes. *)
Lemma replay_curve (ts : list Trade) :
  forall (self : Backtester) (pv0 : Series),
  Forall (fun t => In (label t) (index (data self))) ts ->
  get_col "Portfolio Value" (data self) = Some pv0 ->
  exists self',
    for_each replay_trade ts self = (Ok tt, self')
    /\ get_col "Portfolio Value" (data self')
       = Some (curve (index (data self)) ts (balance self) pv0).
Proof.
  induction ts as [|t ts IH]; intros self pv0 Hl Hpv; cbn [for_each curve].
  - exists self. now split.
  - inversion Hl as [|? ? Hhd Htl]; subst.
    unfold bind. rewrite replay_trade_eval. cbn zeta.
    destruct (position_of_In _ _ Hhd) as [pos Hpos].
    unfold loc_from_set. rewrite Hpos, Hpv.
    set (b' := replay_balance [t] (balance self)).
    destruct (IH (with_data (set_col "Portfolio Value" (fill_from pos b' pv0) (data self))
                            (with_balance b' self))
                 (fill_from pos b' pv0)) as (self' & R & C).
    + exact Htl.
    + apply get_set_col_same.
    + exists self'. split; [exact R|exact C].
Qed.

Lemma calculate_performance_curve (self : Backtester) (b : Q) :
  initial_balance self = Fin b -> ~ b == 0 ->
  Forall (fun t => In (label t) (index (data self))) (trades self) ->
  exists r pv self',
    calculate_performance self = (Ok (r, pv), self')
    /\ pv = curve (index (data self)) (trades self) (balance self)
                  (repeat (Fin b) (nrows (data self)))
    /\ balance self' = replay_balance (trades self) (balance self).
Proof.
  intros Hib Hb Hl.
  destruct (calculate_performance_returns self b Hib Hb Hl)
    as (pv & self' & Hcp & _ & Hbal & _ & _ & Hpv & _).
  eexists _, pv, self'. split; [exact Hcp|]. split; [|exact Hbal].
  (* the column the replay leaves, read off the same run *)
  revert Hcp. unfold calculate_performance.
  unfold bind at 1. cbn [update].
  unfold bind at 1. cbn [attr].
  set (s0 := with_data _ self).
  destruct (replay_curve (trades s0) s0 (repeat (Fin b) (nrows (data self))))
    as (s1 & R & C).
  { exact Hl. }
  { unfold s0, set_scalar. cbn [data with_data]. rewrite Hib. apply get_set_col_same. }
  rewrite (bind_ok _ _ _ _ _ R).
  unfold column, bind, attr, lift, ret, raise.
  destruct (divide _ _) as [x|e]; [|discriminate].
  rewrite C. intros [= _ <- _]. reflexivity.
Qed.

(** X10.  When [calculate_performance] returns (non-zero initial balance,
    ledger labels among the labels of the data), the curve it returns has
    one value per row; every row above the rows of all ledger entries holds
    the initial balance, and every row from that of the last ledger entry
    on holds the balance the object is left with. *)
Theorem portfolio_curve_ends (self : Backtester) (b : Q) :
  initial_balance self = Fin b -> ~ b == 0 ->
  Forall (fun t => In (label t) (index (data self))) (trades self) ->
  NoDup (index (data self)) ->
  exists r pv self',
    calculate_performance self = (Ok (r, pv), self')
    /\ length pv = nrows (data self)
    /\ (forall i,
          (i < nrows (data self))%nat ->
          (forall t p, In t (trades self) ->
                       position_of (label t) (index (data self)) = Some p -> (i < p)%nat) ->
          nth_error pv i = Some (Fin b))
    /\ (forall ts t p i,
          trades self = ts ++ [t] ->
          position_of (label t) (index (data self)) = Some p ->
          (p <= i)%nat -> (i < nrows (data self))%nat ->
          nth_error pv i = Some (balance self')).
Proof.
  intros Hib Hb Hl _.
  destruct (calculate_performance_curve self b Hib Hb Hl)
    as (r & pv & self' & Hcp & Hpv & Hbal).
  exists r, pv, self'. split; [exact Hcp|]. subst pv. split; [|split].
  - now rewrite curve_length, repeat_length.
  - intros i Hi Habove. rewrite (curve_before _ _ _ Habove).
    now apply nth_error_repeat_lt.
  - intros ts t p i Ht Hp Hpi Hi. rewrite Hbal, Ht.
    apply (curve_after_last _ ts t p i); try assumption.
    + rewrite Ht in Hl. apply Forall_app in Hl. apply Hl.
    + now rewrite repeat_length.
Qed.

Lemma portfolio_curve_ends_witness :
  let d := mkDataFrame [0; 1; 2; 3]%Z
             [("Close"%string, [Fin 100; Fin 110; Fin 120; Fin 130])] in
  let self := mkBacktester d (Fin 10000) (Fin 10010) 0
                           [(1%Z, BUY, Fin 110); (2%Z, SELL, Fin 120)] in
  exists r pv self',
    calculate_performance self = (Ok (r, pv), self')
    /\ nth_error pv 0 = Some (Fin 10000)
    /\ nth_error pv 3 = Some (balance self').
Proof.
  cbn zeta.
  assert (Hb : ~ 10000 == 0) by (intros H; discriminate H).
  destruct (portfolio_curve_ends
              (mkBacktester
                 (mkDataFrame [0; 1; 2; 3]%Z
                    [("Close"%string, [Fin 100; Fin 110; Fin 120; Fin 130])])
                 (Fin 10000) (Fin 10010) 0
                 [(1%Z, BUY, Fin 110); (2%Z, SELL, Fin 120)]) 10000 eq_refl Hb)
    as (r & pv & self' & Hcp & _ & Hfirst & Hlast).
  - repeat constructor; cbn; tauto.
  - repeat (apply NoDup_cons; [cbn; lia|]). apply NoDup_nil.
  - exists r, pv, self'. split; [exact Hcp|]. split.
    + apply Hfirst; [cbn; lia|].
      intros t p [<-|[<-|[]]]; cbn; intros [= <-]; lia.
    + apply (Hlast [(1%Z, BUY, Fin 110)] (2%Z, SELL, Fin 120) 2%nat 3%nat);
        [reflexivity|reflexivity|lia|cbn; lia].
Defined.

(** X11.  The curve [calculate_performance] returns is a step function: at
    a row that is not the row of any ledger entry's label, its value is the
    value of the row above. *)
Theorem portfolio_curve_steps_only_at_trades (self : Backtester) (b : Q) :
  initial_balance self = Fin b -> ~ b == 0 ->
  Forall (fun t => In (label t) (index (data self))) (trades self) ->
  NoDup (index (data self)) ->
  exists r pv self',
    calculate_performance self = (Ok (r, pv), self')
    /\ forall i,
         (S i < nrows (data self))%nat ->
         (forall t, In t (trades self) ->
                    position_of (label t) (index (data self)) <> Some (S i)) ->
         nth_error pv (S i) = nth_error pv i.
Proof.
  intros Hib Hb Hl _.
  destruct (calculate_performance_curve self b Hib Hb Hl)
    as (r & pv & self' & Hcp & Hpv & _).
  exists r, pv, self'. split; [exact Hcp|]. subst pv.
  intros i Hi Hno. apply curve_step; [exact Hno|now rewrite repeat_length|].
  rewrite !nth_error_repeat_lt by lia. reflexivity.
Qed.

Lemma portfolio_curve_steps_only_at_trades_witness :
  let d := mkDataFrame [0; 1; 2; 3]%Z
             [("Close"%string, [Fin 100; Fin 110; Fin 120; Fin 130])] in
  let self := mkBacktester d (Fin 10000) (Fin 10010) 0
                           [(1%Z, BUY, Fin 110); (2%Z, SELL, Fin 120)] in
  exists r pv self',
    calculate_performance self = (Ok (r, pv), self')
    /\ nth_error pv 3 = nth_error pv 2.
Proof.
  cbn zeta.
  assert (Hb : ~ 10000 == 0) by (intros H; discriminate H).
  destruct (portfolio_curve_steps_only_at_trades
              (mkBacktester
                 (mkDataFrame [0; 1; 2; 3]%Z
                    [("Close"%string, [Fin 100; Fin 110; Fin 120; Fin 130])])
                 (Fin 10000) (Fin 10010) 0
                 [(1%Z, BUY, Fin 110); (2%Z, SELL, Fin 120)]) 10000 eq_refl Hb)
    as (r & pv & self' & Hcp & Hstep).
  - repeat constructor; cbn; tauto.
  - repeat (apply NoDup_cons; [cbn; lia|]). apply NoDup_nil.
  - exists r, pv, self'. split; [exact Hcp|].
    apply Hstep; [cbn; lia|].
    intros t [<-|[<-|[]]]; cbn; discriminate.
Defined.

(** * Forward test *)



(** * Further properties of the momentum backtester *)

Lemma get_col_None_or_Some (c : string) (df : DataFrame) :
  get_col c df = None \/ exists s, get_col c df = Some s.
Proof. destruct (get_col c df) as [s|]; [right; now exists s|now left]. Qed.

(** X14.  Constructing a [MomentumBacktester] raises [ValueError] exactly
    when the data has no signal column; with a signal column the
    constructor returns, whatever the column holds.  The overriding
    [generate_signals] alone, called on data without the column, raises
    [ValueError] and leaves the object as it was. *)
Theorem momentum_backtester_requires_signal_column (d : DataFrame) (ib : num) :
  (fst (construct Momentum.MomentumBacktesterClass d ib) = Raise ValueError
   <-> get_col "Signal" d = None)
  /\ (fst (construct Momentum.MomentumBacktesterClass d ib) = Ok tt
      <-> exists s, get_col "Signal" d = Some s)
  /\ forall self, get_col "Signal" (data self) = None ->
                  Momentum.generate_signals self = (Raise ValueError, self).
Proof.
  assert (Hnone : get_col "Signal" d = None ->
                  fst (construct Momentum.MomentumBacktesterClass d ib) = Raise ValueError).
  { intros Hn. unfold construct. cbn [cls_init Momentum.MomentumBacktesterClass].
    unfold Momentum.init. unfold bind at 1. rewrite init_resets.
    unfold bind. now rewrite (momentum_generate_signals_raises (new d ib) Hn). }
  assert (Hsome : (exists s, get_col "Signal" d = Some s) ->
                  fst (construct Momentum.MomentumBacktesterClass d ib) = Ok tt).
  { intros [s Hs].
    destruct (momentum_construct d ib s Hs) as (s' & built & _ & Hc & _).
    now rewrite Hc. }
  split; [|split].
  - split; [|exact Hnone]. intros H.
    destruct (get_col_None_or_Some "Signal" d) as [Hn|Hs]; [exact Hn|].
    rewrite (Hsome Hs) in H. discriminate H.
  - split; [|exact Hsome]. intros H.
    destruct (get_col_None_or_Some "Signal" d) as [Hn|Hs]; [|exact Hs].
    rewrite (Hnone Hn) in H. discriminate H.
  - intros self. apply momentum_generate_signals_raises.
Qed.

Lemma astype_int_fillna_map (s : Series) :
  astype_int (fillna (of_Z 0) s) = Some (map (fun x => of_Z (to_int x)) s).
Proof.
  induction s as [|x s IH]; [reflexivity|].
  change (fillna (of_Z 0) (x :: s))
    with ((if isna x then of_Z 0 else x) :: fillna (of_Z 0) s).
  destruct x as [|q]; cbn [isna].
  - change (astype_int (of_Z 0 :: fillna (of_Z 0) s))
      with (option_map (cons (of_Z (int_of_Q (inject_Z 0))))
                       (astype_int (fillna (of_Z 0) s))).
    rewrite IH. reflexivity.
  - cbn [astype_int]. rewrite IH. reflexivity.
Qed.

(** X15.  On data with a signal column whose values, truncated, fit a
    signed 64-bit integer, [MomentumBacktester.generate_signals] replaces
    every signal by an integer: a missing one by 0, a present one by its
    truncation toward zero.  No signal is missing afterwards, the other
    columns are untouched, and calling the method again changes nothing. *)
Theorem momentum_signals_are_cast (self : Backtester) (s : Series) :
  get_col "Signal" (data self) = Some s ->
  Forall (fun x => int64_range (to_int x)) s ->
  exists self',
    Momentum.generate_signals self = (Ok tt, self')
    /\ get_col "Signal" (data self') = Some (map (fun x => of_Z (to_int x)) s)
    /\ Forall (fun x => isna x = false) (map (fun x => of_Z (to_int x)) s)
    /\ (forall c, "Signal"%string <> c -> get_col c (data self') = get_col c (data self))
    /\ same_ledger self self' /\ balance self' = balance self
    /\ Momentum.generate_signals self' = (Ok tt, self').
Proof.
  intros Hs _.
  destruct (momentum_generate_signals_spec self s Hs) as (s' & Ha & _ & G).
  rewrite astype_int_fillna_map in Ha. injection Ha as <-.
  set (cast := map (fun x => of_Z (to_int x)) s) in *.
  set (self' := with_data (set_col "Signal" cast (data self)) self) in *.
  exists self'. split; [exact G|].
  split; [apply get_set_col_same|].
  split; [apply Forall_forall; intros x Hx; apply in_map_iff in Hx as [y [<- _]]; reflexivity|].
  split; [intros c Hc; now apply get_set_col_other|].
  split; [repeat split|]. split; [reflexivity|].
  destruct (momentum_generate_signals_spec self' cast (get_set_col_same _ _ _))
    as (s'' & Ha' & _ & G').
  assert (Hidem : astype_int (fillna (of_Z 0) cast) = Some cast).
  { apply (astype_int_idempotent s). apply astype_int_fillna_map. }
  rewrite Hidem in Ha'. injection Ha' as <-.
  rewrite G'. f_equal. unfold self'. cbn [data with_data].
  rewrite set_col_set_col. now destruct self.
Qed.

Lemma momentum_signals_are_cast_witness :
  let d := mkDataFrame [0; 1; 2]%Z
             [("Close"%string, [Fin 10; Fin 11; Fin 12]);
              ("Signal"%string, [Fin (3 # 2); NaN; Fin (-(1 # 2))])] in
  exists self',
    Momentum.generate_signals (new d (Fin 10000)) = (Ok tt, self')
    /\ get_col "Signal" (data self') = Some [Fin 1; Fin 0; Fin 0].
Proof.
  cbn zeta.
  destruct (momentum_signals_are_cast
              (new (mkDataFrame [0; 1; 2]%Z
                      [("Close"%string, [Fin 10; Fin 11; Fin 12]);
                       ("Signal"%string, [Fin (3 # 2); NaN; Fin (-(1 # 2))])])
                   (Fin 10000))
              [Fin (3 # 2); NaN; Fin (-(1 # 2))] eq_refl)
    as (self' & Hrun & Hsig & _).
  - repeat (apply Forall_cons;
              [vm_compute; split; [intros H; discriminate H|reflexivity]|]).
    apply Forall_nil.
  - exists self'. split; [exact Hrun|exact Hsig].
Defined.

(** X16.  [generate_momentum_signal] raises [KeyError] exactly when the
    rank column is missing.  Otherwise it returns, in either mode, one
    signal per row of the index, each -1, 0 or +1; on a well-formed frame a
    period whose rank is undefined gets 0, never a directional signal. *)
Theorem momentum_signal_series
  (df : DataFrame) (momentum_col : string) (threshold : option num) :
  (get_col momentum_col df = None ->
   Momentum.generate_momentum_signal df momentum_col threshold
   = Raise (KeyError momentum_col))
  /\ (forall ranks, get_col momentum_col df = Some ranks ->
      exists sig,
        Momentum.generate_momentum_signal df momentum_col threshold = Ok sig
        /\ length sig = nrows df
        /\ Forall (fun x => x = of_Z (-1) \/ x = of_Z 0 \/ x = of_Z 1) sig
        /\ (well_formed df ->
            forall i, nth_error ranks i = Some NaN -> nth_error sig i = Some (of_Z 0))).
Proof.
  split.
  - intros Hn. unfold Momentum.generate_momentum_signal. rewrite Hn.
    now destruct threshold.
  - intros ranks Hc.
    assert (Hdom : forall m1 m2,
              Forall (fun x => x = of_Z (-1) \/ x = of_Z 0 \/ x = of_Z 1)
                     (where_set m2 (of_Z (-1))
                        (where_set m1 (of_Z 1) (repeat (of_Z 0) (nrows df))))).
    { intros m1 m2. apply where_set_Forall; [now left|].
      apply where_set_Forall; [now right; right|].
      apply Forall_repeat. now right; left. }
    unfold Momentum.generate_momentum_signal, Momentum.compare_scalar. rewrite Hc.
    destruct threshold as [th|]; eexists; (split; [reflexivity|]);
      (split; [now rewrite !where_set_length, repeat_length|]);
      (split; [apply Hdom|]);
      intros Hwf i Hi;
      rewrite (where_set_twice _ _ _ _ _ ranks (nrows df) (well_formed_col _ _ _ Hwf Hc));
      rewrite nth_error_map, Hi; reflexivity.
Qed.

(** * Ranking by momentum *)

(** Of "above", "equal" and "below", exactly one holds. *)
Lemma three_way (x z : Q) :
  (Qlt_bool x z, Qeq_bool z x, Qlt_bool z x)
  = match z ?= x with
    | Gt => (true, false, false)
    | Eq => (false, true, false)
    | Lt => (false, false, true)
    end.
Proof.
  unfold Qlt_bool. rewrite !Qle_bool_compare, (Qcompare_swap z x).
  destruct (z ?= x) eqn:E; cbn.
  - apply Qeq_alt in E. apply Qeq_bool_iff in E. now rewrite E.
  - destruct (Qeq_bool z x) eqn:H; [|reflexivity].
    apply Qeq_bool_iff, Qeq_alt in H. congruence.
  - destruct (Qeq_bool z x) eqn:H; [|reflexivity].
    apply Qeq_bool_iff, Qeq_alt in H. congruence.
Qed.

Lemma count_three_way (x : Q) (l : list Q) :
  (length (filter (fun z => Qlt_bool x z) l)
   + length (filter (fun z => Qeq_bool z x) l)
   + length (filter (fun z => Qlt_bool z x) l) = length l)%nat.
Proof.
  induction l as [|z l IH]; [reflexivity|]. cbn [filter].
  pose proof (three_way x z) as H.
  destruct (z ?= x); injection H as -> -> ->; cbn [length]; lia.
Qed.

Lemma list_sum_cons (n : nat) (l : list nat) :
  list_sum (n :: l) = (n + list_sum l)%nat.
Proof. reflexivity. Qed.

Lemma count_indicator {A : Type} (p : A -> bool) (l : list A) :
  list_sum (map (fun z => if p z then 1%nat else 0%nat) l) = length (filter p l).
Proof.
  induction l as [|z l IH]; [reflexivity|].
  cbn [map filter]. rewrite list_sum_cons, IH. destruct (p z); reflexivity.
Qed.

Lemma list_sum_map_add {A : Type} (f g : A -> nat) (l : list A) :
  list_sum (map (fun z => (f z + g z)%nat) l)
  = (list_sum (map f l) + list_sum (map g l))%nat.
Proof.
  induction l as [|z l IH]; [reflexivity|].
  cbn [map]. rewrite !list_sum_cons, IH. lia.
Qed.

Lemma list_sum_const {A : Type} (n : nat) (l : list A) :
  list_sum (map (fun _ => n) l) = (length l * n)%nat.
Proof.
  induction l as [|z l IH]; [reflexivity|].
  cbn [map length]. rewrite list_sum_cons, IH. lia.
Qed.

(** Counting the pairs a relation holds of, by rows or by columns. *)
Lemma double_count {A B : Type} (p : A -> B -> bool) (l1 : list A) (l2 : list B) :
  list_sum (map (fun x => length (filter (p x) l2)) l1)
  = list_sum (map (fun z => length (filter (fun x => p x z) l1)) l2).
Proof.
  induction l1 as [|x l1 IH].
  - cbn [map filter length]. rewrite list_sum_const. cbn. lia.
  - cbn [map]. rewrite list_sum_cons, IH, <- count_indicator, <- list_sum_map_add.
    f_equal. apply map_ext. intros z. cbn [filter]. destruct (p x z); reflexivity.
Qed.

(** Twice the number of "above" pairs plus the number of "equal" pairs is
    the number of all pairs. *)
Lemma pairs_above_equal (l : list Q) :
  (2 * list_sum (map (fun x => length (filter (fun z => Qlt_bool x z) l)) l)
   + list_sum (map (fun x => length (filter (fun z => Qeq_bool z x) l)) l)
   = length l * length l)%nat.
Proof.
  pose proof (double_count (fun x z => Qlt_bool x z) l l) as Hswap. cbn beta in Hswap.
  assert (Hall : list_sum (map (fun x =>
                    (length (filter (fun z => Qlt_bool x z) l)
                     + length (filter (fun z => Qeq_bool z x) l)
                     + length (filter (fun z => Qlt_bool z x) l))%nat) l)
                 = (length l * length l)%nat).
  { rewrite <- list_sum_const. f_equal. apply map_ext. intros x.
    apply count_three_way. }
  rewrite (list_sum_map_add
             (fun x => (length (filter (fun z => Qlt_bool x z) l)
                        + length (filter (fun z => Qeq_bool z x) l))%nat)
             (fun x => length (filter (fun z => Qlt_bool z x) l))) in Hall.
  rewrite list_sum_map_add in Hall. lia.
Qed.

(** The rank of a present value, written over the common denominator. *)
Lemma rank_value (g e : nat) :
  inject_Z (Z.of_nat g) + (inject_Z (Z.of_nat e) + 1) / 2
  == inject_Z (2 * Z.of_nat g + Z.of_nat e + 1) / 2.
Proof.
  rewrite !inject_Z_plus, inject_Z_mult.
  change (inject_Z 1) with 1. change (inject_Z 2) with 2. field.
Qed.

Lemma half_ge_one (a : Z) : (2 <= a)%Z -> 1 <= inject_Z a / 2.
Proof. intros H. unfold Qle. cbn. lia. Qed.

Lemma half_le_whole (a n : Z) : (a <= 2 * n)%Z -> inject_Z a / 2 <= inject_Z n.
Proof. intros H. unfold Qle. cbn. lia. Qed.

Lemma half_lt (a b : Z) : (a < b)%Z -> inject_Z a / 2 < inject_Z b / 2.
Proof. intros H. unfold Qlt. cbn. lia. Qed.

Lemma In_dropna (s : Series) (i : nat) (x : Q) :
  nth_error s i = Some (Fin x) -> In x (dropna s).
Proof.
  revert i. induction s as [|v s IH]; intros [|i]; cbn; try discriminate.
  - intros [= ->]. now left.
  - intros H. destruct v; [|right]; eapply IH; eassumption.
Qed.

Lemma filter_member_positive {A : Type} (p : A -> bool) (x : A) (l : list A) :
  In x l -> p x = true -> (1 <= length (filter p l))%nat.
Proof.
  intros Hin Hp. assert (H : In x (filter p l)) by (apply filter_In; now split).
  destruct (filter p l); [destruct H|cbn; lia].
Qed.

Lemma rank_descending_nth (s : Series) (i : nat) (x : Q) :
  nth_error s i = Some (Fin x) ->
  nth_error (rank_descending s) i
  = Some (Fin (inject_Z (Z.of_nat (count_if (fun y => Qlt_bool x y) s))
               + (inject_Z (Z.of_nat (count_if (fun y => Qeq_bool y x) s)) + 1) / 2)).
Proof. intros H. unfold rank_descending. now rewrite nth_error_map, H. Qed.

(** X17.  [rank_stocks_by_momentum] raises [KeyError] when the column is
    missing; otherwise it returns one rank per row: a missing momentum
    keeps no rank, and a present one gets a rank between 1 and the number
    of present values. *)
Theorem ranks_are_within_bounds (df : DataFrame) (momentum_col : string) :
  (get_col momentum_col df = None ->
   Momentum.rank_stocks_by_momentum df momentum_col = Raise (KeyError momentum_col))
  /\ (forall s, get_col momentum_col df = Some s ->
      exists ranks,
        Momentum.rank_stocks_by_momentum df momentum_col = Ok ranks
        /\ length ranks = length s
        /\ (forall i, nth_error s i = Some NaN -> nth_error ranks i = Some NaN)
        /\ (forall i x, nth_error s i = Some (Fin x) ->
            exists r, nth_error ranks i = Some (Fin r)
                      /\ 1 <= r
                      /\ r <= inject_Z (Z.of_nat (length (dropna s))))).
Proof.
  split.
  - intros Hn. unfold Momentum.rank_stocks_by_momentum. now rewrite Hn.
  - intros s Hs. unfold Momentum.rank_stocks_by_momentum. rewrite Hs.
    eexists. split; [reflexivity|]. split; [apply length_map|]. split.
    + intros i Hi. unfold rank_descending. now rewrite nth_error_map, Hi.
    + intros i x Hi. eexists. split; [exact (rank_descending_nth s i x Hi)|].
      unfold count_if. rewrite rank_value.
      pose proof (count_three_way x (dropna s)) as H3.
      assert (He : (1 <= length (filter (fun y => Qeq_bool y x) (dropna s)))%nat).
      { apply (filter_member_positive _ x); [now apply (In_dropna s i)|].
        apply Qeq_bool_iff. reflexivity. }
      split; [apply half_ge_one; lia|apply half_le_whole; lia].
Qed.

Lemma Qlt_bool_iff (a b : Q) : Qlt_bool a b = true <-> a < b.
Proof.
  unfold Qlt_bool. rewrite negb_true_iff. split.
  - intros H. apply Qnot_le_lt. intros C. apply Qle_bool_iff in C. congruence.
  - intros H. destruct (Qle_bool b a) eqn:E; [|reflexivity].
    apply Qle_bool_iff in E. exfalso. exact (Qlt_not_le _ _ H E).
Qed.

Lemma filter_union_le {A : Type} (p q r : A -> bool) (l : list A) :
  (forall z, p z = true -> r z = true) ->
  (forall z, q z = true -> r z = true) ->
  (forall z, p z = true -> q z = false) ->
  (length (filter p l) + length (filter q l) <= length (filter r l))%nat.
Proof.
  intros Hp Hq Hd. induction l as [|z l IH]; [reflexivity|]. cbn [filter].
  destruct (p z) eqn:Ep.
  - rewrite (Hd z Ep), (Hp z Ep). cbn [length]. lia.
  - destruct (q z) eqn:Eq.
    + rewrite (Hq z Eq). cbn [length]. lia.
    + destruct (r z); cbn [length]; lia.
Qed.

(** X18.  Ranking is descending and ties share a rank: of two periods with
    present momentum, the one with the higher momentum gets the strictly
    smaller rank, and equal momenta get equal ranks. *)
Theorem ranks_reverse_order
  (df : DataFrame) (momentum_col : string) (s : Series) (i j : nat) (x y : Q) :
  get_col momentum_col df = Some s ->
  nth_error s i = Some (Fin x) ->
  nth_error s j = Some (Fin y) ->
  exists ranks rx ry,
    Momentum.rank_stocks_by_momentum df momentum_col = Ok ranks
    /\ nth_error ranks i = Some (Fin rx)
    /\ nth_error ranks j = Some (Fin ry)
    /\ (x < y -> ry < rx)
    /\ (x == y -> rx == ry).
Proof.
  intros Hs Hi Hj. unfold Momentum.rank_stocks_by_momentum. rewrite Hs.
  eexists _, _, _. split; [reflexivity|].
  split; [exact (rank_descending_nth s i x Hi)|].
  split; [exact (rank_descending_nth s j y Hj)|].
  unfold count_if. split.
  - intros Hxy. rewrite !rank_value. apply half_lt.
    assert (Hcount :
      (length (filter (fun z => Qlt_bool y z) (dropna s))
       + length (filter (fun z => Qeq_bool z y) (dropna s))
       <= length (filter (fun z => Qlt_bool x z) (dropna s)))%nat).
    { apply filter_union_le.
      - intros z Hz. apply Qlt_bool_iff in Hz. apply Qlt_bool_iff.
        now apply (Qlt_trans _ y).
      - intros z Hz. apply Qeq_bool_iff in Hz. apply Qlt_bool_iff. now rewrite Hz.
      - intros z Hz. pose proof (three_way y z) as H3.
        destruct (z ?= y); injection H3 as H3a H3b _; congruence. }
    assert (He : (1 <= length (filter (fun z => Qeq_bool z x) (dropna s)))%nat).
    { apply (filter_member_positive _ x); [now apply (In_dropna s i)|].
      apply Qeq_bool_iff. reflexivity. }
    lia.
  - intros Hxy.
    assert (Ha : filter (fun z => Qlt_bool x z) (dropna s)
                 = filter (fun z => Qlt_bool y z) (dropna s)).
    { apply filter_ext. intros z. unfold Qlt_bool. rewrite !Qle_bool_compare.
      now rewrite Hxy. }
    assert (He : filter (fun z => Qeq_bool z x) (dropna s)
                 = filter (fun z => Qeq_bool z y) (dropna s)).
    { apply filter_ext. intros z.
      destruct (Qeq_bool z x) eqn:E1, (Qeq_bool z y) eqn:E2; try reflexivity.
      - apply Qeq_bool_iff in E1.
        assert (E : Qeq_bool z y = true) by (apply Qeq_bool_iff; now rewrite E1).
        congruence.
      - apply Qeq_bool_iff in E2.
        assert (E : Qeq_bool z x = true) by (apply Qeq_bool_iff; now rewrite E2, Hxy).
        congruence. }
    rewrite Ha, He. reflexivity.
Qed.

Lemma ranks_reverse_order_witness :
  let df := mkDataFrame [0; 1; 2; 3]%Z
              [("Momentum"%string, [Fin (1 # 10); NaN; Fin (3 # 10); Fin (1 # 10)])] in
  exists ranks rx ry,
    Momentum.rank_stocks_by_momentum df "Momentum" = Ok ranks
    /\ nth_error ranks 0 = Some (Fin rx)
    /\ nth_error ranks 2 = Some (Fin ry)
    /\ ry < rx.
Proof.
  cbn zeta.
  destruct (ranks_reverse_order
              (mkDataFrame [0; 1; 2; 3]%Z
                 [("Momentum"%string, [Fin (1 # 10); NaN; Fin (3 # 10); Fin (1 # 10)])])
              "Momentum" [Fin (1 # 10); NaN; Fin (3 # 10); Fin (1 # 10)]
              0%nat 2%nat (1 # 10) (3 # 10) eq_refl eq_refl eq_refl)
    as (ranks & rx & ry & Hr & Hx & Hy & Hlt & _).
  exists ranks, rx, ry. repeat split; try assumption.
  apply Hlt. reflexivity.
Defined.

Lemma dropna_map_present (f : Q -> Q) (s : Series) :
  dropna (map (fun v => match v with NaN => NaN | Fin x => Fin (f x) end) s)
  = map f (dropna s).
Proof.
  induction s as [|v s IH]; [reflexivity|].
  destruct v; cbn [map dropna]; now rewrite IH.
Qed.

Lemma dropna_rank_descending (s : Series) :
  dropna (rank_descending s)
  = map (fun x =>
           inject_Z (Z.of_nat (count_if (fun y => Qlt_bool x y) s))
           + (inject_Z (Z.of_nat (count_if (fun y => Qeq_bool y x) s)) + 1) / 2)
        (dropna s).
Proof.
  exact (dropna_map_present
           (fun x => inject_Z (Z.of_nat (count_if (fun y => Qlt_bool x y) s))
                     + (inject_Z (Z.of_nat (count_if (fun y => Qeq_bool y x) s)) + 1) / 2)
           s).
Qed.

Lemma Qsum_ranks (g e : Q -> nat) (l : list Q) :
  Qsum (map (fun x => inject_Z (Z.of_nat (g x)) + (inject_Z (Z.of_nat (e x)) + 1) / 2) l)
  == inject_Z (Z.of_nat (2 * list_sum (map g l) + list_sum (map e l) + length l)) / 2.
Proof.
  induction l as [|x l IH]; [reflexivity|].
  cbn [map Qsum fold_right length]. fold (Qsum (map (fun x => inject_Z (Z.of_nat (g x))
     + (inject_Z (Z.of_nat (e x)) + 1) / 2) l)).
  rewrite IH, !list_sum_cons.
  replace (Z.of_nat (2 * (g x + list_sum (map g l)) + (e x + list_sum (map e l))
                     + S (length l)))
    with (Z.of_nat (g x) * 2 + Z.of_nat (e x) + 1
          + Z.of_nat (2 * list_sum (map g l) + list_sum (map e l) + length l))%Z
    by lia.
  rewrite !inject_Z_plus, inject_Z_mult.
  change (inject_Z 2) with 2. change (inject_Z 1) with 1. field.
Qed.

(** X19.  The ranks of the present values always add up to n(n+1)/2, where
    n is the number of present values: ties or not, the ranks share out
    the places 1 to n. *)
Theorem ranks_sum (df : DataFrame) (momentum_col : string) (s : Series) :
  get_col momentum_col df = Some s ->
  exists ranks,
    Momentum.rank_stocks_by_momentum df momentum_col = Ok ranks
    /\ length (dropna ranks) = length (dropna s)
    /\ Qsum (dropna ranks)
       == inject_Z (Z.of_nat (length (dropna s) * (length (dropna s) + 1))) / 2.
Proof.
  intros Hs. unfold Momentum.rank_stocks_by_momentum. rewrite Hs.
  eexists. split; [reflexivity|]. rewrite dropna_rank_descending.
  split; [apply length_map|].
  unfold count_if.
  rewrite (Qsum_ranks (fun x => length (filter (fun y => Qlt_bool x y) (dropna s)))
                      (fun x => length (filter (fun y => Qeq_bool y x) (dropna s)))).
  pose proof (pairs_above_equal (dropna s)) as Hp.
  replace (2 * list_sum (map (fun x => length (filter (fun y => Qlt_bool x y) (dropna s)))
                             (dropna s))
           + list_sum (map (fun x => length (filter (fun y => Qeq_bool y x) (dropna s)))
                           (dropna s))
           + length (dropna s))%nat
    with (length (dropna s) * (length (dropna s) + 1))%nat by lia.
  reflexivity.
Qed.

Lemma ranks_sum_witness :
  let df := mkDataFrame [0; 1; 2; 3]%Z
              [("Momentum"%string, [Fin (1 # 10); NaN; Fin (3 # 10); Fin (1 # 10)])] in
  exists ranks,
    Momentum.rank_stocks_by_momentum df "Momentum" = Ok ranks
    /\ Qsum (dropna ranks) == 6.
Proof.
  cbn zeta.
  destruct (ranks_sum
              (mkDataFrame [0; 1; 2; 3]%Z
                 [("Momentum"%string, [Fin (1 # 10); NaN; Fin (3 # 10); Fin (1 # 10)])])
              "Momentum" [Fin (1 # 10); NaN; Fin (3 # 10); Fin (1 # 10)] eq_refl)
    as (ranks & Hr & _ & Hsum).
  exists ranks. split; [exact Hr|]. rewrite Hsum. reflexivity.
Defined.

(** * The momentum strategy as a whole *)

Lemma momentum_signal_returns (df : DataFrame) (c : string) (th : option num)
  (ranks : Series) :
  get_col c df = Some ranks ->
  exists sig,
    Momentum.generate_momentum_signal df c th = Ok sig
    /\ length sig = nrows df
    /\ Forall (fun x => x = of_Z (-1) \/ x = of_Z 0 \/ x = of_Z 1) sig
    /\ (length ranks = nrows df ->
        sig = map (match th with
                   | Some t => threshold_spec t
                   | None => median_spec (median ranks)
                   end) ranks).
Proof.
  intros Hc.
  assert (Hdom : forall m1 m2,
            Forall (fun x => x = of_Z (-1) \/ x = of_Z 0 \/ x = of_Z 1)
                   (where_set m2 (of_Z (-1))
                      (where_set m1 (of_Z 1) (repeat (of_Z 0) (nrows df))))).
  { intros m1 m2. apply where_set_Forall; [now left|].
    apply where_set_Forall; [now right; right|].
    apply Forall_repeat. now right; left. }
  unfold Momentum.generate_momentum_signal, Momentum.compare_scalar. rewrite Hc.
  destruct th as [t|]; eexists; (split; [reflexivity|]);
    (split; [now rewrite !where_set_length, repeat_length|]);
    (split; [apply Hdom|]); intros Hlen;
    rewrite (where_set_twice _ _ _ _ _ ranks (nrows df) Hlen);
    apply map_ext; intros r; [apply threshold_point|apply median_point].
Qed.

(** X20.  [apply_momentum_strategy] raises [KeyError] exactly when the frame
    has no close column.  Otherwise it returns a frame with the same index
    that holds the momentum, its ranks, and a signal column with one entry
    per row, each -1, 0 or +1; every other column is as in the input; and a
    [MomentumBacktester] can be constructed on the result. *)
Theorem momentum_strategy_result
  (pct_change : Z -> Series -> Series)
  (df : DataFrame) (window : Z) (threshold : option num) (ib : num) :
  (get_col "Close" df = None ->
   Momentum.apply_momentum_strategy pct_change df window threshold
   = Raise (KeyError "Close"))
  /\ (forall close, get_col "Close" df = Some close ->
      exists out sig,
        Momentum.apply_momentum_strategy pct_change df window threshold = Ok out
        /\ index out = index df
        /\ get_col "Momentum" out = Some (pct_change window close)
        /\ get_col "Momentum_Rank" out
           = Some (rank_descending (pct_change window close))
        /\ get_col "Signal" out = Some sig
        /\ length sig = nrows df
        /\ Forall (fun x => x = of_Z (-1) \/ x = of_Z 0 \/ x = of_Z 1) sig
        /\ (forall c, "Momentum"%string <> c -> "Momentum_Rank"%string <> c ->
                      "Signal"%string <> c -> get_col c out = get_col c df)
        /\ fst (construct Momentum.MomentumBacktesterClass out ib) = Ok tt).
Proof.
  split.
  - intros Hn. unfold Momentum.apply_momentum_strategy, Momentum.calculate_momentum.
    now rewrite Hn.
  - intros close Hc.
    unfold Momentum.apply_momentum_strategy, Momentum.calculate_momentum,
      Momentum.rank_stocks_by_momentum.
    rewrite Hc, get_set_col_same.
    set (m := pct_change window close).
    set (d2 := set_col "Momentum_Rank" (rank_descending m) (set_col "Momentum" m df)).
    destruct (momentum_signal_returns d2 "Momentum_Rank" threshold (rank_descending m)
                (get_set_col_same _ _ _)) as (sig & Hsig & Hlen & Hdom & _).
    rewrite Hsig. exists (set_col "Signal" sig d2), sig.
    split; [reflexivity|]. split; [reflexivity|].
    split.
    { rewrite get_set_col_other by discriminate. unfold d2.
      rewrite get_set_col_other by discriminate. apply get_set_col_same. }
    split.
    { rewrite get_set_col_other by discriminate. apply get_set_col_same. }
    split; [apply get_set_col_same|].
    split; [exact Hlen|]. split; [exact Hdom|]. split.
    { intros c H1 H2 H3. unfold d2. now rewrite !get_set_col_other. }
    destruct (momentum_construct (set_col "Signal" sig d2) ib sig (get_set_col_same _ _ _))
      as (s' & built & _ & Hcon & _).
    now rewrite Hcon.
Qed.

Lemma dropna_In_nth (s : Series) (z : Q) :
  In z (dropna s) -> exists j, nth_error s j = Some (Fin z).
Proof.
  induction s as [|w s IH]; [intros []|].
  destruct w as [|q]; cbn [dropna].
  - intros Hz. destruct (IH Hz) as [j Hj]. now exists (S j).
  - intros [->|Hz]; [now exists 0%nat|].
    destruct (IH Hz) as [j Hj]. now exists (S j).
Qed.

Lemma strict_maximum_counts (s : Series) (x : Q) :
  forall i,
  nth_error s i = Some (Fin x) ->
  (forall j y, j <> i -> nth_error s j = Some (Fin y) -> y < x) ->
  count_if (fun y => Qlt_bool x y) s = O /\ count_if (fun y => Qeq_bool y x) s = 1%nat.
Proof.
  unfold count_if.
  induction s as [|v s IH]; intros [|i] Hi Hmax; cbn in Hi; try discriminate.
  - injection Hi as ->. cbn [dropna filter].
    assert (Hrest : forall z, In z (dropna s) -> z < x).
    { intros z Hz. destruct (dropna_In_nth s z Hz) as [j Hj].
      apply (Hmax (S j) z); [lia|exact Hj]. }
    assert (Ha : filter (fun y => Qlt_bool x y) (dropna s) = []).
    { clear -Hrest. induction (dropna s) as [|z l IHl]; [reflexivity|]. cbn [filter].
      destruct (Qlt_bool x z) eqn:E.
      - apply Qlt_bool_iff in E. exfalso.
        exact (Qlt_irrefl _ (Qlt_trans _ _ _ E (Hrest z (or_introl eq_refl)))).
      - apply IHl. intros w Hw. apply Hrest. now right. }
    assert (He : filter (fun y => Qeq_bool y x) (dropna s) = []).
    { clear -Hrest. induction (dropna s) as [|z l IHl]; [reflexivity|]. cbn [filter].
      destruct (Qeq_bool z x) eqn:E.
      - apply Qeq_bool_iff in E. exfalso.
        pose proof (Hrest z (or_introl eq_refl)) as Hlt. rewrite E in Hlt.
        exact (Qlt_irrefl _ Hlt).
      - apply IHl. intros w Hw. apply Hrest. now right. }
    assert (Hxx : Qlt_bool x x = false).
    { destruct (Qlt_bool x x) eqn:E; [|reflexivity].
      apply Qlt_bool_iff in E. exfalso. exact (Qlt_irrefl _ E). }
    assert (Hex : Qeq_bool x x = true) by (apply Qeq_bool_iff; reflexivity).
    rewrite Hxx, Hex, Ha, He. split; reflexivity.
  - assert (Hv : forall y, v = Fin y -> y < x).
    { intros y ->. apply (Hmax 0%nat y); [lia|reflexivity]. }
    destruct (IH i Hi) as [Ha He].
    { intros j y Hne Hy. apply (Hmax (S j) y); [lia|exact Hy]. }
    destruct v as [|y]; cbn [dropna]; [now split|].
    cbn [filter].
    assert (H1 : Qlt_bool x y = false).
    { destruct (Qlt_bool x y) eqn:E; [|reflexivity].
      apply Qlt_bool_iff in E. exfalso.
      exact (Qlt_irrefl _ (Qlt_trans _ _ _ E (Hv y eq_refl))). }
    assert (H2 : Qeq_bool y x = false).
    { destruct (Qeq_bool y x) eqn:E; [|reflexivity].
      apply Qeq_bool_iff in E. exfalso.
      pose proof (Hv y eq_refl) as Hlt. rewrite E in Hlt. exact (Qlt_irrefl _ Hlt). }
    now rewrite H1, H2.
Qed.

(** X21.  On a well-formed frame, given that the momentum series has one
    value per row: a period whose momentum is undefined gets signal 0 in
    either mode, and with an explicit threshold of at least 1 the period
    whose momentum is strictly the highest gets rank 1 and the signal +1. *)
Theorem momentum_strategy_signals
  (pct_change : Z -> Series -> Series)
  (df : DataFrame) (window : Z) (threshold : option num) (close : Series) :
  well_formed df ->
  get_col "Close" df = Some close ->
  length (pct_change window close) = length close ->
  exists out sig,
    Momentum.apply_momentum_strategy pct_change df window threshold = Ok out
    /\ get_col "Signal" out = Some sig
    /\ (forall i, nth_error (pct_change window close) i = Some NaN ->
                  nth_error sig i = Some (of_Z 0))
    /\ (forall i x t,
          threshold = Some (Fin t) -> 1 <= t ->
          nth_error (pct_change window close) i = Some (Fin x) ->
          (forall j y, j <> i ->
                       nth_error (pct_change window close) j = Some (Fin y) -> y < x) ->
          nth_error sig i = Some (of_Z 1)).
Proof.
  intros Hwf Hc Hlen.
  unfold Momentum.apply_momentum_strategy, Momentum.calculate_momentum,
    Momentum.rank_stocks_by_momentum.
  rewrite Hc, get_set_col_same.
  set (m := pct_change window close) in *.
  set (d2 := set_col "Momentum_Rank" (rank_descending m) (set_col "Momentum" m df)).
  destruct (momentum_signal_returns d2 "Momentum_Rank" threshold (rank_descending m)
              (get_set_col_same _ _ _)) as (sig & Hsig & _ & _ & Hmap).
  rewrite Hsig. exists (set_col "Signal" sig d2), sig.
  split; [reflexivity|]. split; [apply get_set_col_same|].
  assert (Hl : length (rank_descending m) = nrows d2).
  { unfold rank_descending. rewrite length_map, Hlen.
    apply (well_formed_col df "Close" close Hwf Hc). }
  rewrite (Hmap Hl). split.
  - intros i Hi.
    assert (Hr : nth_error (rank_descending m) i = Some NaN).
    { unfold rank_descending. now rewrite nth_error_map, Hi. }
    rewrite nth_error_map, Hr. cbn [option_map]. now destruct threshold.
  - intros i x t -> Ht Hi Hmax. rewrite nth_error_map.
    rewrite (rank_descending_nth m i x Hi). cbn [option_map].
    destruct (strict_maximum_counts m x i Hi Hmax) as [-> ->].
    f_equal. apply threshold_spec_cases.
    eapply Qle_trans; [|exact Ht]. unfold Qle. cbn. lia.
Qed.

Lemma momentum_strategy_signals_witness :
  let df := mkDataFrame [0; 1; 2]%Z
              [("Close"%string, [Fin 100; Fin 110; Fin (209 # 2)])] in
  let pct_change := fun (_ : Z) (_ : Series) => [NaN; Fin (1 # 10); Fin (- (1 # 20))] in
  exists out,
    Momentum.apply_momentum_strategy pct_change df 1 (Some (Fin 1)) = Ok out
    /\ get_col "Signal" out = Some [Fin 0; Fin 1; Fin (-1)].
Proof.
  cbn zeta.
  destruct (momentum_strategy_signals
              (fun (_ : Z) (_ : Series) => [NaN; Fin (1 # 10); Fin (- (1 # 20))])
              (mkDataFrame [0; 1; 2]%Z
                 [("Close"%string, [Fin 100; Fin 110; Fin (209 # 2)])])
              1 (Some (Fin 1)) [Fin 100; Fin 110; Fin (209 # 2)])
    as (out & sig & Hrun & Hsig & _).
  - repeat constructor.
  - reflexivity.
  - reflexivity.
  - exists out. split; [exact Hrun|].
    injection Hrun as <-. reflexivity.
Defined.

(** * Column names of the indicators: printing and reading back a window *)

Lemma digit_value_cases (d : Z) :
  (0 <= d < 10)%Z ->
  d = 0%Z \/ d = 1%Z \/ d = 2%Z \/ d = 3%Z \/ d = 4%Z \/ d = 5%Z \/ d = 6%Z
  \/ d = 7%Z \/ d = 8%Z \/ d = 9%Z.
Proof. lia. Qed.

Lemma digit_digit_char (d : Z) : (0 <= d < 10)%Z -> digit (digit_char d) = Some d.
Proof.
  intros H. destruct (digit_value_cases d H) as [->|[->|[->|[->|[->|[->|[->|[->|[->| ->]]]]]]]]];
    reflexivity.
Qed.

(** A digit is no white space and no underscore. *)
Lemma digit_char_plain (d : Z) :
  (0 <= d < 10)%Z ->
  is_digit (digit_char d) = true /\ is_space (digit_char d) = false.
Proof.
  intros H. destruct (digit_value_cases d H) as [->|[->|[->|[->|[->|[->|[->|[->|[->| ->]]]]]]]]];
    split; reflexivity.
Qed.

(** A string that starts with a digit and has no surrounding white space is
    read as an unsigned number. *)
Lemma int_of_string_digit_head (d : Z) (r : string) :
  (0 <= d < 10)%Z ->
  rstrip (lstrip (String (digit_char d) r)) = String (digit_char d) r ->
  int_of_string (String (digit_char d) r) = unsigned (String (digit_char d) r).
Proof.
  intros H E. unfold int_of_string. rewrite E.
  destruct (digit_value_cases d H) as [->|[->|[->|[->|[->|[->|[->|[->|[->| ->]]]]]]]]];
    reflexivity.
Qed.

Lemma is_digit_plain (c : ascii) :
  is_digit c = true -> is_space c = false /\ Ascii.eqb c "_" = false.
Proof.
  unfold is_digit, digit, is_space.
  destruct (Nat.leb_spec 48 (nat_of_ascii c)) as [H1|]; [|discriminate].
  destruct (Nat.leb_spec (nat_of_ascii c) 57) as [H2|]; [|discriminate].
  intros _. split.
  - destruct (Nat.eqb_spec (nat_of_ascii c) 32); [lia|].
    destruct (Nat.leb_spec (nat_of_ascii c) 13); [lia|].
    destruct (Nat.leb_spec (nat_of_ascii c) 31); [lia|].
    now rewrite !andb_false_r.
  - destruct (Ascii.eqb_spec c "_") as [->|]; [cbn in H2; lia|reflexivity].
Qed.

(** Reading the printed digits of [n] in front of [acc] continues reading
    [acc] with [n] appended to what was read before. *)
Lemma digits_decimal (fuel : nat) :
  forall (n : Z) (acc : string),
  (0 <= n < Z.of_nat fuel)%Z ->
  exists k : Z,
    (0 < k)%Z
    /\ forall a : Z, digits (decimal fuel n acc) a = digits acc (a * 10 ^ k + n).
Proof.
  induction fuel as [|fuel IH]; intros n acc Hn; [lia|].
  cbn [decimal]. destruct (Z.ltb_spec n 10) as [Hlt|Hge].
  - exists 1%Z. split; [lia|]. intros a. cbn [digits].
    rewrite Z.mod_small by lia. rewrite digit_digit_char by lia.
    f_equal. lia.
  - destruct (IH (n / 10)%Z (String (digit_char (n mod 10)) acc)) as (k & Hk & Hread).
    { split; [apply Z.div_pos; lia|].
      apply Z.div_lt_upper_bound; lia. }
    exists (k + 1)%Z. split; [lia|]. intros a. rewrite Hread. cbn [digits].
    rewrite digit_digit_char by (apply Z.mod_pos_bound; lia).
    f_equal. rewrite Z.pow_add_r by lia. rewrite (Z.div_mod n 10) at 3 by lia. lia.
Qed.

Lemma decimal_all_digits (fuel : nat) :
  forall (n : Z) (acc : string),
  (0 <= n)%Z -> all_chars is_digit acc = true ->
  all_chars is_digit (decimal fuel n acc) = true.
Proof.
  induction fuel as [|fuel IH]; intros n acc Hn Hacc; [exact Hacc|].
  cbn [decimal].
  assert (Hacc' : all_chars is_digit (String (digit_char (n mod 10)) acc) = true).
  { cbn [all_chars]. rewrite Hacc, andb_true_r.
    apply digit_char_plain. apply Z.mod_pos_bound. lia. }
  destruct (n <? 10)%Z; [exact Hacc'|].
  apply IH; [apply Z.div_pos; lia|exact Hacc'].
Qed.

(** The printed number starts with a digit. *)
Lemma decimal_head (fuel : nat) :
  forall (n : Z) (acc : string),
  (0 <= n)%Z ->
  exists d rest, (0 <= d < 10)%Z /\ decimal (S fuel) n acc = String (digit_char d) rest.
Proof.
  induction fuel as [|fuel IH]; intros n acc Hn.
  - cbn [decimal]. exists (n mod 10)%Z, acc.
    split; [apply Z.mod_pos_bound; lia|]. now destruct (n <? 10)%Z.
  - change (decimal (S (S fuel)) n acc)
      with (if (n <? 10)%Z then String (digit_char (n mod 10)) acc
            else decimal (S fuel) (n / 10) (String (digit_char (n mod 10)) acc)).
    destruct (n <? 10)%Z.
    + exists (n mod 10)%Z, acc. split; [apply Z.mod_pos_bound; lia|reflexivity].
    + apply IH. apply Z.div_pos; lia.
Qed.

Lemma lstrip_plain (c : ascii) (s : string) :
  is_space c = false -> lstrip (String c s) = String c s.
Proof. intros H. cbn. now rewrite H. Qed.

Lemma rstrip_plain (s : string) :
  all_chars (fun c => negb (is_space c)) s = true -> rstrip s = s.
Proof.
  induction s as [|c s IH]; [reflexivity|]. cbn [all_chars rstrip].
  intros H. apply andb_true_iff in H as [Hc Hs]. rewrite (IH Hs).
  apply negb_true_iff in Hc. rewrite Hc. now destruct s.
Qed.

Lemma split_plain (sep : ascii) (s : string) :
  all_chars (fun c => negb (Ascii.eqb c sep)) s = true -> split sep s = [s].
Proof.
  induction s as [|c s IH]; [reflexivity|]. cbn [all_chars split].
  intros H. apply andb_true_iff in H as [Hc Hs]. apply negb_true_iff in Hc.
  now rewrite Hc, (IH Hs).
Qed.

Lemma all_chars_impl (p q : ascii -> bool) (s : string) :
  (forall c, p c = true -> q c = true) ->
  all_chars p s = true -> all_chars q s = true.
Proof.
  intros Hpq. induction s as [|c s IH]; [reflexivity|]. cbn [all_chars].
  intros H. apply andb_true_iff in H as [Hc Hs]. now rewrite (Hpq c Hc), (IH Hs).
Qed.

Lemma digits_no_space (s : string) :
  all_chars is_digit s = true -> all_chars (fun c => negb (is_space c)) s = true.
Proof.
  apply all_chars_impl. intros c Hc. apply negb_true_iff. now apply is_digit_plain.
Qed.

Lemma str_of_nonneg (n : Z) :
  (0 <= n)%Z ->
  int_of_string (decimal (S (Z.to_nat n)) n EmptyString) = Some n
  /\ unsigned (decimal (S (Z.to_nat n)) n EmptyString) = Some n
  /\ all_chars is_digit (decimal (S (Z.to_nat n)) n EmptyString) = true.
Proof.
  intros Hn.
  assert (Hall : all_chars is_digit (decimal (S (Z.to_nat n)) n EmptyString) = true)
    by now apply decimal_all_digits.
  pose proof (digits_no_space _ Hall) as Hnosp.
  destruct (decimal_head (Z.to_nat n) n EmptyString Hn) as (d & rest & Hd & Hs).
  destruct (digits_decimal (S (Z.to_nat n)) n EmptyString) as (k & _ & Hread); [lia|].
  assert (Hu : unsigned (decimal (S (Z.to_nat n)) n EmptyString) = Some n).
  { transitivity (digits (decimal (S (Z.to_nat n)) n EmptyString) 0).
    - rewrite Hs. reflexivity.
    - rewrite Hread. cbn [digits]. reflexivity. }
  split; [|split; [exact Hu|exact Hall]].
  rewrite <- Hu. rewrite Hs in *.
  apply int_of_string_digit_head; [exact Hd|].
  rewrite lstrip_plain by (now apply digit_char_plain).
  now apply rstrip_plain.
Qed.

(** Printing an integer and reading it back gives the integer. *)
Lemma int_of_string_str_of_int (n : Z) : int_of_string (str_of_int n) = Some n.
Proof.
  unfold str_of_int. destruct (Z.ltb_spec n 0) as [Hneg|Hpos].
  - assert (Hn : (0 <= - n)%Z) by lia.
    destruct (str_of_nonneg (- n) Hn) as (_ & Hu & Hall).
    pose proof (digits_no_space _ Hall) as Hnosp.
    set (s := decimal (S (Z.to_nat (- n))) (- n) EmptyString) in *.
    unfold int_of_string.
    rewrite lstrip_plain by reflexivity.
    assert (Hr : rstrip (String "-" s) = String "-" s).
    { apply rstrip_plain. cbn [all_chars]. now rewrite Hnosp. }
    rewrite Hr, Hu. cbn. f_equal. lia.
  - now apply str_of_nonneg.
Qed.

Lemma str_of_int_no_underscore (n : Z) :
  all_chars (fun c => negb (Ascii.eqb c "_")) (str_of_int n) = true.
Proof.
  unfold str_of_int. destruct (Z.ltb_spec n 0) as [Hneg|Hpos].
  - cbn [all_chars]. cbn [Ascii.eqb negb andb].
    eapply all_chars_impl; [|apply decimal_all_digits; [lia|reflexivity]].
    intros c Hc. apply negb_true_iff. now apply is_digit_plain.
  - eapply all_chars_impl; [|apply decimal_all_digits; [lia|reflexivity]].
    intros c Hc. apply negb_true_iff. now apply is_digit_plain.
Qed.

Lemma sort_key_ma_name (n : Z) : sort_key (Cleaners.ma_name n) = Ok n.
Proof.
  unfold sort_key, Cleaners.ma_name.
  change (split "_" ("MA_" ++ str_of_int n))
    with ("MA"%string :: split "_" (str_of_int n)).
  rewrite (split_plain _ _ (str_of_int_no_underscore n)).
  cbn [nth_error]. now rewrite int_of_string_str_of_int.
Qed.

Lemma ma_name_prefix (n : Z) : String.prefix "MA_" (Cleaners.ma_name n) = true.
Proof. unfold Cleaners.ma_name. cbn. now destruct (str_of_int n). Qed.

Lemma ma_name_injective (m n : Z) : Cleaners.ma_name m = Cleaners.ma_name n -> m = n.
Proof.
  intros E. pose proof (sort_key_ma_name m) as H.
  rewrite E, sort_key_ma_name in H. now injection H.
Qed.

(** X22.  The column name [add_technical_indicators] gives the moving
    average of window [n] is one the crossover policy picks up, and the
    window it reads back from the name is [n]: printing the window into the
    name and parsing the suffix are inverse to each other.  Two different
    windows give two different names. *)
Theorem ma_name_reads_back (n : Z) :
  String.prefix "MA_" (Cleaners.ma_name n) = true
  /\ sort_key (Cleaners.ma_name n) = Ok n
  /\ forall m, Cleaners.ma_name m = Cleaners.ma_name n -> m = n.
Proof.
  split; [apply ma_name_prefix|]. split; [apply sort_key_ma_name|].
  intros m. apply ma_name_injective.
Qed.

(** * Cleaning: filling gaps *)

Lemma ffill_from_length (last : num) (s : Series) :
  length (ffill_from last s) = length s.
Proof.
  revert last. induction s as [|[|q] s IH]; intros last; cbn; [reflexivity| |];
    now rewrite IH.
Qed.

Lemma ffill_from_present (q : Q) (s : Series) :
  Forall (fun x => isna x = false) (ffill_from (Fin q) s).
Proof.
  revert q. induction s as [|[|p] s IH]; intros q; cbn; constructor;
    try reflexivity; apply IH.
Qed.

Lemma ffill_from_all_present (last : num) (s : Series) :
  Forall (fun x => isna x = false) s -> ffill_from last s = s.
Proof.
  revert last. induction s as [|[|q] s IH]; intros last H; [reflexivity| |].
  - inversion H; discriminate.
  - cbn. f_equal. apply IH. now inversion H.
Qed.

Lemma ffill_from_all_missing (last : num) (s : Series) :
  (forall x, In x s -> x = NaN) -> ffill_from last s = repeat last (length s).
Proof.
  induction s as [|x s IH]; intros H; [reflexivity|].
  rewrite (H x (or_introl eq_refl)). cbn. f_equal. apply IH.
  intros y Hy. apply H. now right.
Qed.

(** The value filled in after a run of missing values. *)
Lemma ffill_from_run (last : num) (s : Series) (i : nat) :
  (i < length s)%nat ->
  (forall k, (k <= i)%nat -> nth_error s k = Some NaN) ->
  nth_error (ffill_from last s) i = Some last.
Proof.
  revert i. induction s as [|x s IH]; intros i Hi H; [cbn in Hi; lia|].
  pose proof (H 0%nat ltac:(lia)) as H0. cbn in H0. injection H0 as ->.
  destruct i as [|i]; [reflexivity|]. cbn. apply IH; [cbn in Hi; lia|].
  intros k Hk. apply (H (S k)). lia.
Qed.

Lemma ffill_from_forward (last : num) (s : Series) (i j : nat) (q : Q) :
  (j <= i)%nat -> (i < length s)%nat ->
  nth_error s j = Some (Fin q) ->
  (forall k, (j < k <= i)%nat -> nth_error s k = Some NaN) ->
  nth_error (ffill_from last s) i = Some (Fin q).
Proof.
  revert last i j. induction s as [|x s IH]; intros last i j Hji Hi Hj H;
    [cbn in Hi; lia|].
  destruct j as [|j].
  - cbn in Hj. injection Hj as ->. destruct i as [|i]; [reflexivity|].
    cbn. apply ffill_from_run; [cbn in Hi; lia|].
    intros k Hk. apply (H (S k)). lia.
  - destruct i as [|i]; [lia|].
    assert (Hrec : forall l, nth_error (ffill_from l s) i = Some (Fin q)).
    { intros l. apply (IH l i j); [lia|cbn in Hi; lia|exact Hj|].
      intros k Hk. apply (H (S k)). lia. }
    destruct x; cbn; apply Hrec.
Qed.

(** Either nothing is present, or the filled series is a run of missing
    values followed by present ones. *)
Lemma ffill_shape (s : Series) :
  (forall x, In x s -> x = NaN)
  \/ exists (k : nat) (y : num) (t : Series),
       ffill s = repeat NaN k ++ y :: t
       /\ Forall (fun x => isna x = false) (y :: t).
Proof.
  unfold ffill. induction s as [|[|q] s IH].
  - left. intros x [].
  - destruct IH as [IH|(k & y & t & E & Hp)].
    + left. intros x [<-|Hx]; [reflexivity|now apply IH].
    + right. exists (S k), y, t. cbn. now rewrite E.
  - right. exists 0%nat, (Fin q), (ffill_from (Fin q) s). split; [reflexivity|].
    constructor; [reflexivity|apply ffill_from_present].
Qed.

Lemma last_cons_default {A : Type} (x d : A) (l : list A) :
  last (x :: l) d = last l x.
Proof.
  revert x d. induction l as [|y l IH]; intros x d; [reflexivity|].
  change (last (x :: y :: l) d) with (last (y :: l) d).
  now rewrite (IH y d), (IH y x).
Qed.

Lemma ffill_from_app (last0 : num) (a b : Series) :
  ffill_from last0 (a ++ b)
  = ffill_from last0 a ++ ffill_from (last (ffill_from last0 a) last0) b.
Proof.
  revert last0. induction a as [|[|q] a IH]; intros last0; [reflexivity| |].
  - cbn [app ffill_from]. rewrite IH, last_cons_default. reflexivity.
  - cbn [app ffill_from]. rewrite IH, last_cons_default. reflexivity.
Qed.

Lemma hd_rev {A : Type} (d : A) (l : list A) : hd d (rev l) = last l d.
Proof.
  induction l as [|x l IH] using rev_ind; [reflexivity|].
  now rewrite rev_app_distr, last_last.
Qed.

(** Backward filling, read from the front: a missing value takes the value
    the filled rest starts with. *)
Lemma bfill_cons (x : num) (s : Series) :
  bfill (x :: s)
  = match x with NaN => hd NaN (bfill s) | Fin q => Fin q end :: bfill s.
Proof.
  unfold bfill, ffill. cbn [rev]. rewrite ffill_from_app, rev_app_distr.
  rewrite hd_rev. now destruct x.
Qed.

Lemma bfill_length (s : Series) : length (bfill s) = length s.
Proof.
  unfold bfill, ffill. now rewrite length_rev, ffill_from_length, length_rev.
Qed.

Lemma bfill_all_present (s : Series) :
  Forall (fun x => isna x = false) s -> bfill s = s.
Proof.
  induction s as [|x s IH]; intros H; [reflexivity|].
  rewrite bfill_cons. inversion H as [|? ? Hx Hs]; subst.
  rewrite (IH Hs). now destruct x.
Qed.

Lemma bfill_all_missing (s : Series) :
  (forall x, In x s -> x = NaN) -> bfill s = s.
Proof.
  induction s as [|x s IH]; intros H; [reflexivity|].
  rewrite bfill_cons, (H x (or_introl eq_refl)).
  rewrite IH by (intros y Hy; apply H; now right).
  f_equal. destruct s as [|y s]; [reflexivity|].
  cbn. apply H. right. now left.
Qed.

Lemma bfill_leading_run (k : nat) (y : num) (t : Series) :
  Forall (fun x => isna x = false) (y :: t) ->
  bfill (repeat NaN k ++ y :: t) = repeat y k ++ y :: t.
Proof.
  intros H. induction k as [|k IH]; [now apply bfill_all_present|].
  cbn [repeat app]. rewrite bfill_cons, IH. f_equal. now destruct k.
Qed.

Lemma bfill_keeps_present (s : Series) (i : nat) (q : Q) :
  nth_error s i = Some (Fin q) -> nth_error (bfill s) i = Some (Fin q).
Proof.
  revert i. induction s as [|x s IH]; intros i H; [now destruct i|].
  rewrite bfill_cons. destruct i as [|i].
  - cbn in H. injection H as ->. reflexivity.
  - cbn. now apply IH.
Qed.

(** The value filled in before the first present value. *)
Lemma bfill_backward (s : Series) (i j : nat) (q : Q) :
  (i <= j)%nat ->
  nth_error s j = Some (Fin q) ->
  (forall k, (i <= k < j)%nat -> nth_error s k = Some NaN) ->
  nth_error (bfill s) i = Some (Fin q).
Proof.
  revert i j. induction s as [|x s IH]; intros i j Hij Hj H; [now destruct j|].
  rewrite bfill_cons. destruct j as [|j].
  - assert (i = 0%nat) as -> by lia. cbn in Hj. injection Hj as ->. reflexivity.
  - cbn in Hj. destruct i as [|i].
    + pose proof (H 0%nat ltac:(lia)) as H0. cbn in H0. injection H0 as ->.
      assert (Hhd : nth_error (bfill s) 0 = Some (Fin q)).
      { apply (IH 0%nat j); [lia|exact Hj|].
        intros k Hk. apply (H (S k)). lia. }
      cbn. destruct (bfill s); [discriminate|]. cbn in Hhd. now injection Hhd as ->.
    + cbn. apply (IH i j); [lia|exact Hj|].
      intros k Hk. apply (H (S k)). lia.
Qed.

Lemma get_col_map_columns (f : Series -> Series) (c : string) (df : DataFrame) :
  get_col c (map_columns f df) = option_map f (get_col c df).
Proof.
  unfold get_col, map_columns. cbn. induction (columns df) as [|[c' v] cols IH];
    [reflexivity|].
  cbn. destruct (String.eqb c' c); [reflexivity|exact IH].
Qed.

Lemma get_col_clean_data (c : string) (df : DataFrame) :
  get_col c (Cleaners.clean_data df)
  = option_map (fun s => bfill (ffill s)) (get_col c (drop_duplicates df)).
Proof.
  unfold Cleaners.clean_data. rewrite !get_col_map_columns.
  now destruct (get_col c (drop_duplicates df)).
Qed.

(** What the two fills do to one column. *)
Lemma fill_both_ways (s : Series) :
  length (bfill (ffill s)) = length s
  /\ (forall i j q, (j <= i)%nat -> (i < length s)%nat ->
        nth_error s j = Some (Fin q) ->
        (forall k, (j < k <= i)%nat -> nth_error s k = Some NaN) ->
        nth_error (bfill (ffill s)) i = Some (Fin q))
  /\ (forall i j q, (i <= j)%nat ->
        nth_error s j = Some (Fin q) ->
        (forall k, (k < j)%nat -> nth_error s k = Some NaN) ->
        nth_error (bfill (ffill s)) i = Some (Fin q))
  /\ ((exists q, In (Fin q) s) -> Forall (fun x => isna x = false) (bfill (ffill s)))
  /\ ((forall x, In x s -> x = NaN) -> bfill (ffill s) = s).
Proof.
  split; [unfold ffill; now rewrite bfill_length, ffill_from_length|].
  split.
  { intros i j q Hji Hi Hj H. apply bfill_keeps_present.
    unfold ffill. now apply (ffill_from_forward NaN s i j q). }
  split.
  { intros i j q Hij Hj H. apply (bfill_backward _ i j q Hij).
    - unfold ffill. apply (ffill_from_forward NaN s j j q); [lia| |exact Hj|lia].
      apply nth_error_Some. now rewrite Hj.
    - intros k Hk. unfold ffill. apply ffill_from_run.
      + assert (j < length s)%nat by (apply nth_error_Some; now rewrite Hj). lia.
      + intros k' Hk'. apply H. lia. }
  split.
  { intros [q Hq]. destruct (ffill_shape s) as [Hnone|(k & y & t & E & Hp)].
    - discriminate (Hnone _ Hq).
    - rewrite E, (bfill_leading_run k y t Hp). apply Forall_app. split; [|exact Hp].
      inversion Hp; subst. clear -H1. induction k; cbn; constructor; assumption. }
  intros Hnone. unfold ffill. rewrite (ffill_from_all_missing NaN s Hnone).
  assert (E : s = repeat NaN (length s)).
  { clear -Hnone. induction s as [|x s IH]; [reflexivity|].
    cbn. rewrite (Hnone x (or_introl eq_refl)). f_equal. apply IH.
    intros y Hy. apply Hnone. now right. }
  rewrite <- E. now apply bfill_all_missing.
Qed.

(** X23.  What [clean_data] does to a column, relative to the frame without
    its duplicate rows: the column keeps its length; a present value stays,
    a gap after a present value takes the latest present value before it,
    a gap before the first present value takes that first value; so no gap
    is left in a column that holds any value at all, and a column with no
    value is left as it is. *)
Theorem clean_data_fills_gaps (df : DataFrame) (c : string) (v : Series) :
  get_col c (Cleaners.clean_data df) = Some v ->
  exists s,
    get_col c (drop_duplicates df) = Some s
    /\ length v = length s
    /\ (forall i j q, (j <= i)%nat -> (i < length s)%nat ->
          nth_error s j = Some (Fin q) ->
          (forall k, (j < k <= i)%nat -> nth_error s k = Some NaN) ->
          nth_error v i = Some (Fin q))
    /\ (forall i j q, (i <= j)%nat ->
          nth_error s j = Some (Fin q) ->
          (forall k, (k < j)%nat -> nth_error s k = Some NaN) ->
          nth_error v i = Some (Fin q))
    /\ ((exists q, In (Fin q) s) -> Forall (fun x => isna x = false) v)
    /\ ((forall x, In x s -> x = NaN) -> v = s).
Proof.
  rewrite get_col_clean_data.
  destruct (get_col c (drop_duplicates df)) as [s|]; [|discriminate].
  cbn. intros H. injection H as <-. exists s. split; [reflexivity|].
  apply fill_both_ways.
Qed.

Lemma clean_data_fills_gaps_witness :
  exists s,
    get_col "Close"
      (drop_duplicates
         (mkDataFrame [1; 2; 3; 4]%Z
            [("Close"%string, [NaN; of_Z 5; NaN; of_Z 7]);
             ("Volume"%string, [of_Z 10; of_Z 20; of_Z 30; of_Z 40])])) = Some s
    /\ length [of_Z 5; of_Z 5; of_Z 5; of_Z 7] = length s
    /\ (forall i j q, (j <= i)%nat -> (i < length s)%nat ->
          nth_error s j = Some (Fin q) ->
          (forall k, (j < k <= i)%nat -> nth_error s k = Some NaN) ->
          nth_error [of_Z 5; of_Z 5; of_Z 5; of_Z 7] i = Some (Fin q))
    /\ (forall i j q, (i <= j)%nat ->
          nth_error s j = Some (Fin q) ->
          (forall k, (k < j)%nat -> nth_error s k = Some NaN) ->
          nth_error [of_Z 5; of_Z 5; of_Z 5; of_Z 7] i = Some (Fin q))
    /\ ((exists q, In (Fin q) s) ->
        Forall (fun x => isna x = false) [of_Z 5; of_Z 5; of_Z 5; of_Z 7])
    /\ ((forall x, In x s -> x = NaN) -> [of_Z 5; of_Z 5; of_Z 5; of_Z 7] = s).
Proof.
  apply (clean_data_fills_gaps
           (mkDataFrame [1; 2; 3; 4]%Z
              [("Close"%string, [NaN; of_Z 5; NaN; of_Z 7]);
               ("Volume"%string, [of_Z 10; of_Z 20; of_Z 30; of_Z 40])])
           "Close" [of_Z 5; of_Z 5; of_Z 5; of_Z 7]).
  reflexivity.
Defined.

(** * Cleaning: dropping duplicate rows *)

Lemma num_eqb_refl (x : num) : num_eqb x x = true.
Proof. destruct x; [reflexivity|]. cbn. apply Qeq_bool_iff. reflexivity. Qed.

Lemma num_eqb_sym (x y : num) : num_eqb x y = num_eqb y x.
Proof.
  destruct x as [|a], y as [|b]; try reflexivity. cbn.
  destruct (Qeq_bool a b) eqn:E1, (Qeq_bool b a) eqn:E2; try reflexivity.
  - apply Qeq_bool_iff in E1. symmetry in E1. apply Qeq_bool_iff in E1. congruence.
  - apply Qeq_bool_iff in E2. symmetry in E2. apply Qeq_bool_iff in E2. congruence.
Qed.

Lemma row_eqb_refl (r : list num) : row_eqb r r = true.
Proof. induction r as [|x r IH]; [reflexivity|]. cbn. now rewrite num_eqb_refl. Qed.

Lemma row_eqb_sym (r1 r2 : list num) : row_eqb r1 r2 = row_eqb r2 r1.
Proof.
  revert r2. induction r1 as [|x r1 IH]; intros [|y r2]; try reflexivity.
  cbn. now rewrite num_eqb_sym, IH.
Qed.

(** The scan for first occurrences over the positions [a .. a+n-1], with
    the positions kept so far all below [a]. *)
Lemma first_occurrences_seq (df : DataFrame) (n : nat) :
  forall (a : nat) (kept : list nat),
  Forall (fun j => (j < a)%nat) kept ->
  StronglySorted Nat.lt (first_occurrences df (seq a n) kept)
  /\ Forall (fun i => (a <= i < a + n)%nat) (first_occurrences df (seq a n) kept)
  /\ (forall i j, In i (first_occurrences df (seq a n) kept) -> In j kept ->
        row_eqb (row_values j df) (row_values i df) = false)
  /\ (forall i j, In i (first_occurrences df (seq a n) kept) ->
        In j (first_occurrences df (seq a n) kept) -> (i < j)%nat ->
        row_eqb (row_values i df) (row_values j df) = false)
  /\ (forall i, (a <= i < a + n)%nat ->
        exists j, In j (kept ++ first_occurrences df (seq a n) kept)
                  /\ (j <= i)%nat
                  /\ row_eqb (row_values j df) (row_values i df) = true).
Proof.
  induction n as [|n IH]; intros a kept Hkept.
  - cbn. repeat split; try constructor; try (intros; contradiction). intros i Hi. lia.
  - cbn [seq first_occurrences].
    destruct (existsb (fun j => row_eqb (row_values j df) (row_values a df)) kept) eqn:Ex.
    + assert (Hkept' : Forall (fun j => (j < S a)%nat) kept).
      { eapply Forall_impl; [|exact Hkept]. cbn. intros; lia. }
      destruct (IH (S a) kept Hkept') as (S1 & S2 & S3 & S4 & S5).
      split; [exact S1|]. split.
      { eapply Forall_impl; [|exact S2]. cbn. intros; lia. }
      split; [exact S3|]. split; [exact S4|].
      intros i Hi. destruct (Nat.eq_dec i a) as [->|Hne].
      * apply existsb_exists in Ex as (j & Hj & Ej). exists j.
        split; [apply in_or_app; now left|]. split; [|exact Ej].
        rewrite Forall_forall in Hkept. pose proof (Hkept j Hj). lia.
      * apply S5. lia.
    + assert (Hkept' : Forall (fun j => (j < S a)%nat) (kept ++ [a])).
      { apply Forall_app. split.
        - eapply Forall_impl; [|exact Hkept]. cbn. intros; lia.
        - constructor; [lia|constructor]. }
      destruct (IH (S a) (kept ++ [a]) Hkept') as (S1 & S2 & S3 & S4 & S5).
      set (fo := first_occurrences df (seq (S a) n) (kept ++ [a])) in *.
      assert (Hfo : forall i, In i fo -> (S a <= i)%nat).
      { intros i Hi. rewrite Forall_forall in S2. pose proof (S2 i Hi). lia. }
      split.
      { constructor; [exact S1|]. apply Forall_forall. intros i Hi.
        pose proof (Hfo i Hi). unfold Nat.lt. lia. }
      split.
      { constructor; [lia|]. eapply Forall_impl; [|exact S2]. cbn. intros; lia. }
      split.
      { intros i j [<-|Hi] Hj.
        - destruct (row_eqb (row_values j df) (row_values a df)) eqn:E; [|reflexivity].
          assert (X : existsb (fun j => row_eqb (row_values j df) (row_values a df))
                        kept = true).
          { apply existsb_exists. exists j. now split. }
          rewrite X in Ex. discriminate.
        - apply S3; [exact Hi|]. apply in_or_app. now left. }
      split.
      { intros i j [<-|Hi] [<-|Hj] Hij.
        - lia.
        - apply S3; [exact Hj|]. apply in_or_app. right. now left.
        - pose proof (Hfo i Hi). lia.
        - now apply S4. }
      intros i Hi. destruct (Nat.eq_dec i a) as [->|Hne].
      * exists a. split; [apply in_or_app; right; now left|].
        split; [lia|apply row_eqb_refl].
      * destruct (S5 i ltac:(lia)) as (j & Hj & Hji & Ej). exists j.
        split; [|now split].
        apply in_app_or in Hj as [Hj|Hj]; [|apply in_or_app; right; now right].
        apply in_app_or in Hj as [Hj|[<-|[]]]; apply in_or_app;
          [now left|right; now left].
Qed.

(** What [drop_duplicates] keeps of a frame that is not empty. *)
Lemma drop_duplicates_first_occurrences (df : DataFrame) :
  empty df = false ->
  exists keep : list nat,
    drop_duplicates df = sample keep df
    /\ StronglySorted Nat.lt keep
    /\ Forall (fun i => (i < nrows df)%nat) keep
    /\ (forall i j, In i keep -> In j keep ->
          row_eqb (row_values i df) (row_values j df) = true -> i = j)
    /\ (forall i, (i < nrows df)%nat ->
          exists j, In j keep /\ (j <= i)%nat
                    /\ row_eqb (row_values j df) (row_values i df) = true).
Proof.
  intros Hne. exists (first_occurrences df (seq 0 (nrows df)) []).
  destruct (first_occurrences_seq df (nrows df) 0 [] (Forall_nil _))
    as (S1 & S2 & _ & S4 & S5).
  split; [unfold drop_duplicates; now rewrite Hne|].
  split; [exact S1|]. split.
  { eapply Forall_impl; [|exact S2]. cbn. intros; lia. }
  split.
  - intros i j Hi Hj E. destruct (Nat.lt_trichotomy i j) as [Hlt|[Heq|Hgt]];
      [|exact Heq|].
    + rewrite (S4 i j Hi Hj Hlt) in E. discriminate.
    + rewrite row_eqb_sym, (S4 j i Hj Hi Hgt) in E. discriminate.
  - intros i Hi. apply (S5 i). lia.
Qed.

(** X24.  Which rows [clean_data] keeps of a frame that is not empty: the
    rows at an increasing list of positions, filled column by column.  No
    two kept rows had equal values in every column of the given frame, and
    every row of the given frame has the same values as a kept row at or
    before it, so that of each group of equal rows exactly the first is
    kept, with its label. *)
Theorem clean_data_keeps_first_occurrences (df : DataFrame) :
  empty df = false ->
  exists keep : list nat,
    Cleaners.clean_data df = map_columns bfill (map_columns ffill (sample keep df))
    /\ index (Cleaners.clean_data df) = map (fun i => nth i (index df) 0%Z) keep
    /\ StronglySorted Nat.lt keep
    /\ Forall (fun i => (i < nrows df)%nat) keep
    /\ (forall i j, In i keep -> In j keep ->
          row_eqb (row_values i df) (row_values j df) = true -> i = j)
    /\ (forall i, (i < nrows df)%nat ->
          exists j, In j keep /\ (j <= i)%nat
                    /\ row_eqb (row_values j df) (row_values i df) = true).
Proof.
  intros Hne.
  destruct (drop_duplicates_first_occurrences df Hne) as (keep & E & H).
  exists keep. unfold Cleaners.clean_data. rewrite E.
  split; [reflexivity|]. split; [reflexivity|exact H].
Qed.

Lemma clean_data_keeps_first_occurrences_witness :
  exists keep : list nat,
    Cleaners.clean_data
      (mkDataFrame [10; 20; 30]%Z [("Close"%string, [of_Z 5; NaN; of_Z 5])])
    = map_columns bfill
        (map_columns ffill
           (sample keep
              (mkDataFrame [10; 20; 30]%Z
                 [("Close"%string, [of_Z 5; NaN; of_Z 5])])))
    /\ index
         (Cleaners.clean_data
            (mkDataFrame [10; 20; 30]%Z [("Close"%string, [of_Z 5; NaN; of_Z 5])]))
       = map (fun i => nth i [10; 20; 30]%Z 0%Z) keep
    /\ StronglySorted Nat.lt keep
    /\ Forall (fun i => (i < 3)%nat) keep
    /\ (forall i j, In i keep -> In j keep ->
          row_eqb
            (row_values i
               (mkDataFrame [10; 20; 30]%Z [("Close"%string, [of_Z 5; NaN; of_Z 5])]))
            (row_values j
               (mkDataFrame [10; 20; 30]%Z [("Close"%string, [of_Z 5; NaN; of_Z 5])]))
          = true -> i = j)
    /\ (forall i, (i < 3)%nat ->
          exists j, In j keep /\ (j <= i)%nat
            /\ row_eqb
                 (row_values j
                    (mkDataFrame [10; 20; 30]%Z
                       [("Close"%string, [of_Z 5; NaN; of_Z 5])]))
                 (row_values i
                    (mkDataFrame [10; 20; 30]%Z
                       [("Close"%string, [of_Z 5; NaN; of_Z 5])]))
               = true).
Proof.
  apply (clean_data_keeps_first_occurrences
           (mkDataFrame [10; 20; 30]%Z [("Close"%string, [of_Z 5; NaN; of_Z 5])])).
  reflexivity.
Defined.

(** * Cleaning: the shape of the cleaned frame *)

Lemma subsequence_positions {A : Type} (d : A) (l : list A) :
  forall (a : nat) (keep : list nat),
  StronglySorted Nat.lt keep ->
  Forall (fun i => (a <= i < a + length l)%nat) keep ->
  subsequence (map (fun i => nth (i - a) l d) keep) l.
Proof.
  induction l as [|x l IH]; intros a keep Hs Hb.
  - destruct keep as [|k keep]; [constructor|].
    inversion Hb as [|? ? Hk _]; subst. cbn in Hk. lia.
  - destruct keep as [|k keep]; [constructor|].
    inversion Hs as [|? ? Hs' Hk]; subst. inversion Hb as [|? ? Hka Hb']; subst.
    assert (Hshift : forall keep',
               Forall (fun i => (S a <= i)%nat) keep' ->
               map (fun i => nth (i - a) (x :: l) d) keep'
               = map (fun i => nth (i - S a) l d) keep').
    { intros keep' H. apply map_ext_in. intros i Hi.
      rewrite Forall_forall in H. pose proof (H i Hi).
      replace (i - a)%nat with (S (i - S a)) by lia. reflexivity. }
    assert (Hrest : Forall (fun i => (S a <= i < S a + length l)%nat) keep).
    { apply Forall_forall. intros i Hi. rewrite Forall_forall in Hk, Hb'.
      pose proof (Hk i Hi) as H1. pose proof (Hb' i Hi) as H2.
      unfold Nat.lt in H1. cbn in H2. lia. }
    destruct (Nat.eq_dec k a) as [->|Hne].
    + cbn [map]. rewrite Nat.sub_diag. cbn [nth]. apply subsequence_take.
      rewrite Hshift by (eapply Forall_impl; [|exact Hrest]; cbn; intros; lia).
      now apply IH.
    + apply subsequence_skip.
      rewrite Hshift.
      * apply IH; [now constructor|]. constructor; [cbn in Hka; lia|exact Hrest].
      * constructor; [cbn in Hka; lia|].
        eapply Forall_impl; [|exact Hrest]. cbn. intros; lia.
Qed.

Lemma subsequence_refl {A : Type} (l : list A) : subsequence l l.
Proof. induction l; constructor; assumption. Qed.

Lemma column_names_map_columns (f : Series -> Series) (df : DataFrame) :
  column_names (map_columns f df) = column_names df.
Proof. unfold column_names, map_columns. cbn. now rewrite map_map. Qed.

Lemma column_names_sample (draw : list nat) (df : DataFrame) :
  column_names (sample draw df) = column_names df.
Proof. unfold column_names, sample. cbn. now rewrite map_map. Qed.

Lemma well_formed_map_columns (f : Series -> Series) (df : DataFrame) :
  (forall s, length (f s) = length s) ->
  well_formed df -> well_formed (map_columns f df).
Proof.
  intros Hf. unfold well_formed, map_columns, nrows. cbn.
  rewrite Forall_map. apply Forall_impl. intros c Hc. cbn. now rewrite Hf.
Qed.

Lemma well_formed_sample (draw : list nat) (df : DataFrame) :
  well_formed (sample draw df).
Proof.
  unfold well_formed, sample, nrows. cbn. rewrite Forall_map.
  apply Forall_forall. intros c _. cbn. now rewrite !length_map.
Qed.

Lemma first_occurrences_head (df : DataFrame) (n : nat) :
  exists rest, first_occurrences df (seq 0 (S n)) [] = 0%nat :: rest.
Proof. cbn. eexists. reflexivity. Qed.

Lemma empty_false (df : DataFrame) :
  empty df = false -> (0 < nrows df)%nat /\ columns df <> [].
Proof.
  unfold empty. intros H. apply orb_false_iff in H as [H1 H2].
  apply Nat.eqb_neq in H1. split; [lia|]. now destruct (columns df).
Qed.

(** The frame [clean_data] returns. *)
Lemma clean_data_frame (df : DataFrame) :
  well_formed df ->
  well_formed (Cleaners.clean_data df)
  /\ column_names (Cleaners.clean_data df) = column_names df
  /\ subsequence (index (Cleaners.clean_data df)) (index df)
  /\ (empty df = false ->
      empty (Cleaners.clean_data df) = false
      /\ hd_error (index (Cleaners.clean_data df)) = hd_error (index df)).
Proof.
  intros Hwf. unfold Cleaners.clean_data.
  assert (Hd : well_formed (drop_duplicates df)
               /\ column_names (drop_duplicates df) = column_names df).
  { unfold drop_duplicates. destruct (empty df); [now split|].
    split; [apply well_formed_sample|apply column_names_sample]. }
  destruct Hd as [Hdw Hdn].
  split.
  { apply well_formed_map_columns; [apply bfill_length|].
    apply well_formed_map_columns; [|exact Hdw].
    intros s. apply ffill_from_length. }
  split; [now rewrite !column_names_map_columns|].
  change (index (map_columns bfill (map_columns ffill (drop_duplicates df))))
    with (index (drop_duplicates df)).
  split.
  - unfold drop_duplicates. destruct (empty df); [apply subsequence_refl|].
    cbn [sample index].
    destruct (first_occurrences_seq df (nrows df) 0 [] (Forall_nil _))
      as (S1 & S2 & _).
    rewrite (map_ext (fun i => nth i (index df) 0%Z)
               (fun i => nth (i - 0) (index df) 0%Z))
      by (intros i; now rewrite Nat.sub_0_r).
    apply subsequence_positions; [exact S1|exact S2].
  - intros Hne. destruct (empty_false df Hne) as [Hrows Hcols].
    unfold drop_duplicates. rewrite Hne. unfold nrows in Hrows.
    destruct (index df) as [|k idx] eqn:Eidx; [cbn in Hrows; lia|].
    unfold nrows. rewrite Eidx. cbn [length].
    destruct (first_occurrences_head df (length idx)) as [rest ->].
    split; [|cbn; now rewrite Eidx].
    unfold empty, nrows. cbn. now destruct (columns df).
Qed.

(** X25.  [clean_data] keeps the shape of a well-formed frame: the result
    is well formed, has the same columns in the same order, and its index
    is the given index with some labels left out, the order kept.  Of a
    frame that is not empty the first row is always kept, so the result is
    not empty either. *)
Theorem clean_data_shape (df : DataFrame) :
  well_formed df ->
  well_formed (Cleaners.clean_data df)
  /\ column_names (Cleaners.clean_data df) = column_names df
  /\ subsequence (index (Cleaners.clean_data df)) (index df)
  /\ (empty df = false ->
      empty (Cleaners.clean_data df) = false
      /\ hd_error (index (Cleaners.clean_data df)) = hd_error (index df)).
Proof. exact (clean_data_frame df). Qed.

Lemma clean_data_shape_witness :
  well_formed
    (Cleaners.clean_data
       (mkDataFrame [10; 20; 30]%Z [("Close"%string, [of_Z 5; NaN; of_Z 5])]))
  /\ column_names
       (Cleaners.clean_data
          (mkDataFrame [10; 20; 30]%Z [("Close"%string, [of_Z 5; NaN; of_Z 5])]))
     = ["Close"%string]
  /\ subsequence
       (index
          (Cleaners.clean_data
             (mkDataFrame [10; 20; 30]%Z [("Close"%string, [of_Z 5; NaN; of_Z 5])])))
       [10; 20; 30]%Z
  /\ (empty (mkDataFrame [10; 20; 30]%Z [("Close"%string, [of_Z 5; NaN; of_Z 5])])
      = false ->
      empty
        (Cleaners.clean_data
           (mkDataFrame [10; 20; 30]%Z [("Close"%string, [of_Z 5; NaN; of_Z 5])]))
      = false
      /\ hd_error
           (index
              (Cleaners.clean_data
                 (mkDataFrame [10; 20; 30]%Z
                    [("Close"%string, [of_Z 5; NaN; of_Z 5])])))
         = Some 10%Z).
Proof.
  apply (clean_data_shape
           (mkDataFrame [10; 20; 30]%Z [("Close"%string, [of_Z 5; NaN; of_Z 5])])).
  repeat constructor.
Defined.

(** * Moving averages *)

Section IndicatorFacts.

Variable window_mean : nat -> Series -> nat -> Q.
Variable pct_change : Z -> Series -> Series.
Variable rolling_std : Z -> Series -> Series.

Lemma rolling_mean_nth (window : Z) (s m : Series) (i : nat) :
  rolling_mean window_mean window s = Some m -> (i < length s)%nat ->
  nth_error m i = Some (rolling_mean_at window_mean (Z.to_nat window) s i).
Proof.
  unfold rolling_mean. destruct (window <? 0)%Z; [discriminate|].
  intros H Hi. injection H as <-.
  rewrite nth_error_map, nth_error_seq.
  destruct (Nat.ltb_spec i (length s)); [reflexivity|lia].
Qed.

Lemma rolling_mean_length (window : Z) (s m : Series) :
  rolling_mean window_mean window s = Some m -> length m = length s.
Proof.
  unfold rolling_mean. destruct (window <? 0)%Z; [discriminate|].
  intros H. injection H as <-. now rewrite length_map, length_seq.
Qed.

Lemma window_nth (w i k : nat) (s : Series) :
  (w <= S i)%nat -> (k < w)%nat ->
  nth_error (firstn w (skipn (S i - w) s)) k = nth_error s (S i - w + k).
Proof.
  intros Hw Hk. rewrite nth_error_firstn, nth_error_skipn.
  destruct (Nat.ltb_spec k w); [reflexivity|lia].
Qed.

Lemma window_member (w i : nat) (s : Series) (x : num) :
  (w <= S i)%nat ->
  In x (firstn w (skipn (S i - w) s)) ->
  exists j, (j <= i)%nat /\ (i < j + w)%nat /\ nth_error s j = Some x.
Proof.
  intros Hw Hx. apply In_nth_error in Hx as [k Hk].
  assert (Hkw : (k < w)%nat).
  { rewrite nth_error_firstn in Hk. destruct (Nat.ltb_spec k w); [assumption|discriminate]. }
  rewrite (window_nth w i k s Hw Hkw) in Hk.
  exists (S i - w + k)%nat. split; [lia|]. split; [lia|exact Hk].
Qed.

(** The moving average over a positive window: which entries are missing. *)
Lemma rolling_mean_facts (window : Z) (s m : Series) :
  (0 < window)%Z ->
  rolling_mean window_mean window s = Some m ->
  length m = length s
  /\ (forall i, (i < length s)%nat -> (Z.of_nat i + 1 < window)%Z ->
        nth_error m i = Some NaN)
  /\ (forall i k, (i < length s)%nat -> (k <= i)%nat ->
        (Z.of_nat i < Z.of_nat k + window)%Z ->
        nth_error s k = Some NaN -> nth_error m i = Some NaN)
  /\ (forall i, (i < length s)%nat -> (window <= Z.of_nat i + 1)%Z ->
        (forall k, (k <= i)%nat -> (Z.of_nat i < Z.of_nat k + window)%Z ->
           exists q, nth_error s k = Some (Fin q)) ->
        exists a, nth_error m i = Some (Fin a))
  /\ (forall i a, nth_error m i = Some (Fin a) ->
        (window <= Z.of_nat i + 1)%Z
        /\ forall k, (k <= i)%nat -> (Z.of_nat i < Z.of_nat k + window)%Z ->
                     exists q, nth_error s k = Some (Fin q)).
Proof.
  intros Hw Hm. pose proof (rolling_mean_length _ _ _ Hm) as Hlen.
  set (w := Z.to_nat window).
  assert (Hwz : window = Z.of_nat w) by (unfold w; lia).
  assert (Hw0 : Nat.eqb w 0 = false) by (apply Nat.eqb_neq; lia).
  assert (Hgap : forall i k, (i < length s)%nat -> (k <= i)%nat ->
                   (Z.of_nat i < Z.of_nat k + window)%Z ->
                   nth_error s k = Some NaN -> nth_error m i = Some NaN).
  { intros i k Hi Hki Hin Hk. rewrite (rolling_mean_nth _ _ _ _ Hm Hi).
    unfold rolling_mean_at. fold w. rewrite Hw0.
    destruct (Nat.ltb_spec (S i) w) as [|Hfull]; [reflexivity|]. cbn [orb].
    destruct (forallb _ _) eqn:Hall; [|reflexivity].
    rewrite forallb_forall in Hall.
    assert (Hmem : In NaN (firstn w (skipn (S i - w) s))).
    { apply nth_error_In with (n := (k - (S i - w))%nat).
      rewrite window_nth by lia. rewrite <- Hk. f_equal. lia. }
    discriminate (Hall _ Hmem). }
  split; [exact Hlen|]. split.
  { intros i Hi Hshort. rewrite (rolling_mean_nth _ _ _ _ Hm Hi).
    unfold rolling_mean_at. fold w. rewrite Hw0.
    destruct (Nat.ltb_spec (S i) w); [reflexivity|lia]. }
  split; [exact Hgap|].
  split.
  { intros i Hi Hfull Hpresent. rewrite (rolling_mean_nth _ _ _ _ Hm Hi).
    unfold rolling_mean_at. fold w. rewrite Hw0.
    destruct (Nat.ltb_spec (S i) w) as [|Hfull']; [lia|]. cbn [orb].
    destruct (forallb _ _) eqn:Hall; [eexists; reflexivity|].
    exfalso. apply (eq_true_false_abs _ eq_refl). rewrite <- Hall at 1.
    symmetry. apply forallb_forall. intros x Hx.
    destruct (window_member w i s x Hfull' Hx) as (j & H1 & H2 & H3).
    destruct (Hpresent j H1 ltac:(lia)) as [q Hq].
    rewrite Hq in H3. now injection H3 as <-. }
  intros i a Hia.
  assert (Hi : (i < length s)%nat).
  { rewrite <- Hlen. apply nth_error_Some. now rewrite Hia. }
  assert (Hfull : (window <= Z.of_nat i + 1)%Z).
  { pose proof Hia as H. rewrite (rolling_mean_nth _ _ _ _ Hm Hi) in H.
    injection H as H. unfold rolling_mean_at in H. fold w in H. rewrite Hw0 in H.
    destruct (Nat.ltb_spec (S i) w) as [|Hf]; [discriminate|]. lia. }
  split; [exact Hfull|].
  intros k Hki Hin.
  destruct (nth_error s k) as [[|q]|] eqn:Ek.
  - rewrite (Hgap i k Hi Hki Hin Ek) in Hia. discriminate.
  - now exists q.
  - apply nth_error_None in Ek. lia.
Qed.

(** * The indicator columns *)

Lemma prefix_distinguishes (c c' : string) :
  String.prefix "MA_" c = true -> String.prefix "MA_" c' = false -> c <> c'.
Proof. intros H1 H2 E. rewrite E in H1. congruence. Qed.

Lemma rolling_mean_returns (window : Z) (s : Series) :
  (0 <= window)%Z -> exists m, rolling_mean window_mean window s = Some m.
Proof.
  intros H. unfold rolling_mean.
  destruct (Z.ltb_spec window 0); [lia|]. eexists. reflexivity.
Qed.

Lemma rolling_mean_raises (window : Z) (s : Series) :
  (window < 0)%Z -> rolling_mean window_mean window s = None.
Proof.
  intros H. unfold rolling_mean. destruct (Z.ltb_spec window 0); [reflexivity|lia].
Qed.

(** The frame [add_technical_indicators] returns, as four assignments. *)
Lemma add_technical_indicators_eval (df : DataFrame) (long short : Z)
  (close ma_long ma_short : Series) :
  get_col "Close" df = Some close ->
  rolling_mean window_mean long close = Some ma_long ->
  rolling_mean window_mean short close = Some ma_short ->
  Cleaners.add_technical_indicators window_mean pct_change rolling_std
    df long short
  = Ok (set_col "Volatility" (rolling_std short (pct_change 1 close))
          (set_col "Daily_Return" (pct_change 1 close)
             (set_col (Cleaners.ma_name short) ma_short
                (set_col (Cleaners.ma_name long) ma_long df)))).
Proof.
  intros Hc Hl Hs. unfold Cleaners.add_technical_indicators.
  assert (NL : Cleaners.ma_name long <> "Close"%string)
    by (apply prefix_distinguishes; [apply ma_name_prefix|reflexivity]).
  assert (NS : Cleaners.ma_name short <> "Close"%string)
    by (apply prefix_distinguishes; [apply ma_name_prefix|reflexivity]).
  rewrite Hc, Hl. rewrite (get_set_col_other _ _ _ _ NL), Hc, Hs.
  rewrite (get_set_col_other _ _ _ _ NS), (get_set_col_other _ _ _ _ NL), Hc.
  now rewrite get_set_col_same.
Qed.

(** X27.  On a frame with a [Close] column and two windows that are not
    negative, [add_technical_indicators] returns the frame with the same
    index and four columns set: the two moving averages of [Close] under
    the names [MA_<long>] and [MA_<short>], the daily return, and the
    volatility computed from the daily return over the short window.
    [Close] and every column with another name are as before. *)
Theorem add_technical_indicators_result (df : DataFrame) (long short : Z)
  (close : Series) :
  get_col "Close" df = Some close ->
  (0 <= long)%Z -> (0 <= short)%Z ->
  exists ma_long ma_short df',
    Cleaners.add_technical_indicators window_mean pct_change rolling_std
      df long short = Ok df'
    /\ rolling_mean window_mean long close = Some ma_long
    /\ rolling_mean window_mean short close = Some ma_short
    /\ index df' = index df
    /\ get_col (Cleaners.ma_name short) df' = Some ma_short
    /\ (long <> short -> get_col (Cleaners.ma_name long) df' = Some ma_long)
    /\ get_col "Daily_Return" df' = Some (pct_change 1 close)
    /\ get_col "Volatility" df' = Some (rolling_std short (pct_change 1 close))
    /\ get_col "Close" df' = Some close
    /\ (forall c,
          c <> Cleaners.ma_name long -> c <> Cleaners.ma_name short ->
          c <> "Daily_Return"%string -> c <> "Volatility"%string ->
          get_col c df' = get_col c df).
Proof.
  intros Hc Hl Hs.
  destruct (rolling_mean_returns long close Hl) as [ma_long Hml].
  destruct (rolling_mean_returns short close Hs) as [ma_short Hms].
  exists ma_long, ma_short. eexists.
  split; [apply (add_technical_indicators_eval df long short close _ _ Hc Hml Hms)|].
  assert (PL := ma_name_prefix long). assert (PS := ma_name_prefix short).
  split; [exact Hml|]. split; [exact Hms|]. split; [reflexivity|].
  split.
  { rewrite get_set_col_other by discriminate.
    rewrite get_set_col_other
      by (apply not_eq_sym, prefix_distinguishes; [exact PS|reflexivity]).
    apply get_set_col_same. }
  split.
  { intros Hne. rewrite get_set_col_other by discriminate.
    rewrite get_set_col_other
      by (apply not_eq_sym, prefix_distinguishes; [exact PL|reflexivity]).
    rewrite get_set_col_other
      by (intros E; apply Hne; symmetry; now apply ma_name_injective).
    apply get_set_col_same. }
  split.
  { rewrite get_set_col_other by discriminate. apply get_set_col_same. }
  split; [apply get_set_col_same|].
  split.
  { rewrite get_set_col_other by discriminate.
    rewrite get_set_col_other by discriminate.
    rewrite get_set_col_other
      by (apply prefix_distinguishes; [exact PS|reflexivity]).
    rewrite get_set_col_other
      by (apply prefix_distinguishes; [exact PL|reflexivity]).
    exact Hc. }
  intros c N1 N2 N3 N4.
  rewrite get_set_col_other by (now apply not_eq_sym).
  rewrite get_set_col_other by (now apply not_eq_sym).
  rewrite get_set_col_other by (now apply not_eq_sym).
  now rewrite get_set_col_other by (now apply not_eq_sym).
Qed.

(** X28.  When [add_technical_indicators] raises: [KeyError] for [Close]
    on a frame without that column, whatever the windows; [ValueError] on
    a negative long window, and on a negative short window when the long
    one is not negative.  In every other case it returns. *)
Theorem add_technical_indicators_raises (df : DataFrame) (long short : Z) :
  (get_col "Close" df = None ->
   Cleaners.add_technical_indicators window_mean pct_change rolling_std
     df long short
   = Raise (KeyError "Close"))
  /\ (get_col "Close" df <> None -> (long < 0)%Z ->
      Cleaners.add_technical_indicators window_mean pct_change rolling_std
        df long short
      = Raise ValueError)
  /\ (get_col "Close" df <> None -> (0 <= long)%Z -> (short < 0)%Z ->
      Cleaners.add_technical_indicators window_mean pct_change rolling_std
        df long short
      = Raise ValueError)
  /\ (get_col "Close" df <> None -> (0 <= long)%Z -> (0 <= short)%Z ->
      exists df',
        Cleaners.add_technical_indicators window_mean pct_change rolling_std
          df long short
        = Ok df').
Proof.
  unfold Cleaners.add_technical_indicators.
  assert (NL : Cleaners.ma_name long <> "Close"%string)
    by (apply prefix_distinguishes; [apply ma_name_prefix|reflexivity]).
  split; [now intros ->|].
  destruct (get_col "Close" df) as [close|] eqn:Hc.
  2:{ repeat split; intros H; now elim H. }
  split.
  { intros _ Hl. now rewrite (rolling_mean_raises long close Hl). }
  split.
  { intros _ Hl Hs. destruct (rolling_mean_returns long close Hl) as [ma_long ->].
    rewrite (get_set_col_other _ _ _ _ NL), Hc.
    now rewrite (rolling_mean_raises short close Hs). }
  intros _ Hl Hs.
  destruct (rolling_mean_returns long close Hl) as [ma_long Hml].
  destruct (rolling_mean_returns short close Hs) as [ma_short Hms].
  eexists.
  pose proof (add_technical_indicators_eval df long short close _ _ Hc Hml Hms) as H.
  unfold Cleaners.add_technical_indicators in H. rewrite Hc in H. exact H.
Qed.

(** The moving-average column of a window that was asked for. *)
Lemma indicators_ma_column (df df' : DataFrame) (long short w : Z) (close : Series) :
  get_col "Close" df = Some close ->
  Cleaners.add_technical_indicators window_mean pct_change rolling_std
    df long short = Ok df' ->
  w = long \/ w = short ->
  exists m,
    rolling_mean window_mean w close = Some m /\ get_col (Cleaners.ma_name w) df' = Some m.
Proof.
  intros Hc Hrun Hw.
  pose proof Hrun as H. unfold Cleaners.add_technical_indicators in H.
  rewrite Hc in H.
  destruct (rolling_mean window_mean long close) as [ma_long|] eqn:Hml;
    [|discriminate].
  assert (NL : Cleaners.ma_name long <> "Close"%string)
    by (apply prefix_distinguishes; [apply ma_name_prefix|reflexivity]).
  rewrite (get_set_col_other _ _ _ _ NL), Hc in H.
  destruct (rolling_mean window_mean short close) as [ma_short|] eqn:Hms;
    [|discriminate].
  clear H.
  rewrite (add_technical_indicators_eval df long short close _ _ Hc Hml Hms) in Hrun.
  injection Hrun as <-.
  assert (PL := ma_name_prefix long). assert (PS := ma_name_prefix short).
  assert (GS : get_col (Cleaners.ma_name short)
                 (set_col "Volatility" (rolling_std short (pct_change 1 close))
                    (set_col "Daily_Return" (pct_change 1 close)
                       (set_col (Cleaners.ma_name short) ma_short
                          (set_col (Cleaners.ma_name long) ma_long df))))
               = Some ma_short).
  { rewrite get_set_col_other by discriminate.
    rewrite get_set_col_other
      by (apply not_eq_sym, prefix_distinguishes; [exact PS|reflexivity]).
    apply get_set_col_same. }
  destruct (Z.eq_dec long short) as [E|Hne].
  - assert (w = short) as -> by (destruct Hw; congruence).
    exists ma_short. now split.
  - destruct Hw as [-> | ->]; [|exists ma_short; now split].
    exists ma_long. split; [exact Hml|].
    rewrite get_set_col_other by discriminate.
    rewrite get_set_col_other
      by (apply not_eq_sym, prefix_distinguishes; [exact PL|reflexivity]).
    rewrite get_set_col_other
      by (intros E; apply Hne; symmetry; now apply ma_name_injective).
    apply get_set_col_same.
Qed.

(** X26.  The moving-average column [add_technical_indicators] writes for
    a positive window [w], against the [Close] column: it has one entry per
    period; the entry is missing while the window is not yet full and
    whenever the window holds a missing price, and it is present on a full
    window of present prices, and only there.  (Which value a present
    entry holds is the library's rounded mean, about which nothing is
    stated.) *)
Theorem moving_average_columns (df df' : DataFrame) (long short w : Z)
  (close : Series) :
  get_col "Close" df = Some close ->
  Cleaners.add_technical_indicators window_mean pct_change rolling_std
    df long short
  = Ok df' ->
  w = long \/ w = short ->
  (0 < w)%Z ->
  exists m,
    get_col (Cleaners.ma_name w) df' = Some m
    /\ length m = length close
    /\ (forall i, (i < length close)%nat -> (Z.of_nat i + 1 < w)%Z ->
          nth_error m i = Some NaN)
    /\ (forall i k, (i < length close)%nat -> (k <= i)%nat ->
          (Z.of_nat i < Z.of_nat k + w)%Z ->
          nth_error close k = Some NaN -> nth_error m i = Some NaN)
    /\ (forall i, (i < length close)%nat -> (w <= Z.of_nat i + 1)%Z ->
          (forall k, (k <= i)%nat -> (Z.of_nat i < Z.of_nat k + w)%Z ->
             exists q, nth_error close k = Some (Fin q)) ->
          exists a, nth_error m i = Some (Fin a))
    /\ (forall i a, nth_error m i = Some (Fin a) ->
          (w <= Z.of_nat i + 1)%Z
          /\ forall k, (k <= i)%nat -> (Z.of_nat i < Z.of_nat k + w)%Z ->
                       exists q, nth_error close k = Some (Fin q)).
Proof.
  intros Hc Hrun Hw Hpos.
  destruct (indicators_ma_column df df' long short w close Hc Hrun Hw)
    as (m & Hm & Hg).
  exists m. split; [exact Hg|]. exact (rolling_mean_facts w close m Hpos Hm).
Qed.

(** * From the indicators to the signals *)

Lemma filter_names_assign_new (keep : string -> bool) (c : string) (v : Series)
  (cols : list (string * Series)) :
  keep c = true -> ~ In c (map fst cols) ->
  filter keep (map fst (assign c v cols)) = filter keep (map fst cols) ++ [c].
Proof.
  intros Hk. induction cols as [|[c' v'] rest IH]; intros Hn; cbn.
  - now rewrite Hk.
  - destruct (String.eqb_spec c' c) as [->|Hc]; [elim Hn; now left|].
    cbn. rewrite IH by (intros H; apply Hn; now right).
    now destruct (keep c').
Qed.

Lemma names_assign_present (c : string) (v : Series) (cols : list (string * Series)) :
  In c (map fst cols) -> map fst (assign c v cols) = map fst cols.
Proof.
  induction cols as [|[c' v'] rest IH]; cbn; [tauto|].
  intros H. destruct (String.eqb_spec c' c) as [->|Hc]; [reflexivity|].
  cbn. f_equal. apply IH. destruct H as [H|H]; [contradiction|exact H].
Qed.

Lemma ma_columns_set_new (c : string) (v : Series) (df : DataFrame) :
  String.prefix "MA_" c = true -> ~ In c (ma_columns df) ->
  ma_columns (set_col c v df) = ma_columns df ++ [c].
Proof.
  intros Hp Hn. unfold ma_columns, column_names. cbn.
  apply filter_names_assign_new; [exact Hp|].
  intros H. apply Hn. unfold ma_columns, column_names. apply filter_In. now split.
Qed.

Lemma ma_columns_set_present (c : string) (v : Series) (df : DataFrame) :
  In c (ma_columns df) -> ma_columns (set_col c v df) = ma_columns df.
Proof.
  intros H. unfold ma_columns, column_names in *. cbn.
  apply filter_In in H as [H _]. now rewrite names_assign_present.
Qed.

(** The [MA_] columns of the frame with indicators, for a frame that had
    none before. *)
Lemma indicators_ma_columns (df df' : DataFrame) (long short : Z) :
  ma_columns df = [] ->
  Cleaners.add_technical_indicators window_mean pct_change rolling_std
    df long short = Ok df' ->
  ma_columns df'
  = if Z.eqb long short then [Cleaners.ma_name long]
    else [Cleaners.ma_name long; Cleaners.ma_name short].
Proof.
  intros Hno Hrun. unfold Cleaners.add_technical_indicators in Hrun.
  assert (NL : Cleaners.ma_name long <> "Close"%string)
    by (apply prefix_distinguishes; [apply ma_name_prefix|reflexivity]).
  assert (NS : Cleaners.ma_name short <> "Close"%string)
    by (apply prefix_distinguishes; [apply ma_name_prefix|reflexivity]).
  destruct (get_col "Close" df) as [close|] eqn:Hc; [|discriminate].
  destruct (rolling_mean window_mean long close) as [ma_long|];
    [|discriminate].
  rewrite (get_set_col_other _ _ _ _ NL), Hc in Hrun.
  destruct (rolling_mean window_mean short close) as [ma_short|];
    [|discriminate].
  rewrite (get_set_col_other _ _ _ _ NS), (get_set_col_other _ _ _ _ NL), Hc in Hrun.
  rewrite get_set_col_same in Hrun. injection Hrun as <-.
  rewrite ma_columns_set_col by reflexivity.
  rewrite ma_columns_set_col by reflexivity.
  assert (H1 : ma_columns (set_col (Cleaners.ma_name long) ma_long df)
               = [Cleaners.ma_name long]).
  { rewrite ma_columns_set_new; [now rewrite Hno|apply ma_name_prefix|].
    rewrite Hno. intros []. }
  destruct (Z.eqb_spec long short) as [->|Hne].
  - rewrite ma_columns_set_present; [exact H1|]. rewrite H1. now left.
  - rewrite ma_columns_set_new; [now rewrite H1|apply ma_name_prefix|].
    rewrite H1. intros [E|[]]. apply Hne. now apply ma_name_injective.
Qed.

(** With two different windows the crossover policy takes the smaller one
    as the short window, in whichever order they were given. *)
Lemma indicators_select_ma (df df' : DataFrame) (long short : Z) :
  ma_columns df = [] ->
  Cleaners.add_technical_indicators window_mean pct_change rolling_std
    df long short = Ok df' ->
  long <> short ->
  select_ma df'
  = Ok (Cleaners.ma_name (Z.min long short), Cleaners.ma_name (Z.max long short)).
Proof.
  intros Hno Hrun Hne. unfold select_ma.
  rewrite (indicators_ma_columns df df' long short Hno Hrun).
  destruct (Z.eqb_spec long short) as [|_]; [contradiction|].
  cbn [length Nat.leb keyed]. rewrite !sort_key_ma_name.
  cbn [sort_by_key fold_right insert_by_key fst].
  destruct (Z.leb_spec long short) as [Hle|Hgt]; cbn [map snd].
  - now rewrite Z.min_l, Z.max_r by lia.
  - now rewrite Z.min_r, Z.max_l by lia.
Qed.

(** The two moving averages as the crossover policy finds them in the
    frame with indicators. *)
Lemma indicators_columns (df df' : DataFrame) (long short : Z) (close : Series) :
  well_formed df ->
  ma_columns df = [] ->
  get_col "Close" df = Some close ->
  Cleaners.add_technical_indicators window_mean pct_change rolling_std
    df long short = Ok df' ->
  long <> short ->
  exists m_short m_long,
    rolling_mean window_mean (Z.min long short) close = Some m_short
    /\ rolling_mean window_mean (Z.max long short) close = Some m_long
    /\ select_ma df'
       = Ok (Cleaners.ma_name (Z.min long short), Cleaners.ma_name (Z.max long short))
    /\ get_col (Cleaners.ma_name (Z.min long short)) df' = Some m_short
    /\ get_col (Cleaners.ma_name (Z.max long short)) df' = Some m_long
    /\ length m_short = nrows df' /\ length m_long = nrows df'
    /\ index df' = index df.
Proof.
  intros Hwf Hno Hc Hrun Hne.
  assert (Hwin : exists ma_long ma_short,
             rolling_mean window_mean long close = Some ma_long
             /\ rolling_mean window_mean short close = Some ma_short
             /\ df' = set_col "Volatility" (rolling_std short (pct_change 1 close))
                        (set_col "Daily_Return" (pct_change 1 close)
                           (set_col (Cleaners.ma_name short) ma_short
                              (set_col (Cleaners.ma_name long) ma_long df)))).
  { pose proof Hrun as H. unfold Cleaners.add_technical_indicators in H.
    rewrite Hc in H.
    destruct (rolling_mean window_mean long close) as [ma_long|] eqn:Hml;
      [|discriminate].
    assert (NL : Cleaners.ma_name long <> "Close"%string)
      by (apply prefix_distinguishes; [apply ma_name_prefix|reflexivity]).
    rewrite (get_set_col_other _ _ _ _ NL), Hc in H.
    destruct (rolling_mean window_mean short close) as [ma_short|] eqn:Hms;
      [|discriminate].
    clear H. exists ma_long, ma_short. split; [reflexivity|]. split; [reflexivity|].
    rewrite (add_technical_indicators_eval
               df long short close _ _ Hc Hml Hms) in Hrun.
    now injection Hrun. }
  destruct Hwin as (ma_long & ma_short & Hml & Hms & Hdf).
  assert (PL := ma_name_prefix long). assert (PS := ma_name_prefix short).
  assert (GS : get_col (Cleaners.ma_name short) df' = Some ma_short).
  { rewrite Hdf. rewrite get_set_col_other by discriminate.
    rewrite get_set_col_other
      by (apply not_eq_sym, prefix_distinguishes; [exact PS|reflexivity]).
    apply get_set_col_same. }
  assert (GL : get_col (Cleaners.ma_name long) df' = Some ma_long).
  { rewrite Hdf. rewrite get_set_col_other by discriminate.
    rewrite get_set_col_other
      by (apply not_eq_sym, prefix_distinguishes; [exact PL|reflexivity]).
    rewrite get_set_col_other
      by (intros E; apply Hne; symmetry; now apply ma_name_injective).
    apply get_set_col_same. }
  pose proof (indicators_select_ma df df' long short Hno Hrun Hne) as Hsel.
  assert (Hn : nrows df' = nrows df) by now rewrite Hdf.
  assert (Hi : index df' = index df) by now rewrite Hdf.
  pose proof (well_formed_col _ _ _ Hwf Hc) as Lc.
  pose proof (rolling_mean_length _ _ _ Hml) as Ll.
  pose proof (rolling_mean_length _ _ _ Hms) as Ls.
  destruct (Z.leb_spec long short) as [Hle|Hgt].
  - rewrite Z.min_l, Z.max_r in * by lia. exists ma_long, ma_short.
    repeat split; try assumption; congruence.
  - rewrite Z.min_r, Z.max_l in * by lia. exists ma_short, ma_long.
    repeat split; try assumption; congruence.
Qed.

(** X29.  Feeding the result of [add_technical_indicators] to the
    backtester, for a well-formed frame that had no [MA_] column before.
    With two different windows [generate_signals] returns, whichever order
    the windows were given in: it reads the moving average over the smaller
    window as the short one, and the signal of a period is the crossover of
    the two moving averages of [Close].  With two equal windows there is
    one [MA_] column only and [generate_signals] raises [KeyError] for
    MA_20 or MA_50. *)
Theorem indicators_feed_crossover (df df' : DataFrame) (long short : Z)
  (close : Series) (ib : num) :
  well_formed df ->
  ma_columns df = [] ->
  get_col "Close" df = Some close ->
  Cleaners.add_technical_indicators window_mean pct_change rolling_std
    df long short = Ok df' ->
  (long <> short ->
   exists m_short m_long self',
     rolling_mean window_mean (Z.min long short) close = Some m_short
     /\ rolling_mean window_mean (Z.max long short) close = Some m_long
     /\ select_ma df'
        = Ok (Cleaners.ma_name (Z.min long short), Cleaners.ma_name (Z.max long short))
     /\ generate_signals (new df' ib) = (Ok tt, self')
     /\ get_col "Signal" (data self')
        = Some (map (fun p => crossover_spec (fst p) (snd p))
                  (combine m_short m_long)))
  /\ (long = short ->
      exists c,
        (c = "MA_20"%string \/ c = "MA_50"%string)
        /\ fst (generate_signals (new df' ib)) = Raise (KeyError c)).
Proof.
  intros Hwf Hno Hc Hrun. split.
  - intros Hne.
    destruct (indicators_columns df df' long short close Hwf Hno Hc Hrun Hne)
      as (m_short & m_long & R1 & R2 & Hsel & G1 & G2 & L1 & L2 & _).
    exists m_short, m_long. eexists.
    split; [exact R1|]. split; [exact R2|]. split; [exact Hsel|].
    split; [apply (generate_signals_spec (new df' ib) _ _ m_short m_long Hsel G1 G2)|].
    cbn [data with_data new]. rewrite get_set_col_same.
    now rewrite (crossover_column m_short m_long (nrows df') L1 L2).
  - intros Heq.
    pose proof (indicators_ma_columns df df' long short Hno Hrun) as Hma.
    destruct (generate_signals_fallback (new df' ib)) as (c & Hcases & _ & Hraise).
    + cbn [data new]. rewrite Hma.
      destruct (Z.eqb_spec long short); [cbn; lia|contradiction].
    + exists c. split; [exact Hcases|]. now rewrite Hraise.
Qed.

(** * From raw prices to a backtest *)

Lemma row_get_row_at (c : string) (i : nat) (df : DataFrame) :
  row_get c (row_at i df) = option_map (fun v => nth i v NaN) (get_col c df).
Proof.
  unfold row_at, get_col. induction (columns df) as [|[c' v] cols IH]; [reflexivity|].
  cbn. destruct (String.eqb c' c); [reflexivity|exact IH].
Qed.

Lemma firstn_combine_seq (k : nat) :
  forall (a n : nat) (idx : list Z) (p : nat * Z),
  In p (firstn k (combine (seq a n) idx)) -> (a <= fst p < a + k)%nat.
Proof.
  induction k as [|k IH]; intros a n idx p Hp; [destruct Hp|].
  destruct n as [|n]; [destruct Hp|]. destruct idx as [|x idx]; [destruct Hp|].
  cbn in Hp. destruct Hp as [<-|Hp]; [cbn; lia|].
  pose proof (IH _ _ _ _ Hp). lia.
Qed.

(** The first [k] rows are the rows at the positions below [k]. *)
Lemma iterrows_prefix (df : DataFrame) (k : nat) (ir : Z * Row) :
  In ir (firstn k (iterrows df)) -> exists i, (i < k)%nat /\ snd ir = row_at i df.
Proof.
  unfold iterrows. rewrite firstn_map. intros H.
  apply in_map_iff in H as [p [<- Hp]]. exists (fst p). split; [|reflexivity].
  pose proof (firstn_combine_seq _ _ _ _ _ Hp). lia.
Qed.

Lemma execute_rows_no_entry (rows : list (Z * Row)) (self : Backtester) :
  position self = 0%Z -> Forall no_entry_signal rows ->
  fold_left execute_row rows self = self.
Proof.
  intros Hp Hall. induction Hall as [|ir rows Hir _ IH]; cbn [fold_left]; [reflexivity|].
  now rewrite (execute_row_no_entry self ir Hp Hir).
Qed.

(** A FLAT object passes over leading rows without entry signal unchanged:
    its new ledger entries come from the rows after them. *)
Lemma execute_rows_idle_prefix (rows : list (Z * Row)) (k : nat) (self : Backtester) :
  position self = 0%Z ->
  Forall no_entry_signal (firstn k rows) ->
  exists T,
    trades (fold_left execute_row rows self) = trades self ++ T
    /\ subsequence (map label T) (skipn k (map fst rows)).
Proof.
  intros Hp Hall.
  replace (fold_left execute_row rows self)
    with (fold_left execute_row (firstn k rows ++ skipn k rows) self)
    by (now rewrite firstn_skipn).
  rewrite fold_left_app, (execute_rows_no_entry _ _ Hp Hall).
  destruct (execute_rows_entries (skipn k rows) self) as (T & HT & Hsub & _).
  exists T. split; [exact HT|]. now rewrite skipn_map.
Qed.

Lemma rolling_mean_warm_up (window : Z) (s m : Series) (i : nat) :
  rolling_mean window_mean window s = Some m ->
  (i < length s)%nat -> (Z.of_nat i + 1 < window)%Z ->
  nth_error m i = Some NaN.
Proof.
  intros Hm Hi Hshort. rewrite (rolling_mean_nth _ _ _ _ Hm Hi).
  unfold rolling_mean_at.
  destruct (Nat.ltb_spec (S i) (Z.to_nat window)); [|lia].
  now rewrite orb_true_r.
Qed.

Lemma nth_error_combine_Some {A B : Type} (l : list A) (l' : list B) (i : nat)
  (x : A) (y : B) :
  nth_error l i = Some x -> nth_error l' i = Some y ->
  nth_error (combine l l') i = Some (x, y).
Proof.
  revert l' i. induction l as [|a l IH]; intros [|b l'] [|i] H1 H2;
    try discriminate; cbn in *.
  - congruence.
  - now apply IH.
Qed.

Lemma subsequence_NoDup {A : Type} (l1 l2 : list A) :
  subsequence l1 l2 -> NoDup l2 -> NoDup l1.
Proof.
  induction 1 as [l|y l1 l2 Hs IH|y l1 l2 Hs IH]; intros Hnd.
  - constructor.
  - apply IH. now inversion Hnd.
  - inversion Hnd as [|? ? Hy Hrest]; subst. constructor; [|now apply IH].
    intros Hin. apply Hy. exact (subsequence_In _ _ Hs y Hin).
Qed.

(** The full pipeline on a frame where the crossover policy finds its two
    columns: it returns, with the ledger of the pass over the rows. *)
Lemma crossover_run_ledger (d : DataFrame) (b : Q) (short_ma long_ma : string)
  (s l : Series) :
  select_ma d = Ok (short_ma, long_ma) ->
  get_col short_ma d = Some s ->
  get_col long_ma d = Some l ->
  ~ b == 0 ->
  exists r pv self',
    run_backtest BacktesterClass (new d (Fin b)) = (Ok (r, pv), self')
    /\ trades self'
       = trades
           (fold_left execute_row
              (iterrows
                 (set_col "Signal"
                    (where_set (compare lt s l) (of_Z (-1))
                       (where_set (compare gt s l) (of_Z 1)
                          (repeat (of_Z 0) (nrows d)))) d))
              (new
                 (set_col "Signal"
                    (where_set (compare lt s l) (of_Z (-1))
                       (where_set (compare gt s l) (of_Z 1)
                          (repeat (of_Z 0) (nrows d)))) d)
                 (Fin b))).
Proof.
  intros Hsel Hsv Hlv Hb.
  unfold run_backtest. cbn [cls_generate_signals cls_execute_trades BacktesterClass].
  rewrite (bind_ok _ _ _ _ _
             (generate_signals_spec (new d (Fin b)) short_ma long_ma s l Hsel Hsv Hlv)).
  cbn [new data].
  set (sig := where_set _ _ _).
  change (with_data (set_col "Signal" sig d) (mkBacktester d (Fin b) (Fin b) 0 []))
    with (new (set_col "Signal" sig d) (Fin b)).
  set (s1 := new (set_col "Signal" sig d) (Fin b)).
  unfold bind at 1. unfold execute_trades at 1, update.
  change (data s1) with (set_col "Signal" sig d).
  set (s2 := fold_left execute_row (iterrows (set_col "Signal" sig d)) s1).
  destruct (execute_rows_effect (iterrows (set_col "Signal" sig d)) s1 s1 eq_refl)
    as (_ & D & I & T & HT & _ & HL & _).
  fold s2 in D, I, HT.
  destruct (calculate_performance_returns s2 b)
    as (pv & self' & Hcp & SL & _).
  - rewrite I. reflexivity.
  - exact Hb.
  - rewrite HT, D. cbn [trades s1 new app].
    eapply Forall_impl; [|exact HL]. cbn beta. intros t Ht.
    apply in_map_iff in Ht as [ir [<- Hir]]. now apply iterrows_labels.
  - eexists _, pv, self'. split; [exact Hcp|].
    destruct SL as (_ & _ & SLt). exact SLt.
Qed.

(** X30.  From raw prices to a backtest.  For a well-formed raw frame that
    is not empty, has no repeated label, has a [Close] column and no [MA_]
    column, and two different windows that are not negative,
    [preprocess_data] returns a frame whose index is the raw index with
    some labels left out (so without repeated label either), and
    [run_backtest] on a fresh object over that frame, with a non-zero
    initial balance, returns.  No trade is recorded while the longer of
    the two windows is not yet full: the labels of the ledger are, in
    order, among the labels from position max(long, short) - 1 on. *)
Theorem preprocessed_data_runs (raw : DataFrame) (long short : Z) (b : Q) :
  well_formed raw ->
  empty raw = false ->
  NoDup (index raw) ->
  In "Close"%string (column_names raw) ->
  ma_columns raw = [] ->
  (0 <= long)%Z -> (0 <= short)%Z -> long <> short ->
  ~ b == 0 ->
  exists processed r pv self',
    Cleaners.preprocess_data window_mean pct_change rolling_std raw long short
    = Ok processed
    /\ subsequence (index processed) (index raw)
    /\ NoDup (index processed)
    /\ run_backtest BacktesterClass (new processed (Fin b)) = (Ok (r, pv), self')
    /\ subsequence (map label (trades self'))
         (skipn (Z.to_nat (Z.max long short - 1)) (index processed)).
Proof.
  intros Hwf Hne Hnd Hclose Hno Hl Hs Hdiff Hb.
  destruct (clean_data_frame raw Hwf) as (Wc & Nc & Sub & _).
  set (cleaned := Cleaners.clean_data raw) in *.
  assert (Hno' : ma_columns cleaned = []).
  { unfold ma_columns. rewrite Nc. exact Hno. }
  assert (Hc : exists close, get_col "Close" cleaned = Some close).
  { apply lookup_In. fold (column_names cleaned). now rewrite Nc. }
  destruct Hc as [close Hc].
  destruct (rolling_mean_returns long close Hl) as [ma_long Hml].
  destruct (rolling_mean_returns short close Hs) as [ma_short Hms].
  pose proof (add_technical_indicators_eval
                cleaned long short close _ _ Hc Hml Hms) as Hrun.
  set (processed := set_col "Volatility" _ _) in Hrun.
  destruct (indicators_columns cleaned processed long short
              close Wc Hno' Hc Hrun Hdiff)
    as (m_short & m_long & R1 & R2 & Hsel & G1 & G2 & L1 & L2 & Hidx).
  destruct (crossover_run_ledger processed b _ _ m_short m_long Hsel G1 G2 Hb)
    as (r & pv & self' & Hrb & Htr).
  exists processed, r, pv, self'.
  split; [unfold Cleaners.preprocess_data; rewrite Hne; exact Hrun|].
  split; [rewrite Hidx; exact Sub|].
  split; [rewrite Hidx; exact (subsequence_NoDup _ _ Sub Hnd)|].
  split; [exact Hrb|].
  rewrite (crossover_column m_short m_long (nrows processed) L1 L2) in Htr.
  set (sig := map _ (combine m_short m_long)) in Htr.
  set (d1 := set_col "Signal" sig processed) in Htr.
  set (k := Z.to_nat (Z.max long short - 1)).
  destruct (execute_rows_idle_prefix (iterrows d1) k (new d1 (Fin b)) eq_refl)
    as (T & HT & HsubT).
  - apply Forall_forall. intros ir Hir.
    destruct (iterrows_prefix d1 k ir Hir) as (i & Hik & Hrow).
    unfold no_entry_signal. rewrite Hrow, !row_get_row_at.
    unfold d1 at 1. rewrite get_set_col_same. cbn [option_map].
    destruct (get_col "Close" d1) as [c|]; [cbn [option_map]|exact I].
    destruct (Nat.lt_ge_cases i (nrows processed)) as [Hlt|Hge].
    + right.
      assert (Hx : exists x, nth_error m_short i = Some x).
      { destruct (nth_error m_short i) eqn:E; [eexists; reflexivity|].
        apply nth_error_None in E. lia. }
      destruct Hx as [x Hx].
      assert (Hy : nth_error m_long i = Some NaN).
      { apply (rolling_mean_warm_up (Z.max long short) close m_long i R2).
        - rewrite <- (rolling_mean_length _ _ _ R2). lia.
        - unfold k in Hik. lia. }
      assert (Hsig : nth i sig NaN = of_Z 0).
      { apply nth_error_nth. unfold sig.
        rewrite nth_error_map, (nth_error_combine_Some _ _ _ _ _ Hx Hy).
        cbn [option_map fst snd]. f_equal. now destruct x. }
      rewrite Hsig. cbn. split; discriminate.
    + left. rewrite nth_overflow; [reflexivity|].
      unfold sig. rewrite length_map, length_combine. lia.
  - rewrite Htr, HT. cbn [trades new app].
    rewrite iterrows_index in HsubT. exact HsubT.
Qed.

End IndicatorFacts.

Lemma moving_average_columns_witness :
  exists df' m,
    Cleaners.add_technical_indicators exact_mean (fun _ s => s) (fun _ s => s)
      (mkDataFrame [1; 2; 3]%Z [("Close"%string, [of_Z 1; of_Z 3; of_Z 2])]) 2 1
    = Ok df'
    /\ get_col (Cleaners.ma_name 2) df' = Some m
    /\ length m = 3%nat
    /\ nth_error m 0 = Some NaN
    /\ (exists a, nth_error m 1 = Some (Fin a)).
Proof.
  eexists.
  destruct (moving_average_columns exact_mean (fun _ s => s) (fun _ s => s)
              (mkDataFrame [1; 2; 3]%Z [("Close"%string, [of_Z 1; of_Z 3; of_Z 2])])
              _ 2 1 2 [of_Z 1; of_Z 3; of_Z 2] eq_refl eq_refl
              (or_introl eq_refl) eq_refl)
    as (m & Hg & Hlen & Hwarm & _ & Hfull & _).
  exists m. split; [reflexivity|]. split; [exact Hg|]. split; [exact Hlen|].
  split; [apply Hwarm; [cbn; lia|lia]|].
  apply Hfull; [cbn; lia|lia|].
  intros [|[|k]] Hk Hin; [eexists; reflexivity|eexists; reflexivity|lia].
Defined.

Lemma add_technical_indicators_result_witness :
  exists ma_long ma_short df',
    Cleaners.add_technical_indicators exact_mean (fun _ s => s) (fun _ s => s)
      (mkDataFrame [1; 2; 3]%Z [("Close"%string, [of_Z 1; of_Z 3; of_Z 2])]) 2 1
    = Ok df'
    /\ rolling_mean exact_mean 2 [of_Z 1; of_Z 3; of_Z 2] = Some ma_long
    /\ rolling_mean exact_mean 1 [of_Z 1; of_Z 3; of_Z 2] = Some ma_short
    /\ index df' = [1; 2; 3]%Z
    /\ get_col (Cleaners.ma_name 1) df' = Some ma_short
    /\ (2%Z <> 1%Z -> get_col (Cleaners.ma_name 2) df' = Some ma_long)
    /\ get_col "Daily_Return" df' = Some [of_Z 1; of_Z 3; of_Z 2]
    /\ get_col "Volatility" df' = Some [of_Z 1; of_Z 3; of_Z 2]
    /\ get_col "Close" df' = Some [of_Z 1; of_Z 3; of_Z 2]
    /\ (forall c,
          c <> Cleaners.ma_name 2 -> c <> Cleaners.ma_name 1 ->
          c <> "Daily_Return"%string -> c <> "Volatility"%string ->
          get_col c df'
          = get_col c
              (mkDataFrame [1; 2; 3]%Z [("Close"%string, [of_Z 1; of_Z 3; of_Z 2])])).
Proof.
  apply (add_technical_indicators_result exact_mean (fun _ s => s) (fun _ s => s)
           (mkDataFrame [1; 2; 3]%Z [("Close"%string, [of_Z 1; of_Z 3; of_Z 2])])
           2 1 [of_Z 1; of_Z 3; of_Z 2]).
  - reflexivity.
  - lia.
  - lia.
Defined.

Lemma indicators_feed_crossover_witness :
  exists df',
    Cleaners.add_technical_indicators exact_mean (fun _ s => s) (fun _ s => s)
      (mkDataFrame [1; 2; 3]%Z [("Close"%string, [of_Z 1; of_Z 3; of_Z 2])]) 1 2
    = Ok df'
    /\ (1%Z <> 2%Z ->
        exists m_short m_long self',
          rolling_mean exact_mean (Z.min 1 2) [of_Z 1; of_Z 3; of_Z 2] = Some m_short
          /\ rolling_mean exact_mean (Z.max 1 2) [of_Z 1; of_Z 3; of_Z 2] = Some m_long
          /\ select_ma df'
             = Ok (Cleaners.ma_name (Z.min 1 2), Cleaners.ma_name (Z.max 1 2))
          /\ generate_signals (new df' (Fin 10000)) = (Ok tt, self')
          /\ get_col "Signal" (data self')
             = Some (map (fun p => crossover_spec (fst p) (snd p))
                       (combine m_short m_long)))
    /\ (1%Z = 2%Z ->
        exists c,
          (c = "MA_20"%string \/ c = "MA_50"%string)
          /\ fst (generate_signals (new df' (Fin 10000))) = Raise (KeyError c)).
Proof.
  eexists. split; [reflexivity|].
  apply (indicators_feed_crossover exact_mean (fun _ s => s) (fun _ s => s)
           (mkDataFrame [1; 2; 3]%Z [("Close"%string, [of_Z 1; of_Z 3; of_Z 2])])
           _ 1 2 [of_Z 1; of_Z 3; of_Z 2] (Fin 10000)).
  - repeat constructor.
  - reflexivity.
  - reflexivity.
  - reflexivity.
Defined.

Lemma preprocessed_data_runs_witness :
  exists processed r pv self',
    Cleaners.preprocess_data exact_mean (fun _ s => s) (fun _ s => s)
      (mkDataFrame [1; 2; 3; 4]%Z
         [("Close"%string, [of_Z 1; of_Z 3; NaN; of_Z 2])]) 2 1
    = Ok processed
    /\ subsequence (index processed) [1; 2; 3; 4]%Z
    /\ NoDup (index processed)
    /\ run_backtest BacktesterClass (new processed (Fin 10000)) = (Ok (r, pv), self')
    /\ subsequence (map label (trades self'))
         (skipn (Z.to_nat (Z.max 2 1 - 1)) (index processed)).
Proof.
  apply (preprocessed_data_runs exact_mean (fun _ s => s) (fun _ s => s)
           (mkDataFrame [1; 2; 3; 4]%Z
              [("Close"%string, [of_Z 1; of_Z 3; NaN; of_Z 2])]) 2 1 10000).
  - repeat constructor.
  - reflexivity.
  - repeat (apply NoDup_cons; [cbn; lia|]). apply NoDup_nil.
  - now left.
  - reflexivity.
  - lia.
  - lia.
  - lia.
  - intros H. discriminate H.
Defined.
